(** * eposx_hardware: the EPOS driver of [epos_hardware/src/util/epos.cpp]

    A shallow embedding of the driver class [Epos] and of its helper
    [ParameterSetLoader], followed by the properties of the bring-up
    sequence, of the cyclic read/write translation and of the status report.

    Conventions.
    - C++ [double] is IEEE binary64, embedded as Rocq's primitive [float];
      a [float] (IEEE binary32) is the binary64 value it denotes; [int],
      [short], [unsigned char] and the 16-bit statusword are [Z].
    - An argument of a call of the command library is converted to the type
      of the parameter it is passed for; a [Call] holds the converted value.
    - The vendor command library (the [VCS_*] functions) and the device behind
      it are an external collaborator: a transition function [vcs] over an
      abstract device state, answering every call with a [Reply].
    - The parameter server behind [ros::NodeHandle::getParam] is external as
      well: a record of typed lookups keyed by resolved parameter names. *)

From Stdlib Require Import ZArith Lia List Bool Ascii Uint63 PrimFloat FloatOps SpecFloat HexString.
From stdpp Require Import base option list strings gmap.

Open Scope Z_scope.

(** ** Numbers *)

Module Num.

(** [M_PI] of <math.h>: the binary64 value nearest to pi. *)
Definition M_PI : float := 0x1.921fb54442d18p+1%float.

Definition INT_MIN : Z := - 2 ^ 31.
Definition INT_MAX : Z := 2 ^ 31 - 1.

Definition in_int (z : Z) : bool := (INT_MIN <=? z) && (z <=? INT_MAX).

(** The integral part of a finite double, rounded towards zero. *)
Definition trunc (d : float) : option Z :=
  match Prim2SF d with
  | S754_zero _ => Some 0
  | S754_finite s m e =>
      let mag := match e with
                 | Z0 => Zpos m
                 | Zpos p => Z.shiftl (Zpos m) (Zpos p)
                 | Zneg p => Z.shiftr (Zpos m) (Zpos p)
                 end in
      Some (if s then - mag else mag)
  | S754_infinity _ | S754_nan => None
  end.

(** The conversion [(int)d]. It truncates towards zero; the behaviour is
    undefined ([None]) when the truncated value does not fit an [int], in
    particular for infinities and NaN. *)
Definition to_int (d : float) : option Z :=
  match trunc d with
  | Some z => if in_int z then Some z else None
  | None => None
  end.

(** The conversion [uint32_t data = d]. *)
Definition to_uint32 (d : float) : option Z :=
  match trunc d with
  | Some z => if (0 <=? z) && (z <? 2 ^ 32) then Some z else None
  | None => None
  end.

(** The implicit conversion of an integer to [double]; exact for every value
    of a 32-bit integer type. *)
Definition of_int (z : Z) : float :=
  match z with
  | Z0 => 0%float
  | Zpos _ => PrimFloat.of_uint63 (Uint63.of_Z z)
  | Zneg p => (- PrimFloat.of_uint63 (Uint63.of_Z (Zpos p)))%float
  end.

Definition isnan (d : float) : bool := PrimFloat.is_nan d.

(** [std::numeric_limits<double>::quiet_NaN()]. *)
Definition quiet_NaN : float := PrimFloat.nan.

(** The value a [w]-bit unsigned, respectively signed, variable holds. *)
Definition wrap_unsigned (w z : Z) : Z := z mod 2 ^ w.
Definition wrap_signed (w z : Z) : Z := (z + 2 ^ (w - 1)) mod 2 ^ w - 2 ^ (w - 1).

(** The conversion of an [int] to [unsigned short], [unsigned int],
    [unsigned char] and [short], as it happens where an [int] is passed for
    a parameter, or assigned to a variable, of that type. The unsigned
    conversions reduce the value modulo 2^16, 2^32 and 2^8; [to_short] gives
    the value within -32768 .. 32767 that is congruent to it modulo 2^16. *)
Definition to_ushort (z : Z) : Z := wrap_unsigned 16 z.
Definition to_uint (z : Z) : Z := wrap_unsigned 32 z.
Definition to_uchar (z : Z) : Z := wrap_unsigned 8 z.
Definition to_short (z : Z) : Z := wrap_signed 16 z.

(** The conversion of a [double] to [float]: the nearest binary32 value,
    ties to even, an infinity beyond the range of binary32. *)
Definition to_float (d : float) : float :=
  match Prim2SF d with
  | S754_finite s m e => SF2Prim (binary_round 24 128 s m e)
  | _ => d
  end.

(** [1 << n] on [int]: defined for shift counts that keep the result
    representable. *)
Definition shl1 (n : Z) : option Z :=
  if (0 <=? n) && (n <=? 30) then Some (Z.shiftl 1 n) else None.

(** [-z] on [int]: undefined for [INT_MIN]. *)
Definition neg_int (z : Z) : option Z :=
  if z =? INT_MIN then None else Some (- z).

End Num.

(** ** The parameter server *)

(** What [ros::NodeHandle::getParam(name, T &)] answers for each requested
    type [T], keyed by the resolved name of the parameter. *)
Record ParamServer := {
  getParam_bool : string -> option bool;
  getParam_int : string -> option Z;
  getParam_double : string -> option float;
  getParam_string : string -> option string;
  getParam_map : string -> option (gmap string string)
}.

(** A [ros::NodeHandle]: the parameter server and the namespace the handle
    resolves names in. *)
Record NodeHandle := { server : ParamServer; getNamespace : string }.

Definition resolveName (nh : NodeHandle) (name : string) : string :=
  getNamespace nh +:+ "/" +:+ name.

(** [ros::NodeHandle(parent, name)]. *)
Definition child (parent : NodeHandle) (name : string) : NodeHandle :=
  {| server := server parent; getNamespace := resolveName parent name |}.

Definition getParam {T : Type} (get : ParamServer -> string -> option T)
    (nh : NodeHandle) (name : string) : option T :=
  get (server nh) (resolveName nh name).

(** [nh.param(name, value, default)]. *)
Definition param_or {T : Type} (get : ParamServer -> string -> option T)
    (nh : NodeHandle) (name : string) (dflt : T) : T :=
  default dflt (getParam get nh name).

(** ** Log lines *)

Inductive RosLevel := INFO | WARN | ERROR.

Definition LogLine : Type := RosLevel * string.

Definition tab : string := String "009"%char "".

(** ** ParameterSetLoader (epos.cpp, lines 118-152) *)

Module ParameterSetLoader.

Record t := {
  nh_ : NodeHandle;
  found_ : list string;
  not_found_ : list string
}.

(** The two constructors. *)
Definition make (nh : NodeHandle) : t :=
  {| nh_ := nh; found_ := []; not_found_ := [] |}.

Definition make_child (parent_nh : NodeHandle) (name : string) : t :=
  make (child parent_nh name).

(** [param(name, value)]: [value] is the content of the referenced variable
    before the call, [None] for a local that was never assigned. The result
    is its content after the call, and the loader. *)
Definition param {T : Type} (get : ParamServer -> string -> option T)
    (name : string) (value : option T) (l : t) : option T * t :=
  match getParam get (nh_ l) name with
  | Some v =>
      (Some v, {| nh_ := nh_ l; found_ := found_ l ++ [name];
                  not_found_ := not_found_ l |})
  | None =>
      (value, {| nh_ := nh_ l; found_ := found_ l;
                 not_found_ := not_found_ l ++ [name] |})
  end.

(** What one run of [all_or_none] writes to the error log. *)
Definition report (l : t) : list LogLine :=
  (ERROR, "Expected all or none parameter set: (" +:+ getNamespace (nh_ l) +:+ ")")
  :: map (fun name => (ERROR, tab +:+ "Found: " +:+ resolveName (nh_ l) name)) (found_ l)
  ++ map (fun name => (ERROR, tab +:+ "Expected: " +:+ resolveName (nh_ l) name))
         (not_found_ l).

(** [all_or_none(found_all)]: the returned flag, the content of [found_all]
    after the call, and the lines logged. *)
Definition all_or_none (l : t) (found_all : option bool)
    : bool * option bool * list LogLine :=
  if (length (not_found_ l) =? 0)%nat then (true, Some true, [])
  else if (length (found_ l) =? 0)%nat then (true, Some false, [])
  else (false, found_all, report l).

(** A parameter group as the call sites build it: the chain of [param] calls
    over the attribute names, each with the lookup of its C++ type. Only the
    bookkeeping matters here, so the value read is dropped. *)
Definition Attr : Type := string * (ParamServer -> string -> bool).

Definition has {T : Type} (get : ParamServer -> string -> option T)
    : ParamServer -> string -> bool :=
  fun ps k => bool_decide (is_Some (get ps k)).

Definition present (nh : NodeHandle) (a : Attr) : bool :=
  snd a (server nh) (resolveName nh (fst a)).

Definition param_attr (a : Attr) (l : t) : t :=
  if present (nh_ l) a
  then {| nh_ := nh_ l; found_ := found_ l ++ [fst a]; not_found_ := not_found_ l |}
  else {| nh_ := nh_ l; found_ := found_ l; not_found_ := not_found_ l ++ [fst a] |}.

Definition load (attrs : list Attr) (l : t) : t :=
  fold_left (fun acc a => param_attr a acc) attrs l.

End ParameterSetLoader.

(** ** The device and the command library *)

(** The operation modes of the header's [OperationMode] enumeration, as
    [epos.cpp] names them. *)
Inductive OperationMode :=
  | PROFILE_POSITION_MODE
  | PROFILE_VELOCITY_MODE
  | CURRENT_MODE.

#[global] Instance OperationMode_eq_dec : EqDecision OperationMode.
Proof. solve_decision. Defined.

(** One call of the command library, with the arguments as the library
    receives them. The device handle and node id are those of the driver's
    [node_handle_]; the error-code argument is part of the [Reply].
    [CreateNodeHandle] is the call on the factory.

    The parameter types are those of the library's header [Definitions.h]:
    - [unsigned short]: the motor and sensor type, the currents and the
      thermal time constant of [SetDcMotorParameter] and
      [SetEcMotorParameter], the data rate and bit counts of
      [SetSsiAbsEncoderParameter], the gains and feed forwards of the three
      regulators, the [time] of both windows;
    - [unsigned char]: the number of pole pairs, and the error number of
      [GetDeviceErrorCode] (the driver passes 1 to [num_errors], itself an
      [unsigned char]);
    - [unsigned int]: the encoder resolution, the three safety limits, the
      values of both profiles, the [window] of both windows, the protocol
      stack settings;
    - [short]: the current of [SetCurrentMust];
    - [long] (64 bits): the targets of [MoveWithVelocity] and
      [MoveToPosition].
    The driver computes these arguments as [int]. *)
Inductive Call :=
  | CreateNodeHandle (device protocol interface : string) (serial_number : Z)
  | SetProtocolStackSettings (baudrate timeout : Z)
  | SetDisableState
  | SetEnableState
  | SetOperationMode (mode : OperationMode)
  | SetObject (index subindex data nb_bytes : Z)
  | GetObject (index subindex nb_bytes : Z)
  | SetMotorType (type : Z)
  | SetDcMotorParameter (nominal_current max_output_current thermal_time_constant : Z)
  | SetEcMotorParameter
      (nominal_current max_output_current thermal_time_constant number_of_pole_pairs : Z)
  | SetSensorType (type : Z)
  | SetIncEncoderParameter (resolution : Z) (inverted_polarity : bool)
  | SetHallSensorParameter (inverted_polarity : bool)
  | SetSsiAbsEncoderParameter
      (data_rate number_of_multiturn_bits number_of_singleturn_bits : Z)
      (inverted_polarity : bool)
  | SetMaxFollowingError (max_following_error : Z)
  | SetMaxProfileVelocity (max_profile_velocity : Z)
  | SetMaxAcceleration (max_acceleration : Z)
  | SetPositionRegulatorGain (p i d : Z)
  | SetPositionRegulatorFeedForward (velocity acceleration : Z)
  | SetVelocityRegulatorGain (p i : Z)
  | SetVelocityRegulatorFeedForward (velocity acceleration : Z)
  | SetCurrentRegulatorGain (p i : Z)
  | SetPositionProfile (velocity acceleration deceleration : Z)
  | EnablePositionWindow (window time : Z)
  | SetVelocityProfile (acceleration deceleration : Z)
  | EnableVelocityWindow (window time : Z)
  | GetNbOfDeviceError
  | GetDeviceErrorCode (error_number : Z)
  | ClearFault
  | GetPositionIs
  | GetVelocityIs
  | GetCurrentIs
  | MoveWithVelocity (target_velocity : Z)
  | HaltVelocityMovement
  | MoveToPosition (target_position : Z) (absolute immediately : bool)
  | SetCurrentMust (current_must : Z).

#[global] Instance Call_eq_dec : EqDecision Call.
Proof. solve_decision. Defined.

(** The name [func] that the macro [VCS(func, ...)] pastes into its message. *)
Definition func_name (c : Call) : string :=
  match c with
  | CreateNodeHandle _ _ _ _ => "CreateNodeHandle"
  | SetProtocolStackSettings _ _ => "SetProtocolStackSettings"
  | SetDisableState => "SetDisableState"
  | SetEnableState => "SetEnableState"
  | SetOperationMode _ => "SetOperationMode"
  | SetObject _ _ _ _ => "SetObject"
  | GetObject _ _ _ => "GetObject"
  | SetMotorType _ => "SetMotorType"
  | SetDcMotorParameter _ _ _ => "SetDcMotorParameter"
  | SetEcMotorParameter _ _ _ _ => "SetEcMotorParameter"
  | SetSensorType _ => "SetSensorType"
  | SetIncEncoderParameter _ _ => "SetIncEncoderParameter"
  | SetHallSensorParameter _ => "SetHallSensorParameter"
  | SetSsiAbsEncoderParameter _ _ _ _ => "SetSsiAbsEncoderParameter"
  | SetMaxFollowingError _ => "SetMaxFollowingError"
  | SetMaxProfileVelocity _ => "SetMaxProfileVelocity"
  | SetMaxAcceleration _ => "SetMaxAcceleration"
  | SetPositionRegulatorGain _ _ _ => "SetPositionRegulatorGain"
  | SetPositionRegulatorFeedForward _ _ => "SetPositionRegulatorFeedForward"
  | SetVelocityRegulatorGain _ _ => "SetVelocityRegulatorGain"
  | SetVelocityRegulatorFeedForward _ _ => "SetVelocityRegulatorFeedForward"
  | SetCurrentRegulatorGain _ _ => "SetCurrentRegulatorGain"
  | SetPositionProfile _ _ _ => "SetPositionProfile"
  | EnablePositionWindow _ _ => "EnablePositionWindow"
  | SetVelocityProfile _ _ => "SetVelocityProfile"
  | EnableVelocityWindow _ _ => "EnableVelocityWindow"
  | GetNbOfDeviceError => "GetNbOfDeviceError"
  | GetDeviceErrorCode _ => "GetDeviceErrorCode"
  | ClearFault => "ClearFault"
  | GetPositionIs => "GetPositionIs"
  | GetVelocityIs => "GetVelocityIs"
  | GetCurrentIs => "GetCurrentIs"
  | MoveWithVelocity _ => "MoveWithVelocity"
  | HaltVelocityMovement => "HaltVelocityMovement"
  | MoveToPosition _ _ _ => "MoveToPosition"
  | SetCurrentMust _ => "SetCurrentMust"
  end.

(** The answer to a call. [Success out]: the call returned non-zero and
    stored [out] in its output argument ([0] for a call without one).
    [Failure out error_code]: the call returned zero with that error code; its
    output argument holds [out] afterwards, or was left untouched ([None]).
    The driver sees an output through the C type of the argument ([typed]
    below). *)
Inductive Reply :=
  | Success (out : Z)
  | Failure (out : option Z) (error_code : Z).

Definition succeeded (r : Reply) : bool :=
  match r with Success _ => true | Failure _ _ => false end.

(** The content of the output variable after the call, [old] being its
    content before. *)
Definition stored (r : Reply) (old : Z) : Z :=
  match r with
  | Success v => v
  | Failure (Some v) _ => v
  | Failure None _ => old
  end.

(** The C type of the output argument of each call: what the variable holds
    when the library stores [v] through it. *)
Definition output (c : Call) (v : Z) : Z :=
  match c with
  | GetNbOfDeviceError => Num.wrap_unsigned 8 v
  | GetDeviceErrorCode _ => Num.wrap_unsigned 32 v
  | GetObject _ _ nb_bytes => Num.wrap_unsigned (8 * nb_bytes) v
  | GetPositionIs | GetVelocityIs => Num.wrap_signed 32 v
  | GetCurrentIs => Num.wrap_signed 16 v
  | _ => v
  end.

Definition typed (c : Call) (r : Reply) : Reply :=
  match r with
  | Success v => Success (output c v)
  | Failure (Some v) e => Failure (Some (output c v)) e
  | Failure None e => Failure None e
  end.

(** ** The driver object *)

(** [sensor_msgs::BatteryState], the fields the driver touches. The numeric
    fields are [float] (binary32): an assignment of a [double] rounds it with
    [Num.to_float]. The status, health and technology are [uint8]: an
    assignment of an [int] reduces it with [Num.to_uchar]. *)
Record BatteryState := {
  voltage : float;
  present : bool;
  bs_current : float;
  charge : float;
  capacity : float;
  design_capacity : float;
  percentage : float;
  power_supply_status : Z;
  power_supply_health : Z;
  power_supply_technology : Z;
  location : string;
  serial_number : string
}.

(** The default-constructed message. *)
Definition BatteryState_default : BatteryState :=
  {| voltage := 0%float; present := false; bs_current := 0%float; charge := 0%float;
     capacity := 0%float; design_capacity := 0%float; percentage := 0%float;
     power_supply_status := 0; power_supply_health := 0;
     power_supply_technology := 0; location := ""; serial_number := "" |}.

(** The data members of [class Epos] that [epos.cpp] uses. [operation_mode_]
    is [None] when it holds a value that is none of the three enumerators
    (the "Unknown Mode" of [buildMotorOutputStatus]); [node_handle_] is [None]
    for the null pointer. *)

Record Epos := {
  name_ : string;
  config_nh_ : NodeHandle;
  valid_ : bool;
  has_init_ : bool;
  actuator_name_ : string;
  serial_number_ : Z;
  operation_mode_map_ : gmap string OperationMode;
  operation_mode_ : option OperationMode;
  rw_ros_units_ : bool;
  node_handle_ : option Z;
  position_ : float;
  velocity_ : float;
  effort_ : float;
  current_ : float;
  statusword_ : Z;
  position_cmd_ : float;
  velocity_cmd_ : float;
  torque_cmd_ : float;
  torque_constant_ : float;
  nominal_current_ : float;
  max_current_ : float;
  encoder_resolution_ : Z;
  max_profile_velocity_ : Z;
  halt_velocity_ : bool;
  power_supply_name_ : string;
  power_supply_state_ : BatteryState
}.


(** Assignments to single members. *)

Definition set_has_init_ (v : bool) (e : Epos) : Epos :=
  let '(Build_Epos a0 a1 a2 _ a4 a5 a6 a7 a8 a9 a10 a11 a12 a13 a14 a15 a16 a17 a18 a19
      a20 a21 a22 a23 a24 a25) := e in
  Build_Epos a0 a1 a2 v a4 a5 a6 a7 a8 a9 a10 a11 a12 a13 a14 a15 a16 a17 a18 a19 a20
    a21 a22 a23 a24 a25.

Definition set_node_handle_ (v : option Z) (e : Epos) : Epos :=
  let '(Build_Epos a0 a1 a2 a3 a4 a5 a6 a7 a8 _ a10 a11 a12 a13 a14 a15 a16 a17 a18 a19
      a20 a21 a22 a23 a24 a25) := e in
  Build_Epos a0 a1 a2 a3 a4 a5 a6 a7 a8 v a10 a11 a12 a13 a14 a15 a16 a17 a18 a19 a20
    a21 a22 a23 a24 a25.

Definition set_position_ (v : float) (e : Epos) : Epos :=
  let '(Build_Epos a0 a1 a2 a3 a4 a5 a6 a7 a8 a9 _ a11 a12 a13 a14 a15 a16 a17 a18 a19
      a20 a21 a22 a23 a24 a25) := e in
  Build_Epos a0 a1 a2 a3 a4 a5 a6 a7 a8 a9 v a11 a12 a13 a14 a15 a16 a17 a18 a19 a20 a21
    a22 a23 a24 a25.

Definition set_velocity_ (v : float) (e : Epos) : Epos :=
  let '(Build_Epos a0 a1 a2 a3 a4 a5 a6 a7 a8 a9 a10 _ a12 a13 a14 a15 a16 a17 a18 a19
      a20 a21 a22 a23 a24 a25) := e in
  Build_Epos a0 a1 a2 a3 a4 a5 a6 a7 a8 a9 a10 v a12 a13 a14 a15 a16 a17 a18 a19 a20 a21
    a22 a23 a24 a25.

Definition set_effort_ (v : float) (e : Epos) : Epos :=
  let '(Build_Epos a0 a1 a2 a3 a4 a5 a6 a7 a8 a9 a10 a11 _ a13 a14 a15 a16 a17 a18 a19
      a20 a21 a22 a23 a24 a25) := e in
  Build_Epos a0 a1 a2 a3 a4 a5 a6 a7 a8 a9 a10 a11 v a13 a14 a15 a16 a17 a18 a19 a20 a21
    a22 a23 a24 a25.

Definition set_current_ (v : float) (e : Epos) : Epos :=
  let '(Build_Epos a0 a1 a2 a3 a4 a5 a6 a7 a8 a9 a10 a11 a12 _ a14 a15 a16 a17 a18 a19
      a20 a21 a22 a23 a24 a25) := e in
  Build_Epos a0 a1 a2 a3 a4 a5 a6 a7 a8 a9 a10 a11 a12 v a14 a15 a16 a17 a18 a19 a20 a21
    a22 a23 a24 a25.

Definition set_statusword_ (v : Z) (e : Epos) : Epos :=
  let '(Build_Epos a0 a1 a2 a3 a4 a5 a6 a7 a8 a9 a10 a11 a12 a13 _ a15 a16 a17 a18 a19
      a20 a21 a22 a23 a24 a25) := e in
  Build_Epos a0 a1 a2 a3 a4 a5 a6 a7 a8 a9 a10 a11 a12 a13 v a15 a16 a17 a18 a19 a20 a21
    a22 a23 a24 a25.

Definition set_position_cmd_ (v : float) (e : Epos) : Epos :=
  let '(Build_Epos a0 a1 a2 a3 a4 a5 a6 a7 a8 a9 a10 a11 a12 a13 a14 _ a16 a17 a18 a19
      a20 a21 a22 a23 a24 a25) := e in
  Build_Epos a0 a1 a2 a3 a4 a5 a6 a7 a8 a9 a10 a11 a12 a13 a14 v a16 a17 a18 a19 a20 a21
    a22 a23 a24 a25.

Definition set_velocity_cmd_ (v : float) (e : Epos) : Epos :=
  let '(Build_Epos a0 a1 a2 a3 a4 a5 a6 a7 a8 a9 a10 a11 a12 a13 a14 a15 _ a17 a18 a19
      a20 a21 a22 a23 a24 a25) := e in
  Build_Epos a0 a1 a2 a3 a4 a5 a6 a7 a8 a9 a10 a11 a12 a13 a14 a15 v a17 a18 a19 a20 a21
    a22 a23 a24 a25.

Definition set_torque_cmd_ (v : float) (e : Epos) : Epos :=
  let '(Build_Epos a0 a1 a2 a3 a4 a5 a6 a7 a8 a9 a10 a11 a12 a13 a14 a15 a16 _ a18 a19
      a20 a21 a22 a23 a24 a25) := e in
  Build_Epos a0 a1 a2 a3 a4 a5 a6 a7 a8 a9 a10 a11 a12 a13 a14 a15 a16 v a18 a19 a20 a21
    a22 a23 a24 a25.

Definition set_operation_mode_ (v : option OperationMode) (e : Epos) : Epos :=
  let '(Build_Epos a0 a1 a2 a3 a4 a5 a6 _ a8 a9 a10 a11 a12 a13 a14 a15 a16 a17 a18 a19
      a20 a21 a22 a23 a24 a25) := e in
  Build_Epos a0 a1 a2 a3 a4 a5 a6 v a8 a9 a10 a11 a12 a13 a14 a15 a16 a17 a18 a19 a20
    a21 a22 a23 a24 a25.

Definition set_torque_constant_ (v : float) (e : Epos) : Epos :=
  let '(Build_Epos a0 a1 a2 a3 a4 a5 a6 a7 a8 a9 a10 a11 a12 a13 a14 a15 a16 a17 _ a19
      a20 a21 a22 a23 a24 a25) := e in
  Build_Epos a0 a1 a2 a3 a4 a5 a6 a7 a8 a9 a10 a11 a12 a13 a14 a15 a16 a17 v a19 a20 a21
    a22 a23 a24 a25.

Definition set_nominal_current_ (v : float) (e : Epos) : Epos :=
  let '(Build_Epos a0 a1 a2 a3 a4 a5 a6 a7 a8 a9 a10 a11 a12 a13 a14 a15 a16 a17 a18 _
      a20 a21 a22 a23 a24 a25) := e in
  Build_Epos a0 a1 a2 a3 a4 a5 a6 a7 a8 a9 a10 a11 a12 a13 a14 a15 a16 a17 a18 v a20 a21
    a22 a23 a24 a25.

Definition set_max_current_ (v : float) (e : Epos) : Epos :=
  let '(Build_Epos a0 a1 a2 a3 a4 a5 a6 a7 a8 a9 a10 a11 a12 a13 a14 a15 a16 a17 a18 a19
      _ a21 a22 a23 a24 a25) := e in
  Build_Epos a0 a1 a2 a3 a4 a5 a6 a7 a8 a9 a10 a11 a12 a13 a14 a15 a16 a17 a18 a19 v a21
    a22 a23 a24 a25.

Definition set_encoder_resolution_ (v : Z) (e : Epos) : Epos :=
  let '(Build_Epos a0 a1 a2 a3 a4 a5 a6 a7 a8 a9 a10 a11 a12 a13 a14 a15 a16 a17 a18 a19
      a20 _ a22 a23 a24 a25) := e in
  Build_Epos a0 a1 a2 a3 a4 a5 a6 a7 a8 a9 a10 a11 a12 a13 a14 a15 a16 a17 a18 a19 a20 v
    a22 a23 a24 a25.

Definition set_max_profile_velocity_ (v : Z) (e : Epos) : Epos :=
  let '(Build_Epos a0 a1 a2 a3 a4 a5 a6 a7 a8 a9 a10 a11 a12 a13 a14 a15 a16 a17 a18 a19
      a20 a21 _ a23 a24 a25) := e in
  Build_Epos a0 a1 a2 a3 a4 a5 a6 a7 a8 a9 a10 a11 a12 a13 a14 a15 a16 a17 a18 a19 a20
    a21 v a23 a24 a25.

Definition set_halt_velocity_ (v : bool) (e : Epos) : Epos :=
  let '(Build_Epos a0 a1 a2 a3 a4 a5 a6 a7 a8 a9 a10 a11 a12 a13 a14 a15 a16 a17 a18 a19
      a20 a21 a22 _ a24 a25) := e in
  Build_Epos a0 a1 a2 a3 a4 a5 a6 a7 a8 a9 a10 a11 a12 a13 a14 a15 a16 a17 a18 a19 a20
    a21 a22 v a24 a25.

Definition set_power_supply_state_ (v : BatteryState) (e : Epos) : Epos :=
  let '(Build_Epos a0 a1 a2 a3 a4 a5 a6 a7 a8 a9 a10 a11 a12 a13 a14 a15 a16 a17 a18 a19
      a20 a21 a22 a23 a24 _) := e in
  Build_Epos a0 a1 a2 a3 a4 a5 a6 a7 a8 a9 a10 a11 a12 a13 a14 a15 a16 a17 a18 a19 a20
    a21 a22 a23 a24 v.

(** ** Outcomes of the driver's member functions *)

(** How a member function ends: it runs to the point of interest with a value
    ([Ret]); it takes an early [return false] ([Fail]); it has undefined
    behaviour ([Stuck]: a conversion out of range, a null handle, a local
    read before any assignment); or the iteration budget of a loop without an
    exit condition is used up ([Timeout]). *)
Inductive Res (A : Type) :=
  | Ret (a : A)
  | Fail
  | Stuck
  | Timeout.

Arguments Ret {A} a.
Arguments Fail {A}.
Arguments Stuck {A}.
Arguments Timeout {A}.

Section Monad.

Context {St : Type}.

Definition M (A : Type) : Type := St -> Res A * St.

Definition ret {A : Type} (a : A) : M A := fun s => (Ret a, s).

Definition bind {A B : Type} (m : M A) (k : A -> M B) : M B :=
  fun s =>
    match m s with
    | (Ret a, s') => k a s'
    | (Fail, s') => (Fail, s')
    | (Stuck, s') => (Stuck, s')
    | (Timeout, s') => (Timeout, s')
    end.

Definition fail {A : Type} : M A := fun s => (Fail, s).
Definition stuck {A : Type} : M A := fun s => (Stuck, s).
Definition timeout {A : Type} : M A := fun s => (Timeout, s).

(** A value whose computation may be undefined. *)
Definition defined {A : Type} (o : option A) : M A :=
  match o with Some a => ret a | None => stuck end.

End Monad.

Declare Scope epos_scope.
Delimit Scope epos_scope with epos.
Notation "x <- m ;; k" := (bind m (fun x => k))
  (at level 100, m at next level, k at level 200, right associativity) : epos_scope.
Notation "m ;; k" := (bind m (fun _ => k))
  (at level 100, k at level 200, right associativity) : epos_scope.
Open Scope epos_scope.

(** ** diagnostic_updater::DiagnosticStatusWrapper *)

(** The report object of the host framework, with the three operations the
    driver uses. Levels are those of [diagnostic_msgs/DiagnosticStatus]. *)
Module DiagnosticStatus.

Definition OK : Z := 0.
Definition WARN : Z := 1.
Definition ERROR : Z := 2.

Record t := {
  level : Z;
  message : string;
  values : list (string * string)
}.

Definition summary (lvl : Z) (s : string) (stat : t) : t :=
  {| level := lvl; message := s; values := values stat |}.

(** Merging keeps the higher of the two levels; messages of two non-OK
    levels are joined. *)
Definition mergeSummary (lvl : Z) (s : string) (stat : t) : t :=
  {| level := if lvl >? level stat then lvl else level stat;
     message :=
       if (lvl >? 0) && (level stat >? 0)
       then (if bool_decide (message stat = "") then s
             else message stat +:+ "; " +:+ s)
       else if lvl >? level stat then s else message stat;
     values := values stat |}.

Definition add (key value : string) (stat : t) : t :=
  {| level := level stat; message := message stat;
     values := values stat ++ [(key, value)] |}.

Definition add_bool (key : string) (b : bool) (stat : t) : t :=
  add key (if b then "True" else "False") stat.

End DiagnosticStatus.

(** ** The driver *)

(** [STATUSWORD(b, v)] and the bit positions (lines 708-717); [truthy] is
    the conversion of the resulting integer to [bool]. *)
Definition STATUSWORD (b v : Z) : Z := Z.land (Z.shiftr v b) 1.
Definition truthy (z : Z) : bool := negb (z =? 0).
Definition READY_TO_SWITCH_ON : Z := 0.
Definition SWITCHED_ON : Z := 1.
Definition ENABLE : Z := 2.
Definition FAULT : Z := 3.
Definition VOLTAGE_ENABLED : Z := 4.
Definition QUICKSTOP : Z := 5.
Definition WARNING : Z := 7.
Definition TARGET_REACHED : Z := 10.
Definition CURRENT_LIMIT_ACTIVE : Z := 11.

(** The operation mode a configuration string names (lines 39-48). *)
Definition mode_of_string (s : string) : option OperationMode :=
  if bool_decide (s = "profile_position") then Some PROFILE_POSITION_MODE
  else if bool_decide (s = "profile_velocity") then Some PROFILE_VELOCITY_MODE
  else if bool_decide (s = "current") then Some CURRENT_MODE
  else None.

(** The controllers of a switch notification: only the name is used. *)
Record ControllerInfo := { ci_name : string }.

(** The locals of [read()] that are declared without an initializer: their
    content at entry. *)
Record ReadFrame := {
  position_raw0 : Z;
  velocity_raw0 : Z;
  current_raw0 : Z
}.

Section Driver.

(** The device behind the command library, and two helpers of the package
    that live outside [epos.cpp]: the parser of the serial number and the
    lookup of an error description. *)
Context {D : Type}.
Variable vcs : Call -> D -> Reply * D.
Variable SerialNumberFromHex : string -> option Z.
Variable GetErrorInfo : Z -> option string.

(** The driver object, the device, the calls issued so far with their
    answers, and the log. *)
Record Sys := {
  obj : Epos;
  dev : D;
  calls : list (Call * Reply);
  log : list LogLine
}.

Definition get_obj : M Epos := fun s => (Ret (obj s), s).

Definition modify_obj (f : Epos -> Epos) : M unit :=
  fun s => (Ret tt, {| obj := f (obj s); dev := dev s; calls := calls s; log := log s |}).

Definition ROS_LOG (lvl : RosLevel) (msg : string) : M unit :=
  fun s => (Ret tt, {| obj := obj s; dev := dev s; calls := calls s;
                       log := log s ++ [(lvl, msg)] |}).

Definition ROS_LOG_lines (lines : list LogLine) : M unit :=
  fun s => (Ret tt, {| obj := obj s; dev := dev s; calls := calls s;
                       log := log s ++ lines |}).

(** A call on the factory: no node handle is needed. *)
Definition factory_call (c : Call) : M Reply :=
  fun s =>
    let '(r, d) := vcs c (dev s) in
    let r := typed c r in
    (Ret r, {| obj := obj s; dev := d; calls := calls s ++ [(c, r)]; log := log s |}).

(** A call through [node_handle_->device_handle->ptr]: undefined on the null
    handle. The result is the answer; the caller decides what to do with it. *)
Definition call (c : Call) : M Reply :=
  fun s =>
    match node_handle_ (obj s) with
    | None => (Stuck, s)
    | Some _ => factory_call c s
    end.

(** The macro [VCS(func, ...)] (lines 154-159). *)
Definition VCS (c : Call) : M unit :=
  r <- call c ;;
  if succeeded r then ret tt
  else ROS_LOG ERROR ("Failed to " +:+ func_name c) ;; fail.

(** The macro [VCS_SET_OBJECT] (lines 161-169). Its body is the body of a
    [do ... while (true)]: the call is repeated for as long as it succeeds,
    and the only way out is the [return false] of a failed call. [fuel]
    bounds the number of iterations. *)
Fixpoint VCS_SET_OBJECT (fuel : nat) (index subindex data length : Z)
    (msg : string) : M unit :=
  match fuel with
  | O => timeout
  | S fuel' =>
      r <- call (SetObject index subindex data length) ;;
      if succeeded r then VCS_SET_OBJECT fuel' index subindex data length msg
      else ROS_LOG ERROR msg ;; fail
  end.

(** [SET_FAULT_REACTION_OPTION(val)] (lines 224-228): a second
    [do ... while (true)] around [VCS_SET_OBJECT(0x605E, 0x00, &data, 2)],
    whose body never completes. *)
Definition SET_FAULT_REACTION_OPTION (fuel : nat) (val : Z) : M unit :=
  VCS_SET_OBJECT fuel 0x605E 0x00 val 2 "Failed to SetObject(0x605e, 0000, len: 2)".

(** [VCS_FROM_SINGLE_PARAM_REQUIRED] (lines 171-178). *)
Definition VCS_FROM_SINGLE_PARAM_REQUIRED (nh : NodeHandle) (name : string)
    (func : Z -> Call) : M Z :=
  match getParam getParam_int nh name with
  | None => ROS_LOG ERROR (resolveName nh name +:+ " not specified") ;; fail
  | Some v => VCS (func v) ;; ret v
  end.

(** [VCS_FROM_SINGLE_PARAM_OPTIONAL] (lines 179-184): the result is the value
    when [name_set] is true. *)
Definition VCS_FROM_SINGLE_PARAM_OPTIONAL (nh : NodeHandle) (name : string)
    (func : Z -> Call) : M (option Z) :=
  match getParam getParam_int nh name with
  | Some v => VCS (func v) ;; ret (Some v)
  | None => ret None
  end.

(** The idiom [if (!loader.all_or_none(found_all)) return false;] around a
    loader: the result is [found_all]. *)
Definition all_or_none_or_return (l : ParameterSetLoader.t) : M bool :=
  let '(ok, found_all, lines) := ParameterSetLoader.all_or_none l None in
  ROS_LOG_lines lines ;;
  if ok then defined found_all else fail.

(** Modelled from the spec: [torqueToCurrent] and [currentToTorque] are
    inline members of the header [epos.h]; "current = torque /
    torque_constant" and "current x torque_constant". *)
Definition torqueToCurrent (e : Epos) (torque : float) : float :=
  (torque / torque_constant_ e)%float.

Definition currentToTorque (e : Epos) (current : float) : float :=
  (current * torque_constant_ e)%float.

(** *** The constructor (lines 10-110) *)

(** [mem] is the storage the object is built in: members without an
    initializer keep its content. The result is [None] when the assertion on
    the serial number fails (a build with assertions enabled). The log lines
    and the registrations with the host interfaces are outside the
    embedding. *)
Definition Epos_ctor (name : string) (config_nh : NodeHandle) (mem : Epos)
    : option Epos :=
  let actuator_name := getParam getParam_string config_nh "actuator_name" in
  let serial_number_str := getParam getParam_string config_nh "serial_number" in
  let str_map := getParam getParam_map config_nh "operation_mode_map" in
  let serial :=
    match serial_number_str with
    | None => Some (serial_number_ mem)
    | Some str => SerialNumberFromHex str
    end in
  let power_supply_name :=
    default "" (getParam getParam_string config_nh "power_supply/name") in
  match serial with
  | None => None
  | Some serial_number =>
    Some {|
      name_ := name;
      config_nh_ := config_nh;
      valid_ :=
        bool_decide (is_Some actuator_name) && bool_decide (is_Some serial_number_str)
        && bool_decide (map_Forall (fun _ v => is_Some (mode_of_string v))
                                   (default ∅ str_map));
      has_init_ := false;
      actuator_name_ := default "" actuator_name;
      serial_number_ := serial_number;
      operation_mode_map_ := omap mode_of_string (default ∅ str_map);
      operation_mode_ := operation_mode_ mem;
      rw_ros_units_ := param_or getParam_bool config_nh "rw_ros_units" false;
      node_handle_ := None;
      position_ := 0%float;
      velocity_ := 0%float;
      effort_ := 0%float;
      current_ := 0%float;
      statusword_ := 0;
      position_cmd_ := 0%float;
      velocity_cmd_ := 0%float;
      torque_cmd_ := torque_cmd_ mem;
      torque_constant_ := torque_constant_ mem;
      nominal_current_ := nominal_current_ mem;
      max_current_ := max_current_ mem;
      encoder_resolution_ := encoder_resolution_ mem;
      max_profile_velocity_ := max_profile_velocity_ mem;
      halt_velocity_ := halt_velocity_ mem;
      power_supply_name_ := power_supply_name;
      power_supply_state_ :=
        if bool_decide (power_supply_name = "") then BatteryState_default
        else
          {| voltage := 0%float;
             present := false;
             bs_current := Num.quiet_NaN;
             charge := Num.quiet_NaN;
             capacity := Num.quiet_NaN;
             design_capacity := Num.quiet_NaN;
             percentage := Num.quiet_NaN;
             power_supply_status := 0;
             power_supply_health := 0;
             power_supply_technology :=
               Num.to_uchar (param_or getParam_int config_nh "power_supply/technology" 0);
             location := param_or getParam_string config_nh "power_supply/location" "";
             serial_number :=
               param_or getParam_string config_nh "power_supply/serial_number" "" |}
    |}
  end.

(** *** init (lines 186-587), block by block *)

(** Lines 187-211: the validity check, the node handle, the protocol stack
    settings and the disable state. *)
Definition init_connect : M unit :=
  e <- get_obj ;;
  if negb (valid_ e) then
    ROS_LOG ERROR ("Not Initializing: " +:+ HexString.of_Z (serial_number_ e)
                   +:+ ", initial construction failed") ;;
    fail
  else
    ROS_LOG INFO ("Initializing: " +:+ HexString.of_Z (serial_number_ e)) ;;
    r <- factory_call
           (CreateNodeHandle "EPOS4" "MAXON SERIAL V2" "USB" (serial_number_ e)) ;;
    modify_obj (set_node_handle_
                  (match r with Success h => Some h | Failure _ _ => None end)) ;;
    if negb (succeeded r) then ROS_LOG ERROR "Could not find motor" ;; fail
    else
      ROS_LOG INFO "Found Motor" ;;
      VCS (SetProtocolStackSettings 1000000 500) ;;
      VCS SetDisableState.

(** Lines 213-221: the initial operation mode. *)
Definition init_initial_mode : M unit :=
  e <- get_obj ;;
  match operation_mode_map_ e !! "" with
  | Some initial_mode => VCS (SetOperationMode initial_mode)
  | None => ROS_LOG WARN "No initial operation mode"
  end.

(** Lines 223-243: the fault reaction option. *)
Definition init_fault_reaction (fuel : nat) : M unit :=
  e <- get_obj ;;
  match getParam getParam_string (config_nh_ e) "fault_reaction_option" with
  | Some fault_reaction_str =>
      if bool_decide (fault_reaction_str = "signal_only") then
        SET_FAULT_REACTION_OPTION fuel (-1)
      else if bool_decide (fault_reaction_str = "disable_drive") then
        SET_FAULT_REACTION_OPTION fuel 0
      else if bool_decide (fault_reaction_str = "slow_down_ramp") then
        SET_FAULT_REACTION_OPTION fuel 1
      else if bool_decide (fault_reaction_str = "slow_down_quickstop") then
        SET_FAULT_REACTION_OPTION fuel 2
      else
        ROS_LOG ERROR (fault_reaction_str +:+ " is not a valid fault reaction option") ;;
        fail
  | None => ret tt
  end.

(** Lines 245-249: the torque constant. *)
Definition init_torque_constant : M unit :=
  e <- get_obj ;;
  match getParam getParam_double (config_nh_ e) "torque_constant" with
  | Some k => modify_obj (set_torque_constant_ k)
  | None =>
      ROS_LOG WARN
        "No torque constant specified, you can supply one using the 'torque_constant' parameter" ;;
      modify_obj (set_torque_constant_ 1%float)
  end.

(** Lines 259-279: the parameters of a DC motor. *)
Definition init_dc_motor (motor_nh : NodeHandle) : M unit :=
  let l := ParameterSetLoader.make_child motor_nh "dc_motor" in
  let '(nominal_current, l) :=
    ParameterSetLoader.param getParam_double "nominal_current" None l in
  let '(max_output_current, l) :=
    ParameterSetLoader.param getParam_double "max_output_current" None l in
  let '(thermal_time_constant, l) :=
    ParameterSetLoader.param getParam_double "thermal_time_constant" None l in
  dc_motor <- all_or_none_or_return l ;;
  if dc_motor : bool then
    nominal_current <- defined nominal_current ;;
    max_output_current <- defined max_output_current ;;
    thermal_time_constant <- defined thermal_time_constant ;;
    modify_obj (set_nominal_current_ nominal_current) ;;
    modify_obj (set_max_current_ max_output_current) ;;
    a <- defined (Num.to_int (1000 * nominal_current)%float) ;;
    b <- defined (Num.to_int (1000 * max_output_current)%float) ;;
    c <- defined (Num.to_int (10 * thermal_time_constant)%float) ;;
    VCS (SetDcMotorParameter (Num.to_ushort a) (Num.to_ushort b) (Num.to_ushort c))
  else ret tt.

(** Lines 281-304: the parameters of an EC motor. *)
Definition init_ec_motor (motor_nh : NodeHandle) : M unit :=
  let l := ParameterSetLoader.make_child motor_nh "ec_motor" in
  let '(nominal_current, l) :=
    ParameterSetLoader.param getParam_double "nominal_current" None l in
  let '(max_output_current, l) :=
    ParameterSetLoader.param getParam_double "max_output_current" None l in
  let '(thermal_time_constant, l) :=
    ParameterSetLoader.param getParam_double "thermal_time_constant" None l in
  let '(number_of_pole_pairs, l) :=
    ParameterSetLoader.param getParam_int "number_of_pole_pairs" None l in
  ec_motor <- all_or_none_or_return l ;;
  if ec_motor : bool then
    nominal_current <- defined nominal_current ;;
    max_output_current <- defined max_output_current ;;
    thermal_time_constant <- defined thermal_time_constant ;;
    number_of_pole_pairs <- defined number_of_pole_pairs ;;
    modify_obj (set_nominal_current_ nominal_current) ;;
    modify_obj (set_max_current_ max_output_current) ;;
    a <- defined (Num.to_int (1000 * nominal_current)%float) ;;
    b <- defined (Num.to_int (1000 * max_output_current)%float) ;;
    c <- defined (Num.to_int (10 * thermal_time_constant)%float) ;;
    VCS (SetEcMotorParameter (Num.to_ushort a) (Num.to_ushort b) (Num.to_ushort c)
           (Num.to_uchar number_of_pole_pairs))
  else ret tt.

(** Lines 251-311: the motor. *)
Definition init_motor (fuel : nat) : M unit :=
  ROS_LOG INFO "Configuring Motor" ;;
  modify_obj (set_nominal_current_ 0%float) ;;
  modify_obj (set_max_current_ 0%float) ;;
  e <- get_obj ;;
  let motor_nh := child (config_nh_ e) "motor" in
  VCS_FROM_SINGLE_PARAM_REQUIRED motor_nh "type"
    (fun type => SetMotorType (Num.to_ushort type)) ;;
  init_dc_motor motor_nh ;;
  init_ec_motor motor_nh ;;
  match getParam getParam_double motor_nh "max_speed" with
  | Some max_speed =>
      data <- defined (Num.to_uint32 max_speed) ;;
      VCS_SET_OBJECT fuel 0x6080 0x00 data 4 "Failed to SetObject(0x6080, 0000, len: 4)"
  | None => ret tt
  end.

(** Lines 320-338: the incremental encoder. *)
Definition init_incremental_encoder (sensor_nh : NodeHandle) : M unit :=
  let l := ParameterSetLoader.make_child sensor_nh "incremental_encoder" in
  let '(resolution, l) := ParameterSetLoader.param getParam_int "resolution" None l in
  let '(inverted_polarity, l) :=
    ParameterSetLoader.param getParam_bool "inverted_polarity" None l in
  incremental_encoder <- all_or_none_or_return l ;;
  if incremental_encoder : bool then
    resolution <- defined resolution ;;
    inverted_polarity <- defined inverted_polarity ;;
    VCS (SetIncEncoderParameter (Num.to_uint resolution) inverted_polarity) ;;
    if inverted_polarity : bool then
      r <- defined (Num.neg_int resolution) ;;
      modify_obj (set_encoder_resolution_ r)
    else modify_obj (set_encoder_resolution_ resolution)
  else ret tt.

(** Lines 340-351: the hall sensor. *)
Definition init_hall_sensor (sensor_nh : NodeHandle) : M unit :=
  let l := ParameterSetLoader.make_child sensor_nh "hall_sensor" in
  let '(inverted_polarity, l) :=
    ParameterSetLoader.param getParam_bool "inverted_polarity" None l in
  hall_sensor <- all_or_none_or_return l ;;
  if hall_sensor : bool then
    inverted_polarity <- defined inverted_polarity ;;
    VCS (SetHallSensorParameter inverted_polarity)
  else ret tt.

(** Lines 353-376: the SSI absolute encoder. *)
Definition init_ssi_absolute_encoder (sensor_nh : NodeHandle) : M unit :=
  let l := ParameterSetLoader.make_child sensor_nh "ssi_absolute_encoder" in
  let '(data_rate, l) := ParameterSetLoader.param getParam_int "data_rate" None l in
  let '(number_of_multiturn_bits, l) :=
    ParameterSetLoader.param getParam_int "number_of_multiturn_bits" None l in
  let '(number_of_singleturn_bits, l) :=
    ParameterSetLoader.param getParam_int "number_of_singleturn_bits" None l in
  let '(inverted_polarity, l) :=
    ParameterSetLoader.param getParam_bool "inverted_polarity" None l in
  ssi_absolute_encoder <- all_or_none_or_return l ;;
  if ssi_absolute_encoder : bool then
    data_rate <- defined data_rate ;;
    number_of_multiturn_bits <- defined number_of_multiturn_bits ;;
    number_of_singleturn_bits <- defined number_of_singleturn_bits ;;
    inverted_polarity <- defined inverted_polarity ;;
    VCS (SetSsiAbsEncoderParameter (Num.to_ushort data_rate)
           (Num.to_ushort number_of_multiturn_bits)
           (Num.to_ushort number_of_singleturn_bits) inverted_polarity) ;;
    r <- defined (Num.shl1 number_of_singleturn_bits) ;;
    if inverted_polarity : bool then modify_obj (set_encoder_resolution_ (- r))
    else modify_obj (set_encoder_resolution_ r)
  else ret tt.

(** Lines 313-382: the sensor. *)
Definition init_sensor : M unit :=
  ROS_LOG INFO "Configuring Sensor" ;;
  modify_obj (set_encoder_resolution_ 0) ;;
  e <- get_obj ;;
  let sensor_nh := child (config_nh_ e) "sensor" in
  VCS_FROM_SINGLE_PARAM_REQUIRED sensor_nh "type"
    (fun type => SetSensorType (Num.to_ushort type)) ;;
  init_incremental_encoder sensor_nh ;;
  init_hall_sensor sensor_nh ;;
  init_ssi_absolute_encoder sensor_nh ;;
  e <- get_obj ;;
  if encoder_resolution_ e =? 0 then ROS_LOG ERROR "No encoder resolution" ;; fail
  else ret tt.

(** Lines 384-395: the safety limits. *)
Definition init_safety : M unit :=
  ROS_LOG INFO "Configuring Safety" ;;
  e <- get_obj ;;
  let safety_nh := child (config_nh_ e) "safety" in
  VCS_FROM_SINGLE_PARAM_OPTIONAL safety_nh "max_following_error"
    (fun max_following_error => SetMaxFollowingError (Num.to_uint max_following_error)) ;;
  max_profile_velocity <-
    VCS_FROM_SINGLE_PARAM_OPTIONAL safety_nh "max_profile_velocity"
      (fun max_profile_velocity =>
         SetMaxProfileVelocity (Num.to_uint max_profile_velocity)) ;;
  VCS_FROM_SINGLE_PARAM_OPTIONAL safety_nh "max_acceleration"
    (fun max_acceleration => SetMaxAcceleration (Num.to_uint max_acceleration)) ;;
  match max_profile_velocity with
  | Some v => modify_obj (set_max_profile_velocity_ v)
  | None => modify_obj (set_max_profile_velocity_ (-1))
  end.

(** Lines 400-412 and 414-425: gain and feed forward of the position
    regulator. *)
Definition init_position_regulator_gain (position_regulator_nh : NodeHandle) : M unit :=
  let l := ParameterSetLoader.make_child position_regulator_nh "gain" in
  let '(p, l) := ParameterSetLoader.param getParam_int "p" None l in
  let '(i, l) := ParameterSetLoader.param getParam_int "i" None l in
  let '(d, l) := ParameterSetLoader.param getParam_int "d" None l in
  position_regulator_gain <- all_or_none_or_return l ;;
  if position_regulator_gain : bool then
    p <- defined p ;; i <- defined i ;; d <- defined d ;;
    VCS (SetPositionRegulatorGain (Num.to_ushort p) (Num.to_ushort i) (Num.to_ushort d))
  else ret tt.

Definition init_position_regulator_feed_forward (position_regulator_nh : NodeHandle)
    : M unit :=
  let l := ParameterSetLoader.make_child position_regulator_nh "feed_forward" in
  let '(velocity, l) := ParameterSetLoader.param getParam_int "velocity" None l in
  let '(acceleration, l) := ParameterSetLoader.param getParam_int "acceleration" None l in
  position_regulator_feed_forward <- all_or_none_or_return l ;;
  if position_regulator_feed_forward : bool then
    velocity <- defined velocity ;; acceleration <- defined acceleration ;;
    VCS (SetPositionRegulatorFeedForward (Num.to_ushort velocity)
           (Num.to_ushort acceleration))
  else ret tt.

(** Lines 397-426: the position regulator. *)
Definition init_position_regulator : M unit :=
  ROS_LOG INFO "Configuring Position Regulator" ;;
  e <- get_obj ;;
  let position_regulator_nh := child (config_nh_ e) "position_regulator" in
  init_position_regulator_gain position_regulator_nh ;;
  init_position_regulator_feed_forward position_regulator_nh.

(** Lines 431-442 and 444-455: gain and feed forward of the velocity
    regulator. *)
Definition init_velocity_regulator_gain (velocity_regulator_nh : NodeHandle) : M unit :=
  let l := ParameterSetLoader.make_child velocity_regulator_nh "gain" in
  let '(p, l) := ParameterSetLoader.param getParam_int "p" None l in
  let '(i, l) := ParameterSetLoader.param getParam_int "i" None l in
  velocity_regulator_gain <- all_or_none_or_return l ;;
  if velocity_regulator_gain : bool then
    p <- defined p ;; i <- defined i ;;
    VCS (SetVelocityRegulatorGain (Num.to_ushort p) (Num.to_ushort i))
  else ret tt.

Definition init_velocity_regulator_feed_forward (velocity_regulator_nh : NodeHandle)
    : M unit :=
  let l := ParameterSetLoader.make_child velocity_regulator_nh "feed_forward" in
  let '(velocity, l) := ParameterSetLoader.param getParam_int "velocity" None l in
  let '(acceleration, l) := ParameterSetLoader.param getParam_int "acceleration" None l in
  velocity_regulator_feed_forward <- all_or_none_or_return l ;;
  if velocity_regulator_feed_forward : bool then
    velocity <- defined velocity ;; acceleration <- defined acceleration ;;
    VCS (SetVelocityRegulatorFeedForward (Num.to_ushort velocity)
           (Num.to_ushort acceleration))
  else ret tt.

(** Lines 428-456: the velocity regulator. *)
Definition init_velocity_regulator : M unit :=
  ROS_LOG INFO "Configuring Velocity Regulator" ;;
  e <- get_obj ;;
  let velocity_regulator_nh := child (config_nh_ e) "velocity_regulator" in
  init_velocity_regulator_gain velocity_regulator_nh ;;
  init_velocity_regulator_feed_forward velocity_regulator_nh.

(** Lines 461-472: the gain of the current regulator. *)
Definition init_current_regulator_gain (current_regulator_nh : NodeHandle) : M unit :=
  let l := ParameterSetLoader.make_child current_regulator_nh "gain" in
  let '(p, l) := ParameterSetLoader.param getParam_int "p" None l in
  let '(i, l) := ParameterSetLoader.param getParam_int "i" None l in
  current_regulator_gain <- all_or_none_or_return l ;;
  if current_regulator_gain : bool then
    p <- defined p ;; i <- defined i ;;
    VCS (SetCurrentRegulatorGain (Num.to_ushort p) (Num.to_ushort i))
  else ret tt.

(** Lines 458-473: the current regulator. *)
Definition init_current_regulator : M unit :=
  ROS_LOG INFO "Configuring Current Regulator" ;;
  e <- get_obj ;;
  let current_regulator_nh := child (config_nh_ e) "current_regulator" in
  init_current_regulator_gain current_regulator_nh.

(** Lines 478-490 and 492-506: the position profile and its window. *)
Definition init_position_profile_values (position_profile_nh : NodeHandle) : M unit :=
  let l := ParameterSetLoader.make position_profile_nh in
  let '(velocity, l) := ParameterSetLoader.param getParam_int "velocity" None l in
  let '(acceleration, l) := ParameterSetLoader.param getParam_int "acceleration" None l in
  let '(deceleration, l) := ParameterSetLoader.param getParam_int "deceleration" None l in
  position_profile <- all_or_none_or_return l ;;
  if position_profile : bool then
    velocity <- defined velocity ;; acceleration <- defined acceleration ;;
    deceleration <- defined deceleration ;;
    VCS (SetPositionProfile (Num.to_uint velocity) (Num.to_uint acceleration)
           (Num.to_uint deceleration))
  else ret tt.

Definition init_position_profile_window (position_profile_nh : NodeHandle) : M unit :=
  let l := ParameterSetLoader.make_child position_profile_nh "window" in
  let '(window, l) := ParameterSetLoader.param getParam_int "window" None l in
  let '(time, l) := ParameterSetLoader.param getParam_double "time" None l in
  position_profile_window <- all_or_none_or_return l ;;
  if position_profile_window : bool then
    window <- defined window ;; time <- defined time ;;
    ms <- defined (Num.to_int (1000 * time)%float) ;;
    VCS (EnablePositionWindow (Num.to_uint window) (Num.to_ushort ms))
  else ret tt.

(** Lines 475-507: the position profile. *)
Definition init_position_profile : M unit :=
  ROS_LOG INFO "Configuring Position Profile" ;;
  e <- get_obj ;;
  let position_profile_nh := child (config_nh_ e) "position_profile" in
  init_position_profile_values position_profile_nh ;;
  init_position_profile_window position_profile_nh.

(** Lines 512-523 and 525-539: the velocity profile and its window. *)
Definition init_velocity_profile_values (velocity_profile_nh : NodeHandle) : M unit :=
  let l := ParameterSetLoader.make velocity_profile_nh in
  let '(acceleration, l) := ParameterSetLoader.param getParam_int "acceleration" None l in
  let '(deceleration, l) := ParameterSetLoader.param getParam_int "deceleration" None l in
  velocity_profile <- all_or_none_or_return l ;;
  if velocity_profile : bool then
    acceleration <- defined acceleration ;; deceleration <- defined deceleration ;;
    VCS (SetVelocityProfile (Num.to_uint acceleration) (Num.to_uint deceleration))
  else ret tt.

Definition init_velocity_profile_window (velocity_profile_nh : NodeHandle) : M unit :=
  let l := ParameterSetLoader.make_child velocity_profile_nh "window" in
  let '(window, l) := ParameterSetLoader.param getParam_int "window" None l in
  let '(time, l) := ParameterSetLoader.param getParam_double "time" None l in
  velocity_profile_window <- all_or_none_or_return l ;;
  if velocity_profile_window : bool then
    window <- defined window ;; time <- defined time ;;
    ms <- defined (Num.to_int (1000 * time)%float) ;;
    VCS (EnableVelocityWindow (Num.to_uint window) (Num.to_ushort ms))
  else ret tt.

(** Lines 509-540: the velocity profile. *)
Definition init_velocity_profile : M unit :=
  ROS_LOG INFO "Configuring Velocity Profile" ;;
  e <- get_obj ;;
  let velocity_profile_nh := child (config_nh_ e) "velocity_profile" in
  init_velocity_profile_values velocity_profile_nh ;;
  init_velocity_profile_window velocity_profile_nh.

(** Lines 547-553: the loop over the error codes, [n] iterations from [i]. *)
Fixpoint init_error_codes (n : nat) (i : Z) : M unit :=
  match n with
  | O => ret tt
  | S n' =>
      r <- call (GetDeviceErrorCode i) ;;
      match r with
      | Failure _ _ => fail
      | Success error_number =>
          ROS_LOG WARN ("EPOS Device Error: " +:+ HexString.of_Z error_number) ;;
          init_error_codes n' (i + 1)
      end
  end.

(** Lines 542-587: the faults, and the enable state. *)
Definition init_faults_and_enable : M unit :=
  ROS_LOG INFO "Querying Faults" ;;
  r <- call GetNbOfDeviceError ;;
  match r with
  | Failure _ _ => fail
  | Success num_errors =>
      init_error_codes (Z.to_nat num_errors) 1 ;;
      e <- get_obj ;;
      let clear_faults := param_or getParam_bool (config_nh_ e) "clear_faults" false in
      (if num_errors >? 0 then
         if clear_faults then
           ROS_LOG INFO "Clearing faults" ;;
           r <- call ClearFault ;;
           if negb (succeeded r) then ROS_LOG ERROR "Could not clear faults" ;; fail
           else ROS_LOG INFO "Cleared faults"
         else ROS_LOG ERROR "Not clearing faults, but faults exist" ;; fail
       else ret tt) ;;
      r <- call GetNbOfDeviceError ;;
      match r with
      | Failure _ _ => fail
      | Success num_errors =>
          if num_errors >? 0 then ROS_LOG ERROR "Not all faults were cleared" ;; fail
          else
            modify_obj (set_halt_velocity_
                          (param_or getParam_bool (config_nh_ e) "halt_velocity" false)) ;;
            ROS_LOG INFO "Enabling Motor" ;;
            r <- call SetEnableState ;;
            if negb (succeeded r) then fail
            else modify_obj (set_has_init_ true)
      end
  end.

(** Lines 187-540: everything before the fault query. *)
Definition init_configure (fuel : nat) : M unit :=
  init_connect ;;
  init_initial_mode ;;
  init_fault_reaction fuel ;;
  init_torque_constant ;;
  init_motor fuel ;;
  init_sensor ;;
  init_safety ;;
  init_position_regulator ;;
  init_velocity_regulator ;;
  init_current_regulator ;;
  init_position_profile ;;
  init_velocity_profile.

(** [init()]: [Ret tt] is [return true], [Fail] is [return false]. *)
Definition init (fuel : nat) : M unit :=
  init_configure fuel ;;
  init_faults_and_enable.

(** *** doSwitch (lines 589-603) *)

Fixpoint doSwitch (start_list stop_list : list ControllerInfo) : M unit :=
  match start_list with
  | [] => ret tt
  | starting_controller :: rest =>
      e <- get_obj ;;
      match operation_mode_map_ e !! ci_name starting_controller with
      | Some mode_to_switch => call (SetOperationMode mode_to_switch) ;; ret tt
      | None => ret tt
      end ;;
      doSwitch rest stop_list
  end.

(** *** read (lines 605-649) *)

Definition read (fr : ReadFrame) : M unit :=
  e <- get_obj ;;
  if negb (has_init_ e) then ret tt
  else
    r <- call (GetObject 0x6041 0x00 2) ;;
    modify_obj (set_statusword_ (stored r (statusword_ e))) ;;
    r <- call GetPositionIs ;;
    let position_raw := stored r (position_raw0 fr) in
    r <- call GetVelocityIs ;;
    let velocity_raw := stored r (velocity_raw0 fr) in
    r <- call GetCurrentIs ;;
    let current_raw := stored r (current_raw0 fr) in
    (if rw_ros_units_ e then
       modify_obj (set_position_
         (Num.of_int position_raw * Num.M_PI
          / (2 * Num.of_int (encoder_resolution_ e)))%float) ;;
       modify_obj (set_velocity_ (Num.of_int velocity_raw * Num.M_PI / 30)%float) ;;
       let current := (Num.of_int current_raw / 1000)%float in
       modify_obj (set_current_ current) ;;
       modify_obj (set_effort_ (currentToTorque e current / 1000)%float)
     else
       modify_obj (set_position_ (Num.of_int position_raw)) ;;
       modify_obj (set_velocity_ (Num.of_int velocity_raw)) ;;
       let current := (Num.of_int current_raw / 1000)%float in
       modify_obj (set_current_ current) ;;
       modify_obj (set_effort_ (currentToTorque e current))) ;;
    if negb (bool_decide (power_supply_name_ e = "")) then
      r <- call (GetObject 0x2200 0x01 2) ;;
      let voltage10x := stored r 0 in
      modify_obj (fun e' =>
        let b := power_supply_state_ e' in
        set_power_supply_state_
          {| voltage := Num.to_float (Num.of_int voltage10x / 10)%float;
             present := voltage10x >? 0;
             bs_current := bs_current b; charge := charge b; capacity := capacity b;
             design_capacity := design_capacity b; percentage := percentage b;
             power_supply_status := power_supply_status b;
             power_supply_health := power_supply_health b;
             power_supply_technology := power_supply_technology b;
             location := location b; serial_number := serial_number b |} e')
    else ret tt.

(** *** write (lines 651-704) *)

Definition write : M unit :=
  e <- get_obj ;;
  if negb (has_init_ e) then ret tt
  else
    match operation_mode_ e with
    | Some PROFILE_VELOCITY_MODE =>
        if Num.isnan (velocity_cmd_ e) then ret tt
        else
          cmd <- defined (if rw_ros_units_ e
                          then Num.to_int (velocity_cmd_ e * 30 / Num.M_PI)%float
                          else Num.to_int (velocity_cmd_ e)) ;;
          let cmd :=
            if max_profile_velocity_ e >=? 0 then
              let cmd := if cmd <? - max_profile_velocity_ e
                         then - max_profile_velocity_ e else cmd in
              if cmd >? max_profile_velocity_ e then max_profile_velocity_ e else cmd
            else cmd in
          if (cmd =? 0) && halt_velocity_ e
          then call HaltVelocityMovement ;; ret tt
          else call (MoveWithVelocity cmd) ;; ret tt
    | Some PROFILE_POSITION_MODE =>
        if Num.isnan (position_cmd_ e) then ret tt
        else
          cmd <- defined (if rw_ros_units_ e
                          then Num.to_int (position_cmd_ e * 2
                                           * Num.of_int (encoder_resolution_ e)
                                           / Num.M_PI)%float
                          else Num.to_int (position_cmd_ e)) ;;
          call (MoveToPosition cmd true true) ;; ret tt
    | Some CURRENT_MODE =>
        if Num.isnan (torque_cmd_ e) then ret tt
        else
          cmd <- defined (if rw_ros_units_ e
                          then Num.to_int (torqueToCurrent e (torque_cmd_ e) * 1000)%float
                          else Num.to_int (torqueToCurrent e (torque_cmd_ e))) ;;
          call (SetCurrentMust (Num.to_short cmd)) ;; ret tt
    | None => ret tt
    end.

(** *** buildMotorStatus (lines 719-786) *)

Definition read_error_failed (what : string) (error_code : Z)
    (stat : DiagnosticStatus.t) : DiagnosticStatus.t :=
  match GetErrorInfo error_code with
  | Some error_str =>
      DiagnosticStatus.mergeSummary DiagnosticStatus.ERROR
        (what +:+ ": " +:+ error_str) stat
  | None => DiagnosticStatus.mergeSummary DiagnosticStatus.ERROR what stat
  end.

(** Lines 753-771: the loop over the error codes, [n] iterations from [i]. *)
Fixpoint status_error_codes (n : nat) (i : Z) (stat : DiagnosticStatus.t)
    : M DiagnosticStatus.t :=
  match n with
  | O => ret stat
  | S n' =>
      r <- call (GetDeviceErrorCode i) ;;
      let stat :=
        match r with
        | Success error_number =>
            DiagnosticStatus.mergeSummary DiagnosticStatus.ERROR
              ("EPOS Device Error: " +:+ HexString.of_Z error_number) stat
        | Failure _ error_code =>
            read_error_failed "Could not read device error" error_code stat
        end in
      status_error_codes n' (i + 1) stat
  end.

Definition buildMotorStatus (stat : DiagnosticStatus.t) : M DiagnosticStatus.t :=
  e <- get_obj ;;
  let stat := DiagnosticStatus.add "Actuator Name" (actuator_name_ e) stat in
  if has_init_ e then
    let sw := statusword_ e in
    let enabled :=
      truthy (STATUSWORD READY_TO_SWITCH_ON sw) && truthy (STATUSWORD SWITCHED_ON sw)
      && truthy (STATUSWORD ENABLE sw) in
    let stat :=
      if enabled then DiagnosticStatus.summary DiagnosticStatus.OK "Enabled" stat
      else DiagnosticStatus.summary DiagnosticStatus.OK "Disabled" stat in
    let stat :=
      if negb (truthy (STATUSWORD QUICKSTOP sw)) && enabled
      then DiagnosticStatus.mergeSummary DiagnosticStatus.WARN "Quickstop" stat
      else stat in
    let stat :=
      if truthy (STATUSWORD WARNING sw)
      then DiagnosticStatus.mergeSummary DiagnosticStatus.WARN "Warning" stat
      else stat in
    let stat :=
      if truthy (STATUSWORD FAULT sw)
      then DiagnosticStatus.mergeSummary DiagnosticStatus.ERROR "Fault" stat
      else stat in
    let stat := DiagnosticStatus.add_bool "Enabled" (truthy (STATUSWORD ENABLE sw)) stat in
    let stat := DiagnosticStatus.add_bool "Fault" (truthy (STATUSWORD FAULT sw)) stat in
    let stat :=
      DiagnosticStatus.add_bool "Voltage Enabled"
        (truthy (STATUSWORD VOLTAGE_ENABLED sw)) stat in
    let stat :=
      DiagnosticStatus.add_bool "Quickstop" (truthy (STATUSWORD QUICKSTOP sw)) stat in
    let stat := DiagnosticStatus.add_bool "Warning" (truthy (STATUSWORD WARNING sw)) stat in
    r <- call GetNbOfDeviceError ;;
    match r with
    | Success num_errors => status_error_codes (Z.to_nat num_errors) 1 stat
    | Failure _ error_code =>
        ret (read_error_failed "Could not read device errors" error_code stat)
    end
  else
    ret (DiagnosticStatus.summary DiagnosticStatus.ERROR "EPOS not initialized" stat).

End Driver.

Arguments Sys D : clear implicits.

(** ** The remaining member functions *)

Section DriverRest.

Context {D : Type}.
Variable vcs : Call -> D -> Reply * D.

(** Two formatting functions of the libraries: the text
    [boost::lexical_cast< std::string >] gives for a [double], and the text
    the conversion [%f] of [mergeSummaryf] gives. *)
Variable lexical_cast : float -> string.
Variable format_f : float -> string.

(** *** The destructor (lines 112-116) *)

Definition Epos_dtor : @M (Sys D) unit :=
  e <- get_obj ;;
  match node_handle_ e with
  | Some _ => call vcs SetDisableState ;; ret tt
  | None => ret tt
  end.

(** *** buildMotorOutputStatus (lines 788-830)

    [std::abs] is the overload for [double]; the comparisons are those of
    IEEE 754, false on NaN. *)
Definition buildMotorOutputStatus (stat : DiagnosticStatus.t) : @M (Sys D) DiagnosticStatus.t :=
  e <- get_obj ;;
  let '(operation_mode_str, stat) :=
    match operation_mode_ e with
    | Some PROFILE_POSITION_MODE =>
        ("Profile Position Mode",
         DiagnosticStatus.add "Commanded Position"
           (lexical_cast (position_cmd_ e) +:+ " rotations") stat)
    | Some PROFILE_VELOCITY_MODE =>
        ("Profile Velocity Mode",
         DiagnosticStatus.add "Commanded Velocity"
           (lexical_cast (velocity_cmd_ e) +:+ " rpm") stat)
    | Some CURRENT_MODE =>
        ("Current Mode",
         DiagnosticStatus.add "Commanded Current"
           (lexical_cast (torqueToCurrent e (torque_cmd_ e)) +:+ " A")
           (DiagnosticStatus.add "Commanded Torque"
              (lexical_cast (torque_cmd_ e) +:+ " Nm") stat))
    | None => ("Unknown Mode", stat)
    end in
  let stat := DiagnosticStatus.add "Operation Mode" operation_mode_str stat in
  let stat :=
    DiagnosticStatus.add "Nominal Current" (lexical_cast (nominal_current_ e) +:+ " A") stat in
  let stat :=
    DiagnosticStatus.add "Max Current" (lexical_cast (max_current_ e) +:+ " A") stat in
  if has_init_ e then
    let sw := statusword_ e in
    let stat :=
      DiagnosticStatus.add "Position" (lexical_cast (position_ e) +:+ " rotations") stat in
    let stat := DiagnosticStatus.add "Velocity" (lexical_cast (velocity_ e) +:+ " rpm") stat in
    let stat := DiagnosticStatus.add "Torque" (lexical_cast (effort_ e) +:+ " Nm") stat in
    let stat := DiagnosticStatus.add "Current" (lexical_cast (current_ e) +:+ " A") stat in
    let stat :=
      DiagnosticStatus.add_bool "Target Reached" (truthy (STATUSWORD TARGET_REACHED sw)) stat in
    let stat :=
      DiagnosticStatus.add_bool "Current Limit Active"
        (truthy (STATUSWORD CURRENT_LIMIT_ACTIVE sw)) stat in
    let stat :=
      DiagnosticStatus.summary DiagnosticStatus.OK
        ("EPOS operating in " +:+ operation_mode_str) stat in
    let stat :=
      if truthy (STATUSWORD CURRENT_LIMIT_ACTIVE sw)
      then DiagnosticStatus.mergeSummary DiagnosticStatus.WARN "Current Limit Active" stat
      else stat in
    let stat :=
      if PrimFloat.ltb 0 (nominal_current_ e)
         && PrimFloat.ltb (nominal_current_ e) (PrimFloat.abs (current_ e))
      then DiagnosticStatus.mergeSummary DiagnosticStatus.WARN
             ("Nominal Current Exceeded (Current: " +:+ format_f (current_ e) +:+ " A)") stat
      else stat in
    ret stat
  else
    ret (DiagnosticStatus.summary DiagnosticStatus.ERROR "EPOS not initialized" stat).

End DriverRest.

(** ** A stub transport and stub parameter servers

    Concrete collaborators on which the definitions above are evaluated: a
    device that answers from fixed raw values, keeps a list of pending error
    codes, and fails the calls named in [broken]. *)

Module Stub.

Record Device := {
  faults : list Z;
  clearable : bool;
  broken : list string;
  silent : bool;
  raw_statusword : Z;
  raw_position : Z;
  raw_velocity : Z;
  raw_current : Z;
  raw_voltage : Z
}.

Definition with_faults (fs : list Z) (d : Device) : Device :=
  {| faults := fs; clearable := clearable d; broken := broken d; silent := silent d;
     raw_statusword := raw_statusword d; raw_position := raw_position d;
     raw_velocity := raw_velocity d; raw_current := raw_current d;
     raw_voltage := raw_voltage d |}.

(** A failing call leaves its output argument untouched when the device is
    [silent], and stores 0 in it otherwise. *)
Definition vcs (c : Call) (d : Device) : Reply * Device :=
  if bool_decide (func_name c ∈ broken d)
  then (Failure (if silent d then None else Some 0) 0x1000, d)
  else
    match c with
    | CreateNodeHandle _ _ _ _ => (Success 1, d)
    | GetNbOfDeviceError => (Success (Z.of_nat (length (faults d))), d)
    | GetDeviceErrorCode i => (Success (nth (Z.to_nat (i - 1)) (faults d) 0), d)
    | ClearFault => (Success 0, if clearable d then with_faults [] d else d)
    | GetObject index _ _ =>
        (Success (if index =? 0x6041 then raw_statusword d else raw_voltage d), d)
    | GetPositionIs => (Success (raw_position d), d)
    | GetVelocityIs => (Success (raw_velocity d), d)
    | GetCurrentIs => (Success (raw_current d), d)
    | _ => (Success 0, d)
    end.

Definition healthy : Device :=
  {| faults := []; clearable := true; broken := []; silent := true;
     raw_statusword := 0x0237; raw_position := 4000; raw_velocity := 60;
     raw_current := 500; raw_voltage := 240 |}.

Definition faulty (can_clear : bool) : Device :=
  {| faults := [0x7320; 0x8611]; clearable := can_clear; broken := []; silent := true;
     raw_statusword := 0x0008; raw_position := 0; raw_velocity := 0;
     raw_current := 0; raw_voltage := 240 |}.

Definition breaking (names : list string) (quiet : bool) (d : Device) : Device :=
  {| faults := faults d; clearable := clearable d; broken := names; silent := quiet;
     raw_statusword := raw_statusword d; raw_position := raw_position d;
     raw_velocity := raw_velocity d; raw_current := raw_current d;
     raw_voltage := raw_voltage d |}.

(** Parameter values, and the server that answers from a list of them. A
    lookup of a [double] accepts an integer value. *)
Inductive Value :=
  | VBool (b : bool)
  | VInt (z : Z)
  | VDouble (d : float)
  | VString (s : string)
  | VMap (m : list (string * string)).

Fixpoint lookup_param (k : string) (l : list (string * Value)) : option Value :=
  match l with
  | [] => None
  | (k', v) :: l' => if bool_decide (k = k') then Some v else lookup_param k l'
  end.

Definition server_of (l : list (string * Value)) : ParamServer :=
  {| getParam_bool k :=
       match lookup_param k l with Some (VBool b) => Some b | _ => None end;
     getParam_int k :=
       match lookup_param k l with Some (VInt z) => Some z | _ => None end;
     getParam_double k :=
       match lookup_param k l with
       | Some (VDouble d) => Some d
       | Some (VInt z) => Some (Num.of_int z)
       | _ => None
       end;
     getParam_string k :=
       match lookup_param k l with Some (VString s) => Some s | _ => None end;
     getParam_map k :=
       match lookup_param k l with
       | Some (VMap m) => Some (list_to_map m)
       | _ => None
       end |}.

Definition nh_of (l : list (string * Value)) : NodeHandle :=
  {| server := server_of l; getNamespace := "/epos" |}.

(** The smallest configuration [init] accepts, with a mode map. *)
Definition base_params : list (string * Value) :=
  [ ("/epos/actuator_name", VString "wheel");
    ("/epos/serial_number", VString "602083000001");
    ("/epos/operation_mode_map",
       VMap [("", "profile_position"); ("velocity_controller", "profile_velocity");
             ("effort_controller", "current")]);
    ("/epos/motor/type", VInt 10);
    ("/epos/sensor/type", VInt 1);
    ("/epos/sensor/incremental_encoder/resolution", VInt 1000);
    ("/epos/sensor/incremental_encoder/inverted_polarity", VBool false) ].

Definition SerialNumberFromHex (s : string) : option Z :=
  if bool_decide (s = "") then None else Some (HexString.to_Z ("0x" +:+ s)).

Definition GetErrorInfo (error_code : Z) : option string :=
  if error_code =? 0x1000 then Some "communication error" else None.

(** The storage an object is constructed in. [operation_mode_] is not assigned
    anywhere in [epos.cpp]: the driver works with the mode the storage holds. *)
Definition raw_memory (mode : option OperationMode) : Epos :=
  {| name_ := ""; config_nh_ := nh_of []; valid_ := false; has_init_ := true;
     actuator_name_ := ""; serial_number_ := 0; operation_mode_map_ := ∅;
     operation_mode_ := mode; rw_ros_units_ := false;
     node_handle_ := None; position_ := 0%float; velocity_ := 0%float;
     effort_ := 0%float; current_ := 0%float; statusword_ := 0;
     position_cmd_ := 0%float; velocity_cmd_ := 0%float; torque_cmd_ := 0%float;
     torque_constant_ := 0%float; nominal_current_ := 0%float;
     max_current_ := 0%float; encoder_resolution_ := 0;
     max_profile_velocity_ := 0; halt_velocity_ := false;
     power_supply_name_ := ""; power_supply_state_ := BatteryState_default |}.

(** The freshly constructed driver over a list of parameters; the storage
    itself for a configuration the constructor aborts on. *)
Definition driver (mode : option OperationMode) (params : list (string * Value)) : Epos :=
  default (raw_memory mode)
    (Epos_ctor SerialNumberFromHex "epos" (nh_of params) (raw_memory mode)).

Definition boot (mode : option OperationMode) (params : list (string * Value))
    (d : Device) : Sys Device :=
  {| obj := driver mode params; dev := d; calls := []; log := [] |}.

(** The system after a bring-up on these parameters and this device. *)
Definition brought_up (mode : option OperationMode) (params : list (string * Value))
    (d : Device) : Sys Device :=
  snd (init vcs 0 (boot mode params d)).

(** The host framework stores commands, and the device changes, between two
    cycles. *)
Definition host_writes (position_cmd velocity_cmd torque_cmd : float)
    (s : Sys Device) : Sys Device :=
  {| obj := set_position_cmd_ position_cmd
              (set_velocity_cmd_ velocity_cmd (set_torque_cmd_ torque_cmd (obj s)));
     dev := dev s; calls := calls s; log := log s |}.

Definition device_becomes (d : Device) (s : Sys Device) : Sys Device :=
  {| obj := obj s; dev := d; calls := calls s; log := log s |}.

(** Parameter lists of the examples. *)
Definition physical_units : list (string * Value) :=
  ("/epos/rw_ros_units", VBool true) :: base_params.

Definition limited_velocity : list (string * Value) :=
  ("/epos/safety/max_profile_velocity", VInt 10) :: physical_units.

Definition with_torque_constant : list (string * Value) :=
  ("/epos/torque_constant", VDouble 2%float) :: physical_units.

Definition partial_dc_motor : list (string * Value) :=
  ("/epos/motor/dc_motor/nominal_current", VDouble 1.5%float) :: base_params.

Definition clearing_faults : list (string * Value) :=
  ("/epos/clear_faults", VBool true) :: base_params.

(** The calls of [s'] that are not yet in [s]. *)
Definition new_calls (s s' : Sys Device) : list (Call * Reply) :=
  drop (length (calls s)) (calls s').

End Stub.

(** * Vocabulary of the properties *)

Module Groups.
Import ParameterSetLoader.

(** The names of the attributes that satisfy [f], in order. *)
Definition names_where (f : Attr -> bool) (attrs : list Attr) : list string :=
  map fst (List.filter f attrs).

(** The parameter server does not have the attribute. *)
Definition absent (nh : NodeHandle) (a : Attr) : bool := negb (present nh a).

(** Some attribute of the group is present and some other is not. *)
Definition partial (nh : NodeHandle) (attrs : list Attr) : bool :=
  existsb (present nh) attrs && existsb (absent nh) attrs.

(** An attribute of a group: its name and the lookup of its C++ type. *)
Definition attr {T : Type} (name : string) (get : ParamServer -> string -> option T)
    : Attr :=
  (name, has get).

(** The number of attributes of a group that the parameter server has. *)
Definition count_present (nh : NodeHandle) (attrs : list Attr) : nat :=
  length (List.filter (present nh) attrs).

(** A parameter group of [init]: the node handle its loader is built on, from
    the handle of the driver, and its attributes in the order of the [param]
    calls. *)
Record Group := {
  g_nh : NodeHandle -> NodeHandle;
  g_attrs : list Attr
}.

Definition dc_motor_group : Group :=
  {| g_nh nh := child (child nh "motor") "dc_motor";
     g_attrs :=
       [ attr "nominal_current" getParam_double;
         attr "max_output_current" getParam_double;
         attr "thermal_time_constant" getParam_double ] |}.

Definition ec_motor_group : Group :=
  {| g_nh nh := child (child nh "motor") "ec_motor";
     g_attrs :=
       [ attr "nominal_current" getParam_double;
         attr "max_output_current" getParam_double;
         attr "thermal_time_constant" getParam_double;
         attr "number_of_pole_pairs" getParam_int ] |}.

Definition incremental_encoder_group : Group :=
  {| g_nh nh := child (child nh "sensor") "incremental_encoder";
     g_attrs :=
       [ attr "resolution" getParam_int;
         attr "inverted_polarity" getParam_bool ] |}.

Definition hall_sensor_group : Group :=
  {| g_nh nh := child (child nh "sensor") "hall_sensor";
     g_attrs :=
       [ attr "inverted_polarity" getParam_bool ] |}.

Definition ssi_absolute_encoder_group : Group :=
  {| g_nh nh := child (child nh "sensor") "ssi_absolute_encoder";
     g_attrs :=
       [ attr "data_rate" getParam_int;
         attr "number_of_multiturn_bits" getParam_int;
         attr "number_of_singleturn_bits" getParam_int;
         attr "inverted_polarity" getParam_bool ] |}.

Definition position_regulator_gain_group : Group :=
  {| g_nh nh := child (child nh "position_regulator") "gain";
     g_attrs :=
       [ attr "p" getParam_int;
         attr "i" getParam_int;
         attr "d" getParam_int ] |}.

Definition position_regulator_feed_forward_group : Group :=
  {| g_nh nh := child (child nh "position_regulator") "feed_forward";
     g_attrs :=
       [ attr "velocity" getParam_int;
         attr "acceleration" getParam_int ] |}.

Definition velocity_regulator_gain_group : Group :=
  {| g_nh nh := child (child nh "velocity_regulator") "gain";
     g_attrs :=
       [ attr "p" getParam_int;
         attr "i" getParam_int ] |}.

Definition velocity_regulator_feed_forward_group : Group :=
  {| g_nh nh := child (child nh "velocity_regulator") "feed_forward";
     g_attrs :=
       [ attr "velocity" getParam_int;
         attr "acceleration" getParam_int ] |}.

Definition current_regulator_gain_group : Group :=
  {| g_nh nh := child (child nh "current_regulator") "gain";
     g_attrs :=
       [ attr "p" getParam_int;
         attr "i" getParam_int ] |}.

Definition position_profile_group : Group :=
  {| g_nh nh := child nh "position_profile";
     g_attrs :=
       [ attr "velocity" getParam_int;
         attr "acceleration" getParam_int;
         attr "deceleration" getParam_int ] |}.

Definition position_profile_window_group : Group :=
  {| g_nh nh := child (child nh "position_profile") "window";
     g_attrs :=
       [ attr "window" getParam_int;
         attr "time" getParam_double ] |}.

Definition velocity_profile_group : Group :=
  {| g_nh nh := child nh "velocity_profile";
     g_attrs :=
       [ attr "acceleration" getParam_int;
         attr "deceleration" getParam_int ] |}.

Definition velocity_profile_window_group : Group :=
  {| g_nh nh := child (child nh "velocity_profile") "window";
     g_attrs :=
       [ attr "window" getParam_int;
         attr "time" getParam_double ] |}.

(** The fourteen groups of [init], in the order of the source. *)
Definition parameter_groups : list Group :=
  [ dc_motor_group;
    ec_motor_group;
    incremental_encoder_group;
    hall_sensor_group;
    ssi_absolute_encoder_group;
    position_regulator_gain_group;
    position_regulator_feed_forward_group;
    velocity_regulator_gain_group;
    velocity_regulator_feed_forward_group;
    current_regulator_gain_group;
    position_profile_group;
    position_profile_window_group;
    velocity_profile_group;
    velocity_profile_window_group ].

(** Some, but not all, attributes of the group are present. *)
Definition group_partial (config_nh : NodeHandle) (g : Group) : bool :=
  partial (g_nh g config_nh) (g_attrs g).

End Groups.

(** One step of the cyclic loop of the host. *)
Inductive CycleOp :=
  | DoRead (fr : ReadFrame)
  | DoWrite.

Section Vocabulary.
Context {D : Type}.
Variable vcs : Call -> D -> Reply * D.

(** Every run of [m] relates the state before to the state after by [R],
    however it ends. *)
Definition steps {A : Type} (R : Sys D -> Sys D -> Prop) (m : @M (Sys D) A) : Prop :=
  forall s, R s (snd (m s)).

(** The member read by [proj] is not changed. *)
Definition same {B : Type} (proj : Epos -> B) : Sys D -> Sys D -> Prop :=
  fun s s' => proj (obj s') = proj (obj s).

(** The calls issued are appended to the history, and all satisfy [P]. *)
Definition emits (P : Call -> bool) : Sys D -> Sys D -> Prop :=
  fun s s' => exists t, calls s' = calls s ++ t /\ Forall (fun cr => P (fst cr) = true) t.

(** The system after one call whose answer the driver ignores. *)
Definition after_call (c : Call) (s : Sys D) : Sys D :=
  {| obj := obj s; dev := (vcs c (dev s)).2;
     calls := calls s ++ [(c, typed c (vcs c (dev s)).1)]; log := log s |}.

(** An initialized driver with a node handle. *)
Definition operational (s : Sys D) : Prop :=
  has_init_ (obj s) = true /\ is_Some (node_handle_ (obj s)).

(** A sequence of cyclic reads and writes. *)
Fixpoint run_cycles (ops : list CycleOp) : @M (Sys D) unit :=
  match ops with
  | [] => ret tt
  | DoRead fr :: ops' => read vcs fr ;; run_cycles ops'
  | DoWrite :: ops' => write vcs ;; run_cycles ops'
  end.
End Vocabulary.

(** The calls of a history, without the answers. *)
Definition issued (t : list (Call * Reply)) : list Call := map fst t.

(** Calls of the configuration blocks of [init]. *)
Definition is_config_call (c : Call) : bool :=
  match c with
  | SetEnableState | GetNbOfDeviceError | GetDeviceErrorCode _ | ClearFault
  | GetObject _ _ _ | GetPositionIs | GetVelocityIs | GetCurrentIs
  | MoveWithVelocity _ | HaltVelocityMovement | MoveToPosition _ _ _
  | SetCurrentMust _ => false
  | _ => true
  end.

(** A query of one error code. *)
Definition is_code_query (cr : Call * Reply) : Prop :=
  exists i, fst cr = GetDeviceErrorCode i.

(** The [ClearFault] call of a run in which [n] faults were counted: there is
    one, and it succeeded, exactly when [n] is positive. *)
Definition cleared (n : Z) (k : list (Call * Reply)) : Prop :=
  if n >? 0 then exists y, k = [(ClearFault, Success y)] else k = [].

(** The runs of the fault block: the way [init] ends, and the calls issued.
    [cf] is the [clear_faults] flag. *)
Inductive FaultRun (cf : bool) : Res unit -> list (Call * Reply) -> Prop :=
  | FR_query_failed o e :
      FaultRun cf Fail [(GetNbOfDeviceError, Failure o e)]
  | FR_code_failed n codes i o e :
      Forall is_code_query codes ->
      FaultRun cf Fail
        ((GetNbOfDeviceError, Success n) :: codes ++ [(GetDeviceErrorCode i, Failure o e)])
  | FR_not_clearing n codes :
      0 < n -> cf = false -> Forall is_code_query codes ->
      FaultRun cf Fail ((GetNbOfDeviceError, Success n) :: codes)
  | FR_clear_failed n codes o e :
      0 < n -> cf = true -> Forall is_code_query codes ->
      FaultRun cf Fail
        ((GetNbOfDeviceError, Success n) :: codes ++ [(ClearFault, Failure o e)])
  | FR_requery_failed n codes k o e :
      (0 < n -> cf = true) -> Forall is_code_query codes -> cleared n k ->
      FaultRun cf Fail
        ((GetNbOfDeviceError, Success n) :: codes ++ k
         ++ [(GetNbOfDeviceError, Failure o e)])
  | FR_not_cleared n codes k m :
      (0 < n -> cf = true) -> Forall is_code_query codes -> cleared n k -> 0 < m ->
      FaultRun cf Fail
        ((GetNbOfDeviceError, Success n) :: codes ++ k
         ++ [(GetNbOfDeviceError, Success m)])
  | FR_enable_failed n codes k o e :
      (0 < n -> cf = true) -> Forall is_code_query codes -> cleared n k ->
      FaultRun cf Fail
        ((GetNbOfDeviceError, Success n) :: codes ++ k
         ++ [(GetNbOfDeviceError, Success 0); (SetEnableState, Failure o e)])
  | FR_enabled n codes k x :
      (0 < n -> cf = true) -> Forall is_code_query codes -> cleared n k ->
      FaultRun cf (Ret tt)
        ((GetNbOfDeviceError, Success n) :: codes ++ k
         ++ [(GetNbOfDeviceError, Success 0); (SetEnableState, Success x)]).

(** The calls of one [read()], in order. *)
Definition read_calls (e : Epos) : list Call :=
  [GetObject 0x6041 0x00 2; GetPositionIs; GetVelocityIs; GetCurrentIs]
  ++ (if bool_decide (power_supply_name_ e = "") then [] else [GetObject 0x2200 0x01 2]).

(** The calls of a history that are not calls of the configuration blocks:
    those of the fault block, in a history of [init]. *)
Definition fault_block_calls (t : list (Call * Reply)) : list (Call * Reply) :=
  List.filter (fun cr => negb (is_config_call (fst cr))) t.

(** ** Scenarios on the stub transport *)

Module Scenario.
Import Stub.

Definition fr0 : ReadFrame := {| position_raw0 := 0; velocity_raw0 := 0; current_raw0 := 0 |}.

(** The report object as the diagnostic updater hands it to a task. *)
Definition fresh_report : DiagnosticStatus.t :=
  {| DiagnosticStatus.level := 2;
     DiagnosticStatus.message := "No message was set";
     DiagnosticStatus.values := [] |}.


(** A brought-up velocity-mode driver after its first read. *)
Definition running : Sys Device :=
  snd (read vcs fr0 (brought_up (Some PROFILE_VELOCITY_MODE) base_params healthy)).

(** The same driver, the position query failing from now on. *)
Definition position_lost : Sys Device :=
  device_becomes (breaking ["GetPositionIs"] true healthy) running.

(** The same driver, the statusword and position queries failing. *)
Definition link_lost : Sys Device :=
  device_becomes (breaking ["GetObject"; "GetPositionIs"] true healthy) running.



(** A velocity-mode driver in physical units with a limit of 10, commanded
    1000 rad/s. *)
Definition fast_command : Sys Device :=
  host_writes 0 1000 0 (brought_up (Some PROFILE_VELOCITY_MODE) limited_velocity healthy).

(** A current-mode driver in physical units with torque constant 2,
    commanded 4 Nm. *)
Definition torque_command : Sys Device :=
  host_writes 0 0 4 (brought_up (Some CURRENT_MODE) with_torque_constant healthy).

(** A bring-up with [clear_faults] on a device that reports two faults and
    refuses to clear them, respectively to tell their codes. *)
Definition clear_refused : Sys Device :=
  boot None clearing_faults (breaking ["ClearFault"] true (faulty true)).

Definition codes_unreadable : Sys Device :=
  boot None clearing_faults (breaking ["GetDeviceErrorCode"] true (faulty true)).

(** The same driver, commanded 80 Nm. *)
Definition strong_torque_command : Sys Device :=
  host_writes 0 0 80 (brought_up (Some CURRENT_MODE) with_torque_constant healthy).

(** A brought-up driver whose storage held the velocity mode, switched to the
    effort controller and then commanded 4 Nm. *)
Definition before_switch : Sys Device :=
  brought_up (Some PROFILE_VELOCITY_MODE) base_params healthy.

Definition after_switch : Sys Device :=
  snd (doSwitch vcs [{| ci_name := "effort_controller" |}] [] before_switch).

Definition effort_command : Sys Device := host_writes 0 0 4 after_switch.

End Scenario.

(** ** Vocabulary of the further properties *)

(** Every call of a history succeeded. *)
Definition all_succeeded (t : list (Call * Reply)) : Prop :=
  Forall (fun cr => succeeded (snd cr) = true) t.

(** The way a run ends is [return true]. *)
Definition is_ret {A : Type} (r : Res A) : bool :=
  match r with Ret _ => true | _ => false end.

Section Vocabulary2.
Context {D : Type}.

(** Every run of [m] stops at the first call that fails: all calls but the
    last succeeded, and the last one too when the run completes. *)
Definition fail_fast {A : Type} (m : @M (Sys D) A) : Prop :=
  forall s r s', m s = (r, s') ->
    exists t, calls s' = calls s ++ t /\
              all_succeeded (if is_ret r then t else removelast t).

End Vocabulary2.


(** The calls of the connection block of [init] for a serial number. *)
Definition connect_calls (serial_number : Z) : list Call :=
  [CreateNodeHandle "EPOS4" "MAXON SERIAL V2" "USB" serial_number;
   SetProtocolStackSettings 1000000 500;
   SetDisableState].

(** Calls that move the motor, and calls that read its state. *)
Definition is_motion_call (c : Call) : bool :=
  match c with
  | MoveWithVelocity _ | HaltVelocityMovement | MoveToPosition _ _ _ | SetCurrentMust _ => true
  | _ => false
  end.

Definition is_telemetry_call (c : Call) : bool :=
  match c with
  | GetObject _ _ _ | GetPositionIs | GetVelocityIs | GetCurrentIs => true
  | _ => false
  end.

(** Calls of the fault block of [init]. *)
Definition is_fault_block_call (c : Call) : bool :=
  match c with
  | GetNbOfDeviceError | GetDeviceErrorCode _ | ClearFault | SetEnableState => true
  | _ => false
  end.

(** Calls of the error enumeration of the status report. *)
Definition is_error_query (c : Call) : bool :=
  match c with
  | GetNbOfDeviceError | GetDeviceErrorCode _ => true
  | _ => false
  end.

(** The encoder resolution a sensor configuration yields: that of the SSI
    absolute encoder when it is configured, else that of the incremental
    encoder, negated for an inverted polarity. *)
Definition configured_resolution (config_nh : NodeHandle) : option Z :=
  let sensor_nh := child config_nh "sensor" in
  let ssi := child sensor_nh "ssi_absolute_encoder" in
  let inc := child sensor_nh "incremental_encoder" in
  match getParam getParam_int ssi "number_of_singleturn_bits",
        getParam getParam_bool ssi "inverted_polarity" with
  | Some bits, Some inverted =>
      r ← Num.shl1 bits; Some (if inverted : bool then - r else r)
  | _, _ =>
      match getParam getParam_int inc "resolution",
            getParam getParam_bool inc "inverted_polarity" with
      | Some resolution, Some inverted =>
          if inverted : bool then Num.neg_int resolution else Some resolution
      | _, _ => None
      end
  end.

(** The currents a motor configuration yields: those of the EC motor group
    when it is configured, else those of the DC motor group, else zero. *)
Definition configured_currents (config_nh : NodeHandle) : float * float :=
  let motor_nh := child config_nh "motor" in
  let dc := child motor_nh "dc_motor" in
  let ec := child motor_nh "ec_motor" in
  match getParam getParam_double ec "nominal_current",
        getParam getParam_double ec "max_output_current" with
  | Some n, Some m => (n, m)
  | _, _ =>
      match getParam getParam_double dc "nominal_current",
            getParam getParam_double dc "max_output_current" with
      | Some n, Some m => (n, m)
      | _, _ => (0%float, 0%float)
      end
  end.

(** Calls that set a parameter of the drive: those of the configuration
    blocks after the initial operation mode. *)
Definition is_parameter_call (c : Call) : bool :=
  match c with
  | SetObject _ _ _ _ | SetMotorType _ | SetDcMotorParameter _ _ _
  | SetEcMotorParameter _ _ _ _ | SetSensorType _ | SetIncEncoderParameter _ _
  | SetHallSensorParameter _ | SetSsiAbsEncoderParameter _ _ _ _
  | SetMaxFollowingError _ | SetMaxProfileVelocity _ | SetMaxAcceleration _
  | SetPositionRegulatorGain _ _ _ | SetPositionRegulatorFeedForward _ _
  | SetVelocityRegulatorGain _ _ | SetVelocityRegulatorFeedForward _ _
  | SetCurrentRegulatorGain _ _ | SetPositionProfile _ _ _ | EnablePositionWindow _ _
  | SetVelocityProfile _ _ | EnableVelocityWindow _ _ => true
  | _ => false
  end.

(** The node handle [init] holds after the factory answered [r]. *)
Definition handle_of (r : Reply) : option Z :=
  match r with Success h => Some h | Failure _ _ => None end.

(** The two fields of the battery state that [read] measures, and the ones
    it never touches. *)
Definition measured_fields (b : BatteryState) : float * bool := (voltage b, present b).

Definition constant_fields (b : BatteryState)
    : float * float * float * float * float * Z * Z * Z * string * string :=
  (bs_current b, charge b, capacity b, design_capacity b, percentage b,
   power_supply_status b, power_supply_health b, power_supply_technology b,
   location b, serial_number b).

Section Vocabulary3.
Context {D : Type}.

(** The last line of the log is an error. *)
Definition error_logged (s : Sys D) : Prop :=
  exists pre msg, log s = pre ++ [(ERROR, msg)].

(** Every [return false] of [m] comes right after an error line. *)
Definition loud {A : Type} (m : @M (Sys D) A) : Prop :=
  forall s s', m s = (Fail, s') -> error_logged s'.

End Vocabulary3.

(** *** The calls a configuration asks for

    For each configuration block of [init], the calls it issues on the way
    to [return true], from the parameters of the driver's node handle; a
    group that is not configured asks for none. The arguments are the
    configured values converted to the types of the library's parameters.
    [None]: the block cannot complete (a required type is missing, or a
    conversion to [int] is undefined). *)

Definition motor_type_calls (nh : NodeHandle) : option (list Call) :=
  v ← getParam getParam_int (child nh "motor") "type"; Some [SetMotorType (Num.to_ushort v)].

Definition dc_motor_calls (nh : NodeHandle) : option (list Call) :=
  let g := child (child nh "motor") "dc_motor" in
  match getParam getParam_double g "nominal_current",
        getParam getParam_double g "max_output_current",
        getParam getParam_double g "thermal_time_constant" with
  | Some n, Some m, Some t =>
      a ← Num.to_int (1000 * n)%float;
      b ← Num.to_int (1000 * m)%float;
      c ← Num.to_int (10 * t)%float;
      Some [SetDcMotorParameter (Num.to_ushort a) (Num.to_ushort b) (Num.to_ushort c)]
  | _, _, _ => Some []
  end.

Definition ec_motor_calls (nh : NodeHandle) : option (list Call) :=
  let g := child (child nh "motor") "ec_motor" in
  match getParam getParam_double g "nominal_current",
        getParam getParam_double g "max_output_current",
        getParam getParam_double g "thermal_time_constant",
        getParam getParam_int g "number_of_pole_pairs" with
  | Some n, Some m, Some t, Some pairs =>
      a ← Num.to_int (1000 * n)%float;
      b ← Num.to_int (1000 * m)%float;
      c ← Num.to_int (10 * t)%float;
      Some [SetEcMotorParameter (Num.to_ushort a) (Num.to_ushort b) (Num.to_ushort c)
              (Num.to_uchar pairs)]
  | _, _, _, _ => Some []
  end.

Definition sensor_type_calls (nh : NodeHandle) : option (list Call) :=
  v ← getParam getParam_int (child nh "sensor") "type"; Some [SetSensorType (Num.to_ushort v)].

Definition incremental_encoder_calls (nh : NodeHandle) : option (list Call) :=
  let g := child (child nh "sensor") "incremental_encoder" in
  match getParam getParam_int g "resolution",
        getParam getParam_bool g "inverted_polarity" with
  | Some resolution, Some inverted =>
      (if inverted : bool then Num.neg_int resolution else Some resolution) ≫= fun _ =>
      Some [SetIncEncoderParameter (Num.to_uint resolution) inverted]
  | _, _ => Some []
  end.

Definition hall_sensor_calls (nh : NodeHandle) : option (list Call) :=
  let g := child (child nh "sensor") "hall_sensor" in
  match getParam getParam_bool g "inverted_polarity" with
  | Some inverted => Some [SetHallSensorParameter inverted]
  | None => Some []
  end.

Definition ssi_absolute_encoder_calls (nh : NodeHandle) : option (list Call) :=
  let g := child (child nh "sensor") "ssi_absolute_encoder" in
  match getParam getParam_int g "data_rate",
        getParam getParam_int g "number_of_multiturn_bits",
        getParam getParam_int g "number_of_singleturn_bits",
        getParam getParam_bool g "inverted_polarity" with
  | Some rate, Some multi, Some single, Some inverted =>
      Num.shl1 single ≫= fun _ =>
      Some [SetSsiAbsEncoderParameter (Num.to_ushort rate) (Num.to_ushort multi)
              (Num.to_ushort single) inverted]
  | _, _, _, _ => Some []
  end.

Definition optional_call (nh : NodeHandle) (name : string) (func : Z -> Call) : list Call :=
  match getParam getParam_int nh name with Some v => [func v] | None => [] end.

Definition safety_calls (nh : NodeHandle) : option (list Call) :=
  let g := child nh "safety" in
  Some (optional_call g "max_following_error"
          (fun v => SetMaxFollowingError (Num.to_uint v))
        ++ optional_call g "max_profile_velocity"
             (fun v => SetMaxProfileVelocity (Num.to_uint v))
        ++ optional_call g "max_acceleration"
             (fun v => SetMaxAcceleration (Num.to_uint v))).

Definition position_regulator_gain_calls (nh : NodeHandle) : option (list Call) :=
  let g := child (child nh "position_regulator") "gain" in
  match getParam getParam_int g "p", getParam getParam_int g "i",
        getParam getParam_int g "d" with
  | Some p, Some i, Some d =>
      Some [SetPositionRegulatorGain (Num.to_ushort p) (Num.to_ushort i) (Num.to_ushort d)]
  | _, _, _ => Some []
  end.

Definition position_regulator_feed_forward_calls (nh : NodeHandle) : option (list Call) :=
  let g := child (child nh "position_regulator") "feed_forward" in
  match getParam getParam_int g "velocity", getParam getParam_int g "acceleration" with
  | Some v, Some a =>
      Some [SetPositionRegulatorFeedForward (Num.to_ushort v) (Num.to_ushort a)]
  | _, _ => Some []
  end.

Definition velocity_regulator_gain_calls (nh : NodeHandle) : option (list Call) :=
  let g := child (child nh "velocity_regulator") "gain" in
  match getParam getParam_int g "p", getParam getParam_int g "i" with
  | Some p, Some i => Some [SetVelocityRegulatorGain (Num.to_ushort p) (Num.to_ushort i)]
  | _, _ => Some []
  end.

Definition velocity_regulator_feed_forward_calls (nh : NodeHandle) : option (list Call) :=
  let g := child (child nh "velocity_regulator") "feed_forward" in
  match getParam getParam_int g "velocity", getParam getParam_int g "acceleration" with
  | Some v, Some a =>
      Some [SetVelocityRegulatorFeedForward (Num.to_ushort v) (Num.to_ushort a)]
  | _, _ => Some []
  end.

Definition current_regulator_gain_calls (nh : NodeHandle) : option (list Call) :=
  let g := child (child nh "current_regulator") "gain" in
  match getParam getParam_int g "p", getParam getParam_int g "i" with
  | Some p, Some i => Some [SetCurrentRegulatorGain (Num.to_ushort p) (Num.to_ushort i)]
  | _, _ => Some []
  end.

Definition position_profile_calls (nh : NodeHandle) : option (list Call) :=
  let g := child nh "position_profile" in
  match getParam getParam_int g "velocity", getParam getParam_int g "acceleration",
        getParam getParam_int g "deceleration" with
  | Some v, Some a, Some d =>
      Some [SetPositionProfile (Num.to_uint v) (Num.to_uint a) (Num.to_uint d)]
  | _, _, _ => Some []
  end.

Definition position_profile_window_calls (nh : NodeHandle) : option (list Call) :=
  let g := child (child nh "position_profile") "window" in
  match getParam getParam_int g "window", getParam getParam_double g "time" with
  | Some w, Some t =>
      ms ← Num.to_int (1000 * t)%float;
      Some [EnablePositionWindow (Num.to_uint w) (Num.to_ushort ms)]
  | _, _ => Some []
  end.

Definition velocity_profile_calls (nh : NodeHandle) : option (list Call) :=
  let g := child nh "velocity_profile" in
  match getParam getParam_int g "acceleration", getParam getParam_int g "deceleration" with
  | Some a, Some d => Some [SetVelocityProfile (Num.to_uint a) (Num.to_uint d)]
  | _, _ => Some []
  end.

Definition velocity_profile_window_calls (nh : NodeHandle) : option (list Call) :=
  let g := child (child nh "velocity_profile") "window" in
  match getParam getParam_int g "window", getParam getParam_double g "time" with
  | Some w, Some t =>
      ms ← Num.to_int (1000 * t)%float;
      Some [EnableVelocityWindow (Num.to_uint w) (Num.to_ushort ms)]
  | _, _ => Some []
  end.

(** The calls of a sequence of blocks, when all of them can complete. *)
Definition sequence_calls (blocks : list (option (list Call))) : option (list Call) :=
  foldr (fun b acc => match b, acc with
                      | Some l, Some r => Some (l ++ r)
                      | _, _ => None
                      end) (Some []) blocks.

(** The calls of the configuration blocks after the initial operation mode,
    in the order of the source. *)
Definition configured_calls (nh : NodeHandle) : option (list Call) :=
  sequence_calls
    [ motor_type_calls nh; dc_motor_calls nh; ec_motor_calls nh;
      sensor_type_calls nh; incremental_encoder_calls nh; hall_sensor_calls nh;
      ssi_absolute_encoder_calls nh;
      safety_calls nh;
      position_regulator_gain_calls nh; position_regulator_feed_forward_calls nh;
      velocity_regulator_gain_calls nh; velocity_regulator_feed_forward_calls nh;
      current_regulator_gain_calls nh;
      position_profile_calls nh; position_profile_window_calls nh;
      velocity_profile_calls nh; velocity_profile_window_calls nh ].

(** The call of the initial operation mode. *)
Definition initial_mode_calls (e : Epos) : list Call :=
  match operation_mode_map_ e !! "" with
  | Some m => [SetOperationMode m]
  | None => []
  end.

Section Vocabulary4.
Context {D : Type}.

(** A block that took the system from [s] to [s'] issued the calls its
    configuration asks for. *)
Definition issues (s s' : Sys D) (block : option (list Call)) : Prop :=
  exists l t, block = Some l /\ calls s' = calls s ++ t /\ issued t = l.

End Vocabulary4.

(** ** Further scenarios on the stub transport *)

Module Cases.
Import Stub.

(** A configuration whose mode map names a mode the driver does not know. *)
Definition unknown_mode : list (string * Value) :=
  [ ("/epos/actuator_name", VString "wheel");
    ("/epos/serial_number", VString "602083000001");
    ("/epos/operation_mode_map",
       VMap [("", "profile_position"); ("arm_controller", "torque")]);
    ("/epos/motor/type", VInt 10);
    ("/epos/sensor/type", VInt 1);
    ("/epos/sensor/incremental_encoder/resolution", VInt 1000);
    ("/epos/sensor/incremental_encoder/inverted_polarity", VBool false) ].


(** An SSI absolute encoder with 12 single-turn bits and inverted polarity,
    besides the incremental encoder. *)
Definition ssi_sensor : list (string * Value) :=
  [ ("/epos/sensor/ssi_absolute_encoder/data_rate", VInt 500);
    ("/epos/sensor/ssi_absolute_encoder/number_of_multiturn_bits", VInt 12);
    ("/epos/sensor/ssi_absolute_encoder/number_of_singleturn_bits", VInt 12);
    ("/epos/sensor/ssi_absolute_encoder/inverted_polarity", VBool true) ]
  ++ base_params.

(** A DC motor, a torque constant and the halt flag. *)
Definition dc_motor : list (string * Value) :=
  [ ("/epos/torque_constant", VDouble 2%float);
    ("/epos/halt_velocity", VBool true);
    ("/epos/motor/dc_motor/nominal_current", VDouble 1.5%float);
    ("/epos/motor/dc_motor/max_output_current", VDouble 3%float);
    ("/epos/motor/dc_motor/thermal_time_constant", VDouble 10%float) ]
  ++ base_params.

(** A DC motor with a nominal current of 70 A and a maximal output current
    of 80 A. *)
Definition strong_dc_motor : list (string * Value) :=
  [ ("/epos/motor/dc_motor/nominal_current", VDouble 70%float);
    ("/epos/motor/dc_motor/max_output_current", VDouble 80%float);
    ("/epos/motor/dc_motor/thermal_time_constant", VDouble 10%float) ]
  ++ base_params.

(** A power supply to report. *)
Definition with_battery : list (string * Value) :=
  ("/epos/power_supply/name", VString "battery") :: base_params.

(** A brought-up driver with a power supply name, on a device that reports
    a supply of 241 tenths of a volt. *)
Definition supplied : Sys Device :=
  device_becomes
    {| faults := []; clearable := true; broken := []; silent := true;
       raw_statusword := 0x0237; raw_position := 4000; raw_velocity := 60;
       raw_current := 500; raw_voltage := 241 |}
    (brought_up None with_battery healthy).


(** A brought-up driver whose device then reports two faults. *)
Definition faulted : Sys Device :=
  device_becomes (faulty false) (brought_up None base_params healthy).

(** A position-mode driver in raw units, commanded to 123 counts. *)
Definition position_command : Sys Device :=
  host_writes 123 0 0 (brought_up (Some PROFILE_POSITION_MODE) base_params healthy).

(** A velocity-mode driver in raw units without a limit, commanded to
    -42.75 rpm. *)
Definition velocity_command : Sys Device :=
  host_writes 0 (-42.75) 0 (brought_up (Some PROFILE_VELOCITY_MODE) base_params healthy).

(** The controllers of a switch: one the mode map does not know between two
    it knows. *)
Definition starting : list ControllerInfo :=
  [ {| ci_name := "effort_controller" |}; {| ci_name := "gripper_controller" |};
    {| ci_name := "velocity_controller" |} ].

End Cases.

(** * Properties *)

(** ** The all-or-none validator *)

Module LoaderFacts.
Import ParameterSetLoader Groups.

Lemma param_attr_nh a l : nh_ (param_attr a l) = nh_ l.
Proof. unfold param_attr. destruct (present (nh_ l) a); reflexivity. Qed.

Lemma load_nh attrs : forall l, nh_ (load attrs l) = nh_ l.
Proof.
  induction attrs as [|a attrs IH]; intros l; simpl; [reflexivity|].
  unfold load in *. simpl. rewrite IH. apply param_attr_nh.
Qed.

Lemma load_lists attrs : forall l,
  found_ (load attrs l) = found_ l ++ names_where (present (nh_ l)) attrs /\
  not_found_ (load attrs l) = not_found_ l ++ names_where (absent (nh_ l)) attrs.
Proof.
  unfold names_where, absent, load.
  induction attrs as [|a attrs IH]; intros l; simpl.
  - rewrite !app_nil_r. split; reflexivity.
  - destruct (IH (param_attr a l)) as [Hf Hn]. rewrite Hf, Hn, param_attr_nh.
    unfold param_attr. destruct (present (nh_ l) a); simpl;
      rewrite <- ?app_assoc; split; reflexivity.
Qed.

Lemma names_where_nil f attrs :
  names_where f attrs = [] <-> forallb (fun a => negb (f a)) attrs = true.
Proof.
  unfold names_where. induction attrs as [|a attrs IH]; simpl; [tauto|].
  destruct (f a); simpl; [split; discriminate | exact IH].
Qed.

Lemma forallb_negb_absent nh attrs :
  forallb (fun a => negb (absent nh a)) attrs = forallb (present nh) attrs.
Proof.
  induction attrs as [|a attrs IH]; simpl; [reflexivity|].
  unfold absent at 1. rewrite negb_involutive, IH. reflexivity.
Qed.

Lemma length_zero_iff {A} (l : list A) : (length l =? 0)%nat = true <-> l = [].
Proof. destruct l; simpl; split; congruence. Qed.

(** The tri-state answer of the validator on a freshly loaded group. *)
Lemma all_or_none_load nh attrs found_all :
  all_or_none (load attrs (make nh)) found_all =
    if forallb (present nh) attrs then (true, Some true, [])
    else if forallb (absent nh) attrs then (true, Some false, [])
    else (false, found_all, report (load attrs (make nh))).
Proof.
  unfold all_or_none.
  destruct (load_lists attrs (make nh)) as [Hf Hn]. simpl in Hf, Hn.
  rewrite Hf, Hn.
  destruct (forallb (present nh) attrs) eqn:Hall.
  - rewrite <- forallb_negb_absent in Hall. apply names_where_nil in Hall.
    rewrite Hall. reflexivity.
  - assert (Hne : names_where (absent nh) attrs <> []).
    { intros H. apply names_where_nil in H. rewrite forallb_negb_absent in H. congruence. }
    destruct (names_where (absent nh) attrs) eqn:E1; [congruence|]. simpl.
    destruct (forallb (absent nh) attrs) eqn:Hnone.
    + apply names_where_nil in Hnone. rewrite Hnone. reflexivity.
    + destruct (names_where (present nh) attrs) eqn:E2; [|reflexivity].
      apply names_where_nil in E2. unfold absent in Hnone. congruence.
Qed.

Lemma partial_spec nh attrs :
  partial nh attrs = negb (forallb (present nh) attrs) && negb (forallb (absent nh) attrs).
Proof.
  unfold partial, absent. rewrite andb_comm. f_equal.
  - induction attrs as [|a attrs IH]; simpl; [reflexivity|].
    rewrite IH, negb_andb. reflexivity.
  - induction attrs as [|a attrs IH]; simpl; [reflexivity|].
    rewrite IH, negb_andb, negb_involutive. reflexivity.
Qed.

Lemma filter_length_all {A} (f : A -> bool) l :
  length (List.filter f l) = length l <-> forallb f l = true.
Proof.
  induction l as [|a l IH]; simpl; [tauto|].
  pose proof (List.filter_length_le f l) as Hle.
  destruct (f a); simpl; [rewrite <- IH; lia | split; [lia | discriminate]].
Qed.

Lemma filter_length_none {A} (f : A -> bool) l :
  length (List.filter f l) = 0%nat <-> forallb (fun a => negb (f a)) l = true.
Proof.
  induction l as [|a l IH]; simpl; [tauto|].
  destruct (f a); simpl; [split; [lia | discriminate] | exact IH].
Qed.

Lemma partial_count nh attrs :
  partial nh attrs = true <->
  (0 < count_present nh attrs < length attrs)%nat.
Proof.
  unfold count_present. rewrite partial_spec, andb_true_iff, !negb_true_iff.
  pose proof (List.filter_length_le (present nh) attrs) as Hle.
  pose proof (filter_length_all (present nh) attrs) as Hall.
  pose proof (filter_length_none (present nh) attrs) as Hnone.
  fold (absent nh) in Hnone.
  destruct (forallb (present nh) attrs), (forallb (absent nh) attrs);
    split; intros H; try (destruct H; congruence); try (split; reflexivity).
  - destruct Hall as [_ Hall]. specialize (Hall eq_refl). lia.
  - destruct Hall as [_ Hall]. specialize (Hall eq_refl). lia.
  - destruct Hnone as [_ Hnone]. specialize (Hnone eq_refl). lia.
  - split.
    + destruct (length (List.filter (present nh) attrs)) eqn:E; [|lia].
      destruct Hnone as [Hnone _]. specialize (Hnone eq_refl). discriminate.
    + destruct (Nat.eq_dec (length (List.filter (present nh) attrs)) (length attrs)) as [E|E];
        [|lia].
      destruct Hall as [Hall _]. specialize (Hall E). discriminate.
Qed.

Lemma param_eq {T} (get : ParamServer -> string -> option T) name v l :
  param get name v l =
    (match getParam get (nh_ l) name with Some x => Some x | None => v end,
     param_attr (attr name get) l).
Proof.
  unfold param, param_attr, attr, present, has, getParam. simpl.
  destruct (get (server (nh_ l)) (resolveName (nh_ l) name)); reflexivity.
Qed.

End LoaderFacts.

Import ParameterSetLoader Groups LoaderFacts.

(** ** Runs of the driver's functions *)

Section MonadFacts.
Context {D : Type}.
Variable vcs : Call -> D -> Reply * D.
Local Abbreviation St := (Sys D).
Implicit Types (s : St).

Lemma bind_Ret {A B} (m : @M St A) (k : A -> M B) s b s' :
  bind m k s = (Ret b, s') ->
  exists a s1, m s = (Ret a, s1) /\ k a s1 = (Ret b, s').
Proof.
  unfold bind. destruct (m s) as [[a| | |] s1]; intros H; try discriminate.
  exists a, s1. split; [reflexivity | exact H].
Qed.

Lemma bind_cases {A B} (m : @M St A) (k : A -> M B) s r s' :
  bind m k s = (r, s') ->
  (exists a s1, m s = (Ret a, s1) /\ k a s1 = (r, s')) \/
  (m s = (match r with Ret _ => Stuck | Fail => Fail | Stuck => Stuck | Timeout => Timeout end, s')
   /\ forall b, r <> Ret b).
Proof.
  unfold bind. destruct (m s) as [[a| | |] s1]; intros H.
  - left. exists a, s1. split; [reflexivity | exact H].
  - right. inversion H; subst. split; [reflexivity | discriminate].
  - right. inversion H; subst. split; [reflexivity | discriminate].
  - right. inversion H; subst. split; [reflexivity | discriminate].
Qed.

Lemma steps_run {A} (R : St -> St -> Prop) (m : M A) s r s' :
  steps R m -> m s = (r, s') -> R s s'.
Proof. intros H E. specialize (H s). rewrite E in H. exact H. Qed.

Section Steps.
Context (R : St -> St -> Prop) `{!Reflexive R} `{!Transitive R}.

Lemma steps_ret {A} (a : A) : steps R (ret a).
Proof. intros s. simpl. reflexivity. Qed.

Lemma steps_fail {A} : steps R (@fail St A).
Proof. intros s. simpl. reflexivity. Qed.

Lemma steps_stuck {A} : steps R (@stuck St A).
Proof. intros s. simpl. reflexivity. Qed.

Lemma steps_timeout {A} : steps R (@timeout St A).
Proof. intros s. simpl. reflexivity. Qed.

Lemma steps_defined {A} (o : option A) : steps R (defined o).
Proof. destruct o; [apply steps_ret | apply steps_stuck]. Qed.

Lemma steps_get_obj : steps R (@get_obj D).
Proof. intros s. simpl. reflexivity. Qed.

Lemma steps_bind {A B} (m : @M St A) (k : A -> M B) :
  steps R m -> (forall a, steps R (k a)) -> steps R (bind m k).
Proof.
  intros Hm Hk s. unfold bind. specialize (Hm s).
  destruct (m s) as [[a| | |] s1]; simpl in *; try exact Hm.
  etransitivity; [exact Hm | apply Hk].
Qed.

End Steps.

#[global] Instance same_refl {B} (proj : Epos -> B) : Reflexive (@same D B proj).
Proof. intros s. reflexivity. Qed.

#[global] Instance same_trans {B} (proj : Epos -> B) : Transitive (@same D B proj).
Proof. intros s1 s2 s3 H1 H2. unfold same in *. congruence. Qed.

#[global] Instance emits_refl P : Reflexive (@emits D P).
Proof. intros s. exists []. rewrite app_nil_r. split; [reflexivity | constructor]. Qed.

#[global] Instance emits_trans P : Transitive (@emits D P).
Proof.
  intros s1 s2 s3 [t1 [H1 F1]] [t2 [H2 F2]]. exists (t1 ++ t2).
  rewrite H2, H1, app_assoc. split; [reflexivity | apply Forall_app; split; assumption].
Qed.

(** The primitives. *)
Lemma same_modify_obj {B} (proj : Epos -> B) f :
  (forall e, proj (f e) = proj e) -> steps (same proj) (@modify_obj D f).
Proof. intros H s. unfold same. simpl. apply H. Qed.

Lemma same_log {B} (proj : Epos -> B) lvl msg : steps (same proj) (@ROS_LOG D lvl msg).
Proof. intros s. reflexivity. Qed.

Lemma same_log_lines {B} (proj : Epos -> B) lines :
  steps (same proj) (@ROS_LOG_lines D lines).
Proof. intros s. reflexivity. Qed.

Lemma same_factory_call {B} (proj : Epos -> B) c : steps (same proj) (factory_call vcs c).
Proof. intros s. unfold same, factory_call. destruct (vcs c (dev s)). reflexivity. Qed.

Lemma same_call {B} (proj : Epos -> B) c : steps (same proj) (call vcs c).
Proof.
  intros s. unfold call. destruct (node_handle_ (obj s)); [apply same_factory_call|].
  reflexivity.
Qed.

Lemma emits_same_calls P s s' : calls s' = calls s -> emits P s s'.
Proof.
  intros H. exists []. rewrite app_nil_r. split; [exact H | constructor].
Qed.

Lemma emits_modify_obj P f : steps (emits P) (@modify_obj D f).
Proof. intros s. apply emits_same_calls. reflexivity. Qed.

Lemma emits_log P lvl msg : steps (emits P) (@ROS_LOG D lvl msg).
Proof. intros s. apply emits_same_calls. reflexivity. Qed.

Lemma emits_log_lines P lines : steps (emits P) (@ROS_LOG_lines D lines).
Proof. intros s. apply emits_same_calls. reflexivity. Qed.

Lemma emits_factory_call (P : Call -> bool) c :
  P c = true -> steps (emits P) (factory_call vcs c).
Proof.
  intros H s. unfold factory_call. destruct (vcs c (dev s)) as [r d]. simpl.
  exists [(c, typed c r)]. split; [reflexivity|]. constructor; [exact H | constructor].
Qed.

Lemma emits_call (P : Call -> bool) c : P c = true -> steps (emits P) (call vcs c).
Proof.
  intros H s. unfold call. destruct (node_handle_ (obj s)).
  - apply emits_factory_call, H.
  - apply emits_refl.
Qed.

End MonadFacts.

Ltac steps_leaf :=
  first
    [ apply steps_ret; typeclasses eauto
    | apply steps_fail; typeclasses eauto
    | apply steps_stuck; typeclasses eauto
    | apply steps_timeout; typeclasses eauto
    | apply steps_defined; typeclasses eauto
    | apply steps_get_obj; typeclasses eauto
    | apply same_log | apply same_log_lines | apply same_call | apply same_factory_call
    | apply same_modify_obj; solve [intros []; reflexivity]
    | apply emits_log | apply emits_log_lines | apply emits_modify_obj
    | apply emits_call; reflexivity
    | apply emits_factory_call; reflexivity ].

Ltac steps_go :=
  repeat first
    [ steps_leaf
    | apply steps_bind; [typeclasses eauto | | intros ?]
    | match goal with
      | |- steps _ (match ?x with _ => _ end) => destruct x
      end
    | assumption ].

Section PhaseFacts.
Context {D : Type}.
Variable vcs : Call -> D -> Reply * D.
Local Abbreviation St := (Sys D).

Lemma same_VCS {B} (proj : Epos -> B) c : steps (same proj) (VCS vcs c).
Proof. unfold VCS. steps_go. Qed.

Lemma emits_VCS P c : P c = true -> steps (emits P) (VCS vcs c).
Proof. intros H. unfold VCS. steps_go. apply emits_call, H. Qed.

Lemma same_VCS_SET_OBJECT {B} (proj : Epos -> B) fuel i si d len msg :
  steps (same proj) (VCS_SET_OBJECT vcs fuel i si d len msg).
Proof. induction fuel as [|n IH]; simpl; steps_go. Qed.

Lemma emits_VCS_SET_OBJECT fuel i si d len msg :
  steps (emits is_config_call) (VCS_SET_OBJECT vcs fuel i si d len msg).
Proof. induction fuel as [|n IH]; simpl; steps_go. Qed.

Lemma same_all_or_none_or_return {B} (proj : Epos -> B) l :
  steps (same proj) (@all_or_none_or_return D l).
Proof. unfold all_or_none_or_return. steps_go. Qed.

Lemma emits_all_or_none_or_return P l :
  steps (emits P) (@all_or_none_or_return D l).
Proof. unfold all_or_none_or_return. steps_go. Qed.

Lemma same_init_error_codes {B} (proj : Epos -> B) n : forall i,
  steps (same proj) (init_error_codes vcs n i).
Proof. induction n as [|n IH]; intros i; simpl; steps_go. apply IH. Qed.

Lemma emits_init_error_codes P n : forall i,
  (forall j, P (GetDeviceErrorCode j) = true) ->
  steps (emits P) (init_error_codes vcs n i).
Proof.
  induction n as [|n IH]; intros i HP; simpl; steps_go.
  - apply emits_call, HP.
  - apply IH, HP.
Qed.

End PhaseFacts.

Ltac steps_go_full :=
  repeat first
    [ steps_leaf
    | apply same_VCS_SET_OBJECT
    | apply emits_VCS_SET_OBJECT
    | apply same_init_error_codes
    | apply emits_init_error_codes; reflexivity
    | apply steps_bind; [typeclasses eauto | | intros ?]
    | match goal with
      | |- steps _ (match ?x with _ => _ end) => destruct x
      end
    | assumption ].


Ltac unfold_init :=
  unfold init, init_configure, init_connect, init_initial_mode, init_fault_reaction,
    SET_FAULT_REACTION_OPTION, init_torque_constant, init_motor, init_dc_motor,
    init_ec_motor, init_sensor, init_incremental_encoder, init_hall_sensor,
    init_ssi_absolute_encoder, init_safety, init_position_regulator,
    init_position_regulator_gain, init_position_regulator_feed_forward,
    init_velocity_regulator, init_velocity_regulator_gain,
    init_velocity_regulator_feed_forward, init_current_regulator,
    init_current_regulator_gain, init_position_profile, init_position_profile_values,
    init_position_profile_window, init_velocity_profile, init_velocity_profile_values,
    init_velocity_profile_window, init_faults_and_enable,
    VCS_FROM_SINGLE_PARAM_REQUIRED, VCS_FROM_SINGLE_PARAM_OPTIONAL, VCS,
    all_or_none_or_return.

Ltac same_of proj E :=
  let Hs := fresh "Hs" in
  match type of E with
  | ?m ?s0 = _ =>
      assert (Hs : steps (same proj) m) by (unfold_init; steps_go_full);
      apply (steps_run _ _ _ _ _ Hs) in E; unfold same in E; clear Hs
  end.

(** ** Bring-up *)

Section InitFacts.
Context {D : Type}.
Variable vcs : Call -> D -> Reply * D.

Lemma init_same_config_nh fuel : steps (same config_nh_) (init vcs fuel).
Proof. unfold_init. steps_go_full. Qed.

Lemma init_configure_same_has_init fuel : steps (same has_init_) (init_configure vcs fuel).
Proof. unfold_init. steps_go_full. Qed.

Lemma init_configure_emits fuel : steps (emits is_config_call) (init_configure vcs fuel).
Proof. unfold_init. steps_go_full. Qed.

End InitFacts.

Section FaultFacts.
Context {D : Type}.
Variable vcs : Call -> D -> Reply * D.
Local Abbreviation St := (Sys D).

Lemma call_spec (s : St) c :
  is_Some (node_handle_ (obj s)) ->
  call vcs c s =
    (Ret (typed c (vcs c (dev s)).1),
     {| obj := obj s; dev := (vcs c (dev s)).2;
        calls := calls s ++ [(c, typed c (vcs c (dev s)).1)]; log := log s |}).
Proof.
  intros [h Hh]. unfold call, factory_call. rewrite Hh.
  destruct (vcs c (dev s)) as [r d]. reflexivity.
Qed.

Lemma typed_nb_errors_nonneg r n : typed GetNbOfDeviceError r = Success n -> 0 <= n.
Proof.
  destruct r as [v|[v|] e]; simpl; intros H; inversion H; subst.
  unfold Num.wrap_unsigned. apply Z.mod_pos_bound. reflexivity.
Qed.

Lemma bind_call {B} (s : St) c (k : Reply -> M B) :
  is_Some (node_handle_ (obj s)) ->
  bind (call vcs c) k s =
    k (typed c (vcs c (dev s)).1)
      {| obj := obj s; dev := (vcs c (dev s)).2;
         calls := calls s ++ [(c, typed c (vcs c (dev s)).1)]; log := log s |}.
Proof. intros H. unfold bind. rewrite call_spec by exact H. reflexivity. Qed.

Lemma bind_log {B} (s : St) lvl msg (k : unit -> M B) :
  bind (ROS_LOG lvl msg) k s =
    k tt {| obj := obj s; dev := dev s; calls := calls s; log := log s ++ [(lvl, msg)] |}.
Proof. reflexivity. Qed.

Lemma bind_modify_obj {B} (s : St) f (k : unit -> M B) :
  bind (modify_obj f) k s =
    k tt {| obj := f (obj s); dev := dev s; calls := calls s; log := log s |}.
Proof. reflexivity. Qed.

Lemma bind_get_obj {B} (s : St) (k : Epos -> M B) : bind get_obj k s = k (obj s) s.
Proof. reflexivity. Qed.

Lemma bind_assoc {A B C} (m : @M St A) (f : A -> M B) (k : B -> M C) s :
  bind (bind m f) k s = bind m (fun a => bind (f a) k) s.
Proof. unfold bind. destruct (m s) as [[a| | |] s1]; reflexivity. Qed.

Lemma bind_eq {A B} (m : @M St A) (k : A -> M B) s a s1 :
  m s = (Ret a, s1) -> bind m k s = k a s1.
Proof. intros H. unfold bind. rewrite H. reflexivity. Qed.

Lemma bind_Fail {A B} (m : @M St A) (k : A -> M B) s s1 :
  m s = (Fail, s1) -> bind m k s = (Fail, s1).
Proof. intros H. unfold bind. rewrite H. reflexivity. Qed.

(** The loop over the error codes: it ends normally or with [return false],
    changes nothing but the device, the call history and the log, and issues
    error-code queries only. *)
Lemma init_error_codes_runs n : forall i (s : St),
  is_Some (node_handle_ (obj s)) ->
  exists codes d lg,
    Forall is_code_query codes /\
    (init_error_codes vcs n i s =
       (Ret tt, {| obj := obj s; dev := d; calls := calls s ++ codes;
                   log := log s ++ lg |}) \/
     (init_error_codes vcs n i s =
        (Fail, {| obj := obj s; dev := d; calls := calls s ++ codes;
                  log := log s ++ lg |}) /\
      exists codes' j o e, codes = codes' ++ [(GetDeviceErrorCode j, Failure o e)] /\
                           Forall is_code_query codes')).
Proof.
  induction n as [|n IH]; intros i s Hh; simpl.
  - exists [], (dev s), []. split; [constructor|]. left.
    unfold ret. rewrite !app_nil_r. destruct s; reflexivity.
  - rewrite bind_call by assumption.
    destruct (typed (GetDeviceErrorCode i) (vcs (GetDeviceErrorCode i) (dev s)).1)
      as [v|o e] eqn:Er.
    + rewrite bind_log.
      match goal with |- context [init_error_codes vcs n (i + 1) ?s1] =>
        destruct (IH (i + 1) s1 Hh) as (codes & d & lg & Hc & Hrun) end.
      simpl in Hrun. rewrite <- !app_assoc in Hrun. simpl in Hrun.
      exists ((GetDeviceErrorCode i, Success v) :: codes), d,
        ((WARN, "EPOS Device Error: " +:+ HexString.of_Z v) :: lg).
      split; [constructor; [exists i; reflexivity | exact Hc]|].
      destruct Hrun as [Hrun | [Hrun (codes' & j & o & e & Hcodes & Hc')]].
      * left. exact Hrun.
      * right. split; [exact Hrun|].
        exists ((GetDeviceErrorCode i, Success v) :: codes'), j, o, e.
        rewrite Hcodes. split; [reflexivity|].
        constructor; [exists i; reflexivity | exact Hc'].
    + exists [(GetDeviceErrorCode i, Failure o e)], (vcs (GetDeviceErrorCode i) (dev s)).2, [].
      split; [constructor; [exists i; reflexivity | constructor]|].
      right. split.
      * unfold fail. rewrite app_nil_r. reflexivity.
      * exists [], i, o, e. split; [reflexivity | constructor].
Qed.

(** Every run of the fault block is one of [FaultRun]; it starts with the
    device's answer to the error count; [has_init_] becomes true exactly on
    [return true]. *)
Lemma init_faults_and_enable_runs (s : St) r s' :
  is_Some (node_handle_ (obj s)) ->
  init_faults_and_enable vcs s = (r, s') ->
  exists t,
    calls s' = calls s ++ t /\
    FaultRun (param_or getParam_bool (config_nh_ (obj s)) "clear_faults" false) r t /\
    hd_error t =
      Some (GetNbOfDeviceError, typed GetNbOfDeviceError (vcs GetNbOfDeviceError (dev s)).1) /\
    has_init_ (obj s') = match r with Ret _ => true | _ => has_init_ (obj s) end.
Proof.
  intros Hh. unfold init_faults_and_enable.
  set (cf := param_or getParam_bool (config_nh_ (obj s)) "clear_faults" false).
  rewrite bind_log, bind_call by exact Hh. cbv beta. cbn [obj dev calls log].
  destruct (typed GetNbOfDeviceError (vcs GetNbOfDeviceError (dev s)).1) as [n|o e] eqn:E0.
  2:{ intros H. inversion H; subst; clear H. simpl.
      eexists. split; [reflexivity|]. split; [constructor|]. split; reflexivity. }
  match goal with |- context [bind (init_error_codes vcs _ 1) _ ?s1] =>
    destruct (init_error_codes_runs (Z.to_nat n) 1 s1 Hh) as (codes & d1 & lg1 & Hc & Hrun)
  end.
  simpl in Hrun. rewrite <- !app_assoc in Hrun. simpl in Hrun.
  destruct Hrun as [Hrun | [Hrun (codes' & j & o & e & Hcodes & Hc')]].
  2:{ rewrite (bind_Fail _ _ _ _ Hrun). intros H. inversion H; subst; clear H. simpl.
      eexists. split; [reflexivity|]. split; [|split; reflexivity].
      apply FR_code_failed. exact Hc'. }
  rewrite (bind_eq _ _ _ _ _ Hrun). rewrite bind_get_obj. simpl obj. fold cf.
  (* the clearing step *)
  assert (Hclear :
    forall (k : unit -> M unit) s1,
      is_Some (node_handle_ (obj s1)) ->
      bind (if n >? 0 then
              if cf then
                ROS_LOG INFO "Clearing faults" ;;
                r <- call vcs ClearFault ;;
                if negb (succeeded r) then ROS_LOG ERROR "Could not clear faults" ;; fail
                else ROS_LOG INFO "Cleared faults"
              else ROS_LOG ERROR "Not clearing faults, but faults exist" ;; fail
            else ret tt) k s1 = (r, s') ->
      (0 < n /\ cf = false /\ r = Fail /\ calls s' = calls s1 /\ obj s' = obj s1) \/
      (0 < n /\ cf = true /\ r = Fail /\ obj s' = obj s1 /\
         exists o e, calls s' = calls s1 ++ [(ClearFault, Failure o e)]) \/
      ((0 < n -> cf = true) /\
         exists kc d2 lg2, cleared n kc /\
           k tt {| obj := obj s1; dev := d2; calls := calls s1 ++ kc; log := lg2 |}
           = (r, s'))).
  { intros k s1 Hh1. unfold cleared. destruct (n >? 0) eqn:En.
    - apply Z.gtb_lt in En. destruct cf eqn:Ecf.
      + rewrite bind_assoc, bind_log, bind_assoc, bind_call by exact Hh1.
        cbv beta. cbn [obj dev calls log].
        destruct (typed ClearFault (vcs ClearFault (dev s1)).1) as [y|o e];
          cbn [succeeded negb].
        * rewrite bind_log. intros H. right. right. split; [reflexivity|].
          eexists _, _, _. split; [eexists; reflexivity | exact H].
        * rewrite bind_assoc, bind_log. intros H. inversion H; subst; clear H.
          right. left. repeat split; try assumption. exists o, e. reflexivity.
      + intros H. inversion H; subst; clear H. left. repeat split; assumption.
    - intros H. right. right. split; [intros Hn; apply Z.gtb_lt in Hn; congruence|].
      exists [], (dev s1), (log s1). split; [reflexivity|].
      rewrite app_nil_r. destruct s1. exact H. }
  intros H. apply Hclear in H; [|exact Hh]. clear Hclear.
  destruct H as [(Hn & Hcf & -> & Hcalls & Hobj) | [(Hn & Hcf & -> & Hobj & o & e & Hcalls)
                | (Hcf & kc & d2 & lg2 & Hk & H)]]; simpl in *.
  - exists ((GetNbOfDeviceError, Success n) :: codes). rewrite Hcalls, Hobj.
    split; [reflexivity|]. split; [|split; reflexivity].
    apply FR_not_clearing; assumption.
  - exists ((GetNbOfDeviceError, Success n) :: codes ++ [(ClearFault, Failure o e)]).
    rewrite Hcalls, Hobj, <- !app_assoc. simpl.
    split; [reflexivity|]. split; [|split; reflexivity].
    apply FR_clear_failed; assumption.
  - rewrite bind_call in H by exact Hh. simpl in H.
    destruct (typed GetNbOfDeviceError (vcs GetNbOfDeviceError d2).1) as [m|o e] eqn:E1.
    2:{ inversion H; subst; clear H. simpl.
        exists ((GetNbOfDeviceError, Success n) :: codes ++ kc
                ++ [(GetNbOfDeviceError, Failure o e)]).
        rewrite <- !app_assoc. simpl. split; [reflexivity|].
        split; [|split; reflexivity]. apply FR_requery_failed; assumption. }
    destruct (m >? 0) eqn:Em.
    + apply Z.gtb_lt in Em. inversion H; subst; clear H. simpl.
      exists ((GetNbOfDeviceError, Success n) :: codes ++ kc
              ++ [(GetNbOfDeviceError, Success m)]).
      rewrite <- !app_assoc. simpl. split; [reflexivity|].
      split; [|split; reflexivity]. apply FR_not_cleared; assumption.
    + assert (m = 0) as ->.
      { apply typed_nb_errors_nonneg in E1. rewrite Z.gtb_ltb in Em.
        apply Z.ltb_ge in Em. lia. }
      rewrite bind_modify_obj, bind_log, bind_call in H.
      2:{ simpl. destruct (obj s); exact Hh. }
      simpl in H.
      destruct (typed SetEnableState (vcs SetEnableState _).1) as [x|o e] eqn:E2;
        simpl in H; inversion H; subst; clear H; simpl.
      * exists ((GetNbOfDeviceError, Success n) :: codes ++ kc
                ++ [(GetNbOfDeviceError, Success 0); (SetEnableState, Success x)]).
        rewrite <- !app_assoc. simpl. split; [reflexivity|].
        split; [apply FR_enabled; assumption|]. split; [reflexivity|].
        destruct (obj s); reflexivity.
      * exists ((GetNbOfDeviceError, Success n) :: codes ++ kc
                ++ [(GetNbOfDeviceError, Success 0); (SetEnableState, Failure o e)]).
        rewrite <- !app_assoc. simpl. split; [reflexivity|].
        split; [apply FR_enable_failed; assumption|]. split; [reflexivity|].
        destruct (obj s); reflexivity.
Qed.

End FaultFacts.

Section InitFacts2.
Context {D : Type}.
Variable vcs : Call -> D -> Reply * D.
Local Abbreviation St := (Sys D).

Lemma bind_factory_call {B} (s : St) c (k : Reply -> M B) :
  bind (factory_call vcs c) k s =
    k (typed c (vcs c (dev s)).1)
      {| obj := obj s; dev := (vcs c (dev s)).2;
         calls := calls s ++ [(c, typed c (vcs c (dev s)).1)]; log := log s |}.
Proof.
  unfold bind, factory_call. destruct (vcs c (dev s)) as [r d]. reflexivity.
Qed.

Lemma init_connect_Ret (s s1 : St) :
  init_connect vcs s = (Ret tt, s1) -> is_Some (node_handle_ (obj s1)).
Proof.
  unfold init_connect. rewrite bind_get_obj.
  destruct (valid_ (obj s)); cbn [negb].
  2:{ rewrite bind_log. discriminate. }
  rewrite bind_log, bind_factory_call, bind_modify_obj. cbn [obj dev calls log].
  destruct (typed _ _) as [h|o e]; cbn [succeeded negb].
  2:{ rewrite bind_log. discriminate. }
  intros H.
  assert (Hs : steps (same node_handle_)
                 (ROS_LOG INFO "Found Motor" ;;
                  VCS vcs (SetProtocolStackSettings 1000000 500) ;;
                  VCS vcs SetDisableState)) by steps_go_full.
  apply (steps_run _ _ _ _ _ Hs) in H. unfold same in H. rewrite H. simpl.
  destruct (obj s). simpl. eexists; reflexivity.
Qed.

Lemma init_configure_Ret fuel (s s1 : St) :
  init_configure vcs fuel s = (Ret tt, s1) -> is_Some (node_handle_ (obj s1)).
Proof.
  unfold init_configure. intros H.
  apply bind_Ret in H. destruct H as ([] & s0 & E & H).
  apply init_connect_Ret in E.
  match type of H with ?m s0 = _ =>
    assert (Hs : steps (same node_handle_) m) by (unfold_init; steps_go_full)
  end.
  apply (steps_run _ _ _ _ _ Hs) in H. unfold same in H. rewrite H. exact E.
Qed.

(** A run of [init] is a run of the configuration blocks that ended it, or a
    completed run of them followed by a run of the fault block. *)
Lemma init_cases fuel (s : St) r s' :
  init vcs fuel s = (r, s') ->
  (r <> Ret tt /\ has_init_ (obj s') = has_init_ (obj s) /\
   exists pre, calls s' = calls s ++ pre /\
               Forall (fun cr => is_config_call (fst cr) = true) pre) \/
  (exists s1 pre,
     init_configure vcs fuel s = (Ret tt, s1) /\
     init_faults_and_enable vcs s1 = (r, s') /\
     is_Some (node_handle_ (obj s1)) /\
     has_init_ (obj s1) = has_init_ (obj s) /\
     config_nh_ (obj s1) = config_nh_ (obj s) /\
     calls s1 = calls s ++ pre /\
     Forall (fun cr => is_config_call (fst cr) = true) pre).
Proof.
  unfold init. intros H.
  destruct (init_configure vcs fuel s) as [r1 s1] eqn:E.
  pose proof (steps_run _ _ _ _ _ (init_configure_same_has_init vcs fuel) E) as Hi.
  pose proof (steps_run _ _ _ _ _ (init_configure_emits vcs fuel) E) as (pre & Hpre & HF).
  assert (Hc : config_nh_ (obj s1) = config_nh_ (obj s)).
  { assert (Hs : steps (same config_nh_) (init_configure vcs fuel))
      by (unfold_init; steps_go_full).
    exact (steps_run _ _ _ _ _ Hs E). }
  unfold bind in H. rewrite E in H.
  destruct r1 as [[]| | |].
  - right. exists s1, pre. repeat split; try assumption.
    apply (init_configure_Ret fuel s). exact E.
  - left. inversion H; subst. split; [discriminate|]. split; [exact Hi|]. eauto.
  - left. inversion H; subst. split; [discriminate|]. split; [exact Hi|]. eauto.
  - left. inversion H; subst. split; [discriminate|]. split; [exact Hi|]. eauto.
Qed.

(** A successful [init] leaves an initialized driver with a node handle. *)
Lemma init_Ret_operational fuel (s s' : St) :
  init vcs fuel s = (Ret tt, s') -> operational s'.
Proof.
  intros H. apply init_cases in H.
  destruct H as [[Hr _] | (s1 & pre & _ & H & Hh & _)]; [congruence|].
  split.
  - apply init_faults_and_enable_runs in H; [|exact Hh].
    destruct H as (t & _ & _ & _ & Hi). exact Hi.
  - same_of node_handle_ H. rewrite H. exact Hh.
Qed.

(** The loop of [VCS_SET_OBJECT] has no normal exit: with any budget it ends
    in [return false] or runs out of budget. *)
Lemma VCS_SET_OBJECT_never_completes fuel i si d len msg : forall (s : St),
  fst (VCS_SET_OBJECT vcs fuel i si d len msg s) <> Ret tt.
Proof.
  induction fuel as [|n IH]; intros s; simpl; [discriminate|].
  unfold bind at 1. destruct (call vcs (SetObject i si d len) s) as [[r| | |] s1];
    simpl; try discriminate.
  destruct (succeeded r); [apply IH | discriminate].
Qed.

(** Hence the fault reaction block completes only when no option is
    configured. *)
Lemma init_fault_reaction_Ret fuel (s s' : St) :
  init_fault_reaction vcs fuel s = (Ret tt, s') ->
  getParam getParam_string (config_nh_ (obj s)) "fault_reaction_option" = None.
Proof.
  unfold init_fault_reaction, SET_FAULT_REACTION_OPTION. rewrite bind_get_obj.
  destruct (getParam getParam_string (config_nh_ (obj s)) "fault_reaction_option")
    as [str|]; [|reflexivity].
  intros H. exfalso.
  repeat match type of H with
         | (if ?b then _ else _) _ = _ => destruct b
         end;
    try (apply (f_equal fst) in H; simpl in H;
         exact (VCS_SET_OBJECT_never_completes fuel _ _ _ _ _ s H)).
  rewrite bind_log in H. discriminate H.
Qed.

End InitFacts2.

Section FaultPolicy.
Context {D : Type}.
Variable vcs : Call -> D -> Reply * D.
Local Abbreviation St := (Sys D).

Lemma code_queries_count codes c :
  Forall is_code_query codes -> (forall i, c <> GetDeviceErrorCode i) ->
  count_occ Call_eq_dec (issued codes) c = 0%nat.
Proof.
  intros H Hc. induction H as [|[c' r'] l [i Hi] _ IH]; simpl; [reflexivity|].
  simpl in Hi. subst c'. destruct (Call_eq_dec (GetDeviceErrorCode i) c) as [E|E].
  - exfalso. apply (Hc i). symmetry. exact E.
  - exact IH.
Qed.

Lemma code_queries_not_in codes c :
  Forall is_code_query codes -> (forall i, c <> GetDeviceErrorCode i) ->
  ~ In c (issued codes).
Proof.
  intros H Hc Hin. apply (count_occ_In Call_eq_dec) in Hin.
  rewrite code_queries_count in Hin by assumption. lia.
Qed.

Lemma cleared_count n k :
  cleared n k -> (count_occ Call_eq_dec (issued k) ClearFault <= 1)%nat.
Proof.
  unfold cleared. destruct (n >? 0); [intros [y ->] | intros ->]; simpl; lia.
Qed.

Lemma issued_app t1 t2 : issued (t1 ++ t2) = issued t1 ++ issued t2.
Proof. apply map_app. Qed.

Lemma config_calls_not_in pre c :
  Forall (fun cr => is_config_call (fst cr) = true) pre -> is_config_call c = false ->
  ~ In c (issued pre).
Proof.
  intros H Hc Hin. unfold issued in Hin. apply in_map_iff in Hin.
  destruct Hin as ([c' r'] & Heq & Hin). simpl in Heq. subst c'.
  rewrite List.Forall_forall in H. specialize (H _ Hin). simpl in H. congruence.
Qed.

Lemma FaultRun_clear_count cf r t :
  FaultRun cf r t -> (count_occ Call_eq_dec (issued t) ClearFault <= 1)%nat.
Proof.
  intros H. destruct H; unfold issued; simpl;
    rewrite ?map_app, ?count_occ_app; simpl;
    repeat match goal with
      | Hc : Forall is_code_query ?c |- _ =>
          pose proof (code_queries_count c ClearFault Hc ltac:(discriminate));
          clear Hc
      | Hk : cleared _ ?k |- _ => pose proof (cleared_count _ _ Hk); clear Hk
      end;
    unfold issued in *; lia.
Qed.

(** C10: whenever [init] returns true, the calls it issued end with a fault
    enumeration that reported exactly zero errors, immediately followed by
    the enable command. That enumeration is the second one of the fault
    block: it is issued in every completed run, after the clearing step
    ([k]), also when the first one counted no error ([n = 0], [k = []]).
    [has_init_] is then true. *)
Theorem init_true_verified_fault_free fuel (s s' : St) :
  init vcs fuel s = (Ret tt, s') ->
  has_init_ (obj s') = true /\
  exists pre n codes k x,
    calls s' =
      calls s ++ pre ++ (GetNbOfDeviceError, Success n) :: codes ++ k
      ++ [(GetNbOfDeviceError, Success 0); (SetEnableState, Success x)] /\
    Forall (fun cr => is_config_call (fst cr) = true) pre /\
    Forall is_code_query codes /\
    cleared n k.
Proof.
  intros H. apply init_cases in H.
  destruct H as [[Hr _] | (s1 & pre & _ & H & Hh & _ & _ & Hpre & HF)]; [congruence|].
  apply init_faults_and_enable_runs in H; [|exact Hh].
  destruct H as (t & Ht & Hrun & _ & Hi). split; [exact Hi|].
  inversion Hrun; subst.
  exists pre, n, codes, k, x. rewrite Ht, Hpre, <- app_assoc.
  repeat split; assumption.
Qed.

Lemma read_not_init fr (s : St) : has_init_ (obj s) = false -> read vcs fr s = (Ret tt, s).
Proof. intros H. unfold read. rewrite bind_get_obj, H. reflexivity. Qed.

Lemma write_not_init (s : St) : has_init_ (obj s) = false -> write vcs s = (Ret tt, s).
Proof. intros H. unfold write. rewrite bind_get_obj, H. reflexivity. Qed.

Lemma init_not_true_keeps_has_init fuel (s s' : St) r :
  init vcs fuel s = (r, s') -> r <> Ret tt -> has_init_ (obj s') = has_init_ (obj s).
Proof.
  intros H Hr. apply init_cases in H.
  destruct H as [(_ & Hi & _) | (s1 & pre & _ & H & Hh & Hi & _)]; [exact Hi|].
  apply init_faults_and_enable_runs in H; [|exact Hh].
  destruct H as (t & _ & _ & _ & Hi'). rewrite Hi', <- Hi.
  destruct r as [[]| | |]; [congruence | reflexivity..].
Qed.

(** C7: if [init] returns false on a driver that was not initialized,
    [has_init_] stays false, and every later sequence of [read] and [write]
    returns with the whole system unchanged: no call is issued, and no member
    of the driver is modified. The same holds in every later state in which
    [has_init_] is still what [init] left. *)
Theorem failed_init_makes_cycles_noops fuel (s s' : St) :
  has_init_ (obj s) = false ->
  init vcs fuel s = (Fail, s') ->
  has_init_ (obj s') = false /\
  (forall ops, run_cycles vcs ops s' = (Ret tt, s')) /\
  (forall s'' ops,
     has_init_ (obj s'') = has_init_ (obj s') -> run_cycles vcs ops s'' = (Ret tt, s'')).
Proof.
  intros H0 H.
  assert (Hi : has_init_ (obj s') = false).
  { rewrite (init_not_true_keeps_has_init fuel s s' Fail H); [exact H0 | discriminate]. }
  assert (Hall : forall s'' ops,
            has_init_ (obj s'') = has_init_ (obj s') ->
            run_cycles vcs ops s'' = (Ret tt, s'')).
  { intros s'' ops Hs. rewrite Hi in Hs.
    induction ops as [|[fr|] ops IH]; simpl.
    - reflexivity.
    - rewrite (bind_eq _ _ _ _ _ (read_not_init fr s'' Hs)). exact IH.
    - rewrite (bind_eq _ _ _ _ _ (write_not_init s'' Hs)). exact IH. }
  split; [exact Hi|]. split; [|exact Hall].
  intros ops. apply Hall. reflexivity.
Qed.

End FaultPolicy.

Lemma run_eq {S A} (p : Res A * S) r : fst p = r -> p = (r, snd p).
Proof. destruct p. simpl. intros ->. reflexivity. Qed.

(** ** The parameter groups of init *)

Section GroupFacts.
Context {D : Type}.
Variable vcs : Call -> D -> Reply * D.
Local Abbreviation St := (Sys D).

Lemma all_or_none_or_return_Ret {B} nh attrs (k : bool -> M B) (s : St) b s' :
  bind (all_or_none_or_return (load attrs (make nh))) k s = (Ret b, s') ->
  partial nh attrs = false.
Proof.
  intros H. apply bind_Ret in H. destruct H as (a & s1 & E & _).
  unfold all_or_none_or_return in E. rewrite all_or_none_load in E.
  rewrite partial_spec.
  destruct (forallb (present nh) attrs); [reflexivity|].
  destruct (forallb (absent nh) attrs); [reflexivity|].
  rewrite bind_assoc in E || idtac.
  unfold bind, ROS_LOG_lines, fail in E. simpl in E. discriminate.
Qed.

Ltac block_partial :=
  intros H;
  repeat (rewrite param_eq in H; cbv beta iota in H);
  match type of H with
  | bind (all_or_none_or_return ?L) _ _ = _ =>
      match L with context [make ?nh] =>
        match goal with |- partial _ ?attrs = false =>
          change L with (load attrs (make nh)) in H
        end
      end
  end;
  exact (all_or_none_or_return_Ret _ _ _ _ _ _ H).

Lemma init_dc_motor_Ret nh (s s' : St) :
  init_dc_motor vcs (child nh "motor") s = (Ret tt, s') -> group_partial nh dc_motor_group = false.
Proof. unfold init_dc_motor, make_child, group_partial, dc_motor_group. cbn [g_nh g_attrs]. block_partial. Qed.

Lemma init_ec_motor_Ret nh (s s' : St) :
  init_ec_motor vcs (child nh "motor") s = (Ret tt, s') -> group_partial nh ec_motor_group = false.
Proof. unfold init_ec_motor, make_child, group_partial, ec_motor_group. cbn [g_nh g_attrs]. block_partial. Qed.

Lemma init_incremental_encoder_Ret nh (s s' : St) :
  init_incremental_encoder vcs (child nh "sensor") s = (Ret tt, s') -> group_partial nh incremental_encoder_group = false.
Proof. unfold init_incremental_encoder, make_child, group_partial, incremental_encoder_group. cbn [g_nh g_attrs]. block_partial. Qed.

Lemma init_hall_sensor_Ret nh (s s' : St) :
  init_hall_sensor vcs (child nh "sensor") s = (Ret tt, s') -> group_partial nh hall_sensor_group = false.
Proof. unfold init_hall_sensor, make_child, group_partial, hall_sensor_group. cbn [g_nh g_attrs]. block_partial. Qed.

Lemma init_ssi_absolute_encoder_Ret nh (s s' : St) :
  init_ssi_absolute_encoder vcs (child nh "sensor") s = (Ret tt, s') -> group_partial nh ssi_absolute_encoder_group = false.
Proof. unfold init_ssi_absolute_encoder, make_child, group_partial, ssi_absolute_encoder_group. cbn [g_nh g_attrs]. block_partial. Qed.

Lemma init_position_regulator_gain_Ret nh (s s' : St) :
  init_position_regulator_gain vcs (child nh "position_regulator") s = (Ret tt, s') -> group_partial nh position_regulator_gain_group = false.
Proof. unfold init_position_regulator_gain, make_child, group_partial, position_regulator_gain_group. cbn [g_nh g_attrs]. block_partial. Qed.

Lemma init_position_regulator_feed_forward_Ret nh (s s' : St) :
  init_position_regulator_feed_forward vcs (child nh "position_regulator") s = (Ret tt, s') -> group_partial nh position_regulator_feed_forward_group = false.
Proof. unfold init_position_regulator_feed_forward, make_child, group_partial, position_regulator_feed_forward_group. cbn [g_nh g_attrs]. block_partial. Qed.

Lemma init_velocity_regulator_gain_Ret nh (s s' : St) :
  init_velocity_regulator_gain vcs (child nh "velocity_regulator") s = (Ret tt, s') -> group_partial nh velocity_regulator_gain_group = false.
Proof. unfold init_velocity_regulator_gain, make_child, group_partial, velocity_regulator_gain_group. cbn [g_nh g_attrs]. block_partial. Qed.

Lemma init_velocity_regulator_feed_forward_Ret nh (s s' : St) :
  init_velocity_regulator_feed_forward vcs (child nh "velocity_regulator") s = (Ret tt, s') -> group_partial nh velocity_regulator_feed_forward_group = false.
Proof. unfold init_velocity_regulator_feed_forward, make_child, group_partial, velocity_regulator_feed_forward_group. cbn [g_nh g_attrs]. block_partial. Qed.

Lemma init_current_regulator_gain_Ret nh (s s' : St) :
  init_current_regulator_gain vcs (child nh "current_regulator") s = (Ret tt, s') -> group_partial nh current_regulator_gain_group = false.
Proof. unfold init_current_regulator_gain, make_child, group_partial, current_regulator_gain_group. cbn [g_nh g_attrs]. block_partial. Qed.

Lemma init_position_profile_values_Ret nh (s s' : St) :
  init_position_profile_values vcs (child nh "position_profile") s = (Ret tt, s') -> group_partial nh position_profile_group = false.
Proof. unfold init_position_profile_values, make_child, group_partial, position_profile_group. cbn [g_nh g_attrs]. block_partial. Qed.

Lemma init_position_profile_window_Ret nh (s s' : St) :
  init_position_profile_window vcs (child nh "position_profile") s = (Ret tt, s') -> group_partial nh position_profile_window_group = false.
Proof. unfold init_position_profile_window, make_child, group_partial, position_profile_window_group. cbn [g_nh g_attrs]. block_partial. Qed.

Lemma init_velocity_profile_values_Ret nh (s s' : St) :
  init_velocity_profile_values vcs (child nh "velocity_profile") s = (Ret tt, s') -> group_partial nh velocity_profile_group = false.
Proof. unfold init_velocity_profile_values, make_child, group_partial, velocity_profile_group. cbn [g_nh g_attrs]. block_partial. Qed.

Lemma init_velocity_profile_window_Ret nh (s s' : St) :
  init_velocity_profile_window vcs (child nh "velocity_profile") s = (Ret tt, s') -> group_partial nh velocity_profile_window_group = false.
Proof. unfold init_velocity_profile_window, make_child, group_partial, velocity_profile_window_group. cbn [g_nh g_attrs]. block_partial. Qed.

Lemma config_nh_set_nominal_current_ v e :
  config_nh_ (set_nominal_current_ v e) = config_nh_ e.
Proof. destruct e; reflexivity. Qed.

Lemma config_nh_set_max_current_ v e : config_nh_ (set_max_current_ v e) = config_nh_ e.
Proof. destruct e; reflexivity. Qed.

Lemma config_nh_set_encoder_resolution_ v e :
  config_nh_ (set_encoder_resolution_ v e) = config_nh_ e.
Proof. destruct e; reflexivity. Qed.

Ltac open_phase H :=
  repeat first
    [ rewrite bind_log in H | rewrite bind_modify_obj in H | rewrite bind_get_obj in H ];
  cbn [obj dev calls log] in H;
  repeat first
    [ rewrite config_nh_set_nominal_current_ in H
    | rewrite config_nh_set_max_current_ in H
    | rewrite config_nh_set_encoder_resolution_ in H ].

Ltac next_block H E :=
  apply bind_Ret in H; destruct H as ([] & ? & E & H).

Lemma init_motor_Ret fuel (s s' : St) :
  init_motor vcs fuel s = (Ret tt, s') ->
  group_partial (config_nh_ (obj s)) dc_motor_group = false /\
  group_partial (config_nh_ (obj s)) ec_motor_group = false.
Proof.
  unfold init_motor. intros H. open_phase H.
  apply bind_Ret in H. destruct H as (? & ? & _ & H).
  next_block H E1. next_block H E2.
  split; [exact (init_dc_motor_Ret _ _ _ E1) | exact (init_ec_motor_Ret _ _ _ E2)].
Qed.

Lemma init_sensor_Ret (s s' : St) :
  init_sensor vcs s = (Ret tt, s') ->
  group_partial (config_nh_ (obj s)) incremental_encoder_group = false /\
  group_partial (config_nh_ (obj s)) hall_sensor_group = false /\
  group_partial (config_nh_ (obj s)) ssi_absolute_encoder_group = false.
Proof.
  unfold init_sensor. intros H. open_phase H.
  apply bind_Ret in H. destruct H as (? & ? & _ & H).
  next_block H E1. next_block H E2. next_block H E3.
  split; [exact (init_incremental_encoder_Ret _ _ _ E1)|].
  split; [exact (init_hall_sensor_Ret _ _ _ E2)
         | exact (init_ssi_absolute_encoder_Ret _ _ _ E3)].
Qed.

Lemma init_position_regulator_Ret (s s' : St) :
  init_position_regulator vcs s = (Ret tt, s') ->
  group_partial (config_nh_ (obj s)) position_regulator_gain_group = false /\
  group_partial (config_nh_ (obj s)) position_regulator_feed_forward_group = false.
Proof.
  unfold init_position_regulator. intros H. open_phase H. next_block H E1.
  split; [exact (init_position_regulator_gain_Ret _ _ _ E1)
         | exact (init_position_regulator_feed_forward_Ret _ _ _ H)].
Qed.

Lemma init_velocity_regulator_Ret (s s' : St) :
  init_velocity_regulator vcs s = (Ret tt, s') ->
  group_partial (config_nh_ (obj s)) velocity_regulator_gain_group = false /\
  group_partial (config_nh_ (obj s)) velocity_regulator_feed_forward_group = false.
Proof.
  unfold init_velocity_regulator. intros H. open_phase H. next_block H E1.
  split; [exact (init_velocity_regulator_gain_Ret _ _ _ E1)
         | exact (init_velocity_regulator_feed_forward_Ret _ _ _ H)].
Qed.

Lemma init_current_regulator_Ret (s s' : St) :
  init_current_regulator vcs s = (Ret tt, s') ->
  group_partial (config_nh_ (obj s)) current_regulator_gain_group = false.
Proof.
  unfold init_current_regulator. intros H. open_phase H.
  exact (init_current_regulator_gain_Ret _ _ _ H).
Qed.

Lemma init_position_profile_Ret (s s' : St) :
  init_position_profile vcs s = (Ret tt, s') ->
  group_partial (config_nh_ (obj s)) position_profile_group = false /\
  group_partial (config_nh_ (obj s)) position_profile_window_group = false.
Proof.
  unfold init_position_profile. intros H. open_phase H. next_block H E1.
  split; [exact (init_position_profile_values_Ret _ _ _ E1)
         | exact (init_position_profile_window_Ret _ _ _ H)].
Qed.

Lemma init_velocity_profile_Ret (s s' : St) :
  init_velocity_profile vcs s = (Ret tt, s') ->
  group_partial (config_nh_ (obj s)) velocity_profile_group = false /\
  group_partial (config_nh_ (obj s)) velocity_profile_window_group = false.
Proof.
  unfold init_velocity_profile. intros H. open_phase H. next_block H E1.
  split; [exact (init_velocity_profile_values_Ret _ _ _ E1)
         | exact (init_velocity_profile_window_Ret _ _ _ H)].
Qed.

(** The configuration blocks of a completed run, one by one. *)
Lemma init_configure_blocks fuel (s s' : St) :
  init_configure vcs fuel s = (Ret tt, s') ->
  exists s1 s2 s3 s4 s5 s6 s7 s8 s9 s10 s11,
    init_connect vcs s = (Ret tt, s1) /\
    init_initial_mode vcs s1 = (Ret tt, s2) /\
    init_fault_reaction vcs fuel s2 = (Ret tt, s3) /\
    init_torque_constant s3 = (Ret tt, s4) /\
    init_motor vcs fuel s4 = (Ret tt, s5) /\
    init_sensor vcs s5 = (Ret tt, s6) /\
    init_safety vcs s6 = (Ret tt, s7) /\
    init_position_regulator vcs s7 = (Ret tt, s8) /\
    init_velocity_regulator vcs s8 = (Ret tt, s9) /\
    init_current_regulator vcs s9 = (Ret tt, s10) /\
    init_position_profile vcs s10 = (Ret tt, s11) /\
    init_velocity_profile vcs s11 = (Ret tt, s').
Proof.
  unfold init_configure. intros H.
  do 11 (apply bind_Ret in H; destruct H as ([] & ? & ? & H)).
  eexists _, _, _, _, _, _, _, _, _, _, _. repeat split; eassumption.
Qed.

Lemma init_Ret_groups fuel (s s' : St) :
  init vcs fuel s = (Ret tt, s') ->
  Forall (fun g => group_partial (config_nh_ (obj s)) g = false) parameter_groups.
Proof.
  unfold init. intros H. apply bind_Ret in H. destruct H as ([] & s12 & H & _).
  apply init_configure_blocks in H.
  destruct H as (s1 & s2 & s3 & s4 & s5 & s6 & s7 & s8 & s9 & s10 & s11 &
                 E1 & E2 & E3 & E4 & E5 & E6 & E7 & E8 & E9 & E10 & E11 & E12).
  pose proof (init_motor_Ret _ _ _ E5) as [G1 G2].
  pose proof (init_sensor_Ret _ _ E6) as (G3 & G4 & G5).
  pose proof (init_position_regulator_Ret _ _ E8) as [G6 G7].
  pose proof (init_velocity_regulator_Ret _ _ E9) as [G8 G9].
  pose proof (init_current_regulator_Ret _ _ E10) as G10.
  pose proof (init_position_profile_Ret _ _ E11) as [G11 G12].
  pose proof (init_velocity_profile_Ret _ _ E12) as [G13 G14].
  same_of config_nh_ E1. same_of config_nh_ E2. same_of config_nh_ E3. same_of config_nh_ E4.
  same_of config_nh_ E5. same_of config_nh_ E6. same_of config_nh_ E7. same_of config_nh_ E8.
  same_of config_nh_ E9. same_of config_nh_ E10. same_of config_nh_ E11.
  assert (C4 : config_nh_ (obj s4) = config_nh_ (obj s)) by congruence.
  assert (C5 : config_nh_ (obj s5) = config_nh_ (obj s)) by congruence.
  assert (C7 : config_nh_ (obj s7) = config_nh_ (obj s)) by congruence.
  assert (C8 : config_nh_ (obj s8) = config_nh_ (obj s)) by congruence.
  assert (C9 : config_nh_ (obj s9) = config_nh_ (obj s)) by congruence.
  assert (C10 : config_nh_ (obj s10) = config_nh_ (obj s)) by congruence.
  assert (C11 : config_nh_ (obj s11) = config_nh_ (obj s)) by congruence.
  rewrite C4 in G1, G2. rewrite C5 in G3, G4, G5. rewrite C7 in G6, G7.
  rewrite C8 in G8, G9. rewrite C9 in G10. rewrite C10 in G11, G12.
  rewrite C11 in G13, G14.
  unfold parameter_groups. repeat constructor; assumption.
Qed.

End GroupFacts.

Section GroupRule.
Context {D : Type}.
Variable vcs : Call -> D -> Reply * D.
Local Abbreviation St := (Sys D).

(** C4: a group of [n] attributes of which [k] are present. The validator
    succeeds with [found_all = true] for [k = n]; it succeeds with
    [found_all = false] for [k = 0]; for [0 < k < n] it fails and logs the
    namespace, the names found and the names expected, and the idiom around
    it returns false. [init] does not return true when one of its fourteen
    groups is partial. *)
Theorem all_or_none_rule (nh : NodeHandle) (attrs : list Attr) (found_all : option bool) :
  let l := load attrs (make nh) in
  let k := count_present nh attrs in
  let n := length attrs in
  (k = n -> all_or_none l found_all = (true, Some true, [])) /\
  (k = 0%nat -> n <> 0%nat -> all_or_none l found_all = (true, Some false, [])) /\
  ((0 < k < n)%nat ->
     all_or_none l found_all = (false, found_all, report l) /\
     report l =
       (ERROR, "Expected all or none parameter set: (" +:+ getNamespace nh +:+ ")")
       :: map (fun name => (ERROR, tab +:+ "Found: " +:+ resolveName nh name))
              (names_where (present nh) attrs)
       ++ map (fun name => (ERROR, tab +:+ "Expected: " +:+ resolveName nh name))
              (names_where (absent nh) attrs) /\
     forall s : St,
       all_or_none_or_return l s =
         (Fail, {| obj := obj s; dev := dev s; calls := calls s;
                   log := log s ++ report l |})) /\
  (forall fuel (s : St) r s' g,
     In g parameter_groups -> nh = g_nh g (config_nh_ (obj s)) -> attrs = g_attrs g ->
     (0 < k < n)%nat -> init vcs fuel s = (r, s') -> r <> Ret tt).
Proof.
  intros l k n. subst l k n.
  pose proof (all_or_none_load nh attrs found_all) as Hload.
  unfold count_present.
  split; [|split; [|split]].
  - intros Hk. apply filter_length_all in Hk. rewrite Hk in Hload. exact Hload.
  - intros Hk Hn. apply filter_length_none in Hk. fold (absent nh) in Hk.
    destruct (forallb (present nh) attrs) eqn:E.
    + apply filter_length_all in E. apply filter_length_none in Hk.
      rewrite Hk in E. congruence.
    + rewrite Hk in Hload. exact Hload.
  - intros Hk. apply partial_count in Hk. rewrite partial_spec in Hk.
    apply andb_true_iff in Hk. rewrite !negb_true_iff in Hk. destruct Hk as [E1 E2].
    rewrite E1, E2 in Hload. split; [exact Hload|]. split.
    + unfold report. rewrite load_nh.
      destruct (load_lists attrs (make nh)) as [-> ->]. reflexivity.
    + intros s. unfold all_or_none_or_return.
      rewrite (all_or_none_load nh attrs None), E1, E2. reflexivity.
  - intros fuel s r s' g Hg -> -> Hk H Hr. subst r.
    apply init_Ret_groups in H. rewrite List.Forall_forall in H. specialize (H g Hg).
    apply partial_count in Hk. unfold group_partial in H. congruence.
Qed.

End GroupRule.

(** ** Cyclic write *)

Section WriteFacts.
Context {D : Type}.
Variable vcs : Call -> D -> Reply * D.
Local Abbreviation St := (Sys D).

Lemma call_ignored (s : St) c :
  is_Some (node_handle_ (obj s)) ->
  (call vcs c ;; ret tt) s = (Ret tt, after_call vcs c s).
Proof. intros H. rewrite bind_call by exact H. reflexivity. Qed.

Lemma max_profile_velocity_set v e :
  max_profile_velocity_ (set_max_profile_velocity_ v e) = v.
Proof. destruct e; reflexivity. Qed.

Lemma VCS_obj c (s s' : St) r : VCS vcs c s = (r, s') -> obj s' = obj s.
Proof.
  intros H.
  assert (Hs : steps (same (fun e => e)) (VCS vcs c)) by (apply same_VCS).
  exact (steps_run _ _ _ _ _ Hs H).
Qed.

Lemma optional_param_Ret nh name func (s s' : St) v :
  VCS_FROM_SINGLE_PARAM_OPTIONAL vcs nh name func s = (Ret v, s') ->
  v = getParam getParam_int nh name /\ obj s' = obj s.
Proof.
  unfold VCS_FROM_SINGLE_PARAM_OPTIONAL. destruct (getParam getParam_int nh name) as [x|].
  - intros H. apply bind_Ret in H. destruct H as ([] & s1 & E & H).
    inversion H; subst. split; [reflexivity|]. exact (VCS_obj _ _ _ _ E).
  - intros H. inversion H; subst. split; reflexivity.
Qed.

Lemma init_safety_Ret (s s' : St) :
  init_safety vcs s = (Ret tt, s') ->
  max_profile_velocity_ (obj s') =
    default (-1) (getParam getParam_int (child (config_nh_ (obj s)) "safety")
                    "max_profile_velocity").
Proof.
  unfold init_safety. intros H. rewrite bind_log, bind_get_obj in H. cbn [obj] in H.
  apply bind_Ret in H. destruct H as (v1 & s1 & E1 & H).
  apply bind_Ret in H. destruct H as (v2 & s2 & E2 & H).
  apply bind_Ret in H. destruct H as (v3 & s3 & E3 & H).
  apply optional_param_Ret in E2. destruct E2 as [-> _].
  destruct (getParam getParam_int _ "max_profile_velocity") as [v|];
    inversion H; subst; simpl; apply max_profile_velocity_set.
Qed.

(** After a successful [init], [max_profile_velocity_] is the configured
    limit, or -1 when none is configured. *)
Lemma init_max_profile_velocity fuel (s s' : St) :
  init vcs fuel s = (Ret tt, s') ->
  max_profile_velocity_ (obj s') =
    default (-1) (getParam getParam_int (child (config_nh_ (obj s)) "safety")
                    "max_profile_velocity").
Proof.
  unfold init. intros H. apply bind_Ret in H. destruct H as ([] & s12 & H & F).
  apply init_configure_blocks in H.
  destruct H as (s1 & s2 & s3 & s4 & s5 & s6 & s7 & s8 & s9 & s10 & s11 &
                 E1 & E2 & E3 & E4 & E5 & E6 & E7 & E8 & E9 & E10 & E11 & E12).
  apply init_safety_Ret in E7.
  same_of config_nh_ E1. same_of config_nh_ E2. same_of config_nh_ E3. same_of config_nh_ E4.
  same_of config_nh_ E5. same_of config_nh_ E6.
  same_of max_profile_velocity_ E8. same_of max_profile_velocity_ E9. same_of max_profile_velocity_ E10. same_of max_profile_velocity_ E11. same_of max_profile_velocity_ E12. same_of max_profile_velocity_ F.
  rewrite F, E12, E11, E10, E9, E8, E7. do 3 f_equal. congruence.
Qed.

Lemma clamp_range max c :
  0 <= max ->
  let sent := (let c' := if c <? - max then - max else c in
               if c' >? max then max else c') in
  - max <= sent <= max /\
  (- max <= c <= max -> sent = c) /\ (c < - max -> sent = - max) /\ (max < c -> sent = max).
Proof.
  intros Hmax. cbv zeta.
  destruct (c <? - max) eqn:E1; [apply Z.ltb_lt in E1 | apply Z.ltb_ge in E1].
  - destruct (- max >? max) eqn:E2; [apply Z.gtb_lt in E2; lia|].
    repeat split; lia.
  - destruct (c >? max) eqn:E2;
      [apply Z.gtb_lt in E2 | rewrite Z.gtb_ltb in E2; apply Z.ltb_ge in E2];
      repeat split; lia.
Qed.

(** C3: [write] in the profile velocity mode with physical units. The
    command is converted from rad/s to rpm ([c]) and then clamped to
    [[-max, max]] when the limit [max] is not negative; with the sentinel -1,
    which is what [init] stores when no limit is configured, the converted
    value is sent as it is. *)
Theorem write_profile_velocity_clamps (s : St) (c : Z) :
  operational s ->
  operation_mode_ (obj s) = Some PROFILE_VELOCITY_MODE ->
  rw_ros_units_ (obj s) = true ->
  Num.isnan (velocity_cmd_ (obj s)) = false ->
  Num.to_int (velocity_cmd_ (obj s) * 30 / Num.M_PI)%float = Some c ->
  let max := max_profile_velocity_ (obj s) in
  (forall fuel s0, init vcs fuel s0 = (Ret tt, s) ->
     max = default (-1) (getParam getParam_int (child (config_nh_ (obj s0)) "safety")
                           "max_profile_velocity")) /\
  exists sent,
    write vcs s =
      (Ret tt,
       after_call vcs (if (sent =? 0) && halt_velocity_ (obj s)
                       then HaltVelocityMovement else MoveWithVelocity sent) s) /\
    (0 <= max ->
       - max <= sent <= max /\ (- max <= c <= max -> sent = c) /\
       (c < - max -> sent = - max) /\ (max < c -> sent = max)) /\
    (max = -1 -> sent = c).
Proof.
  intros [Hi Hh] Hm Hu Hn Hc max. split.
  { intros fuel s0 H. apply init_max_profile_velocity in H. exact H. }
  unfold write. rewrite bind_get_obj, Hi, Hm, Hn, Hu, Hc. cbn [negb].
  unfold defined. rewrite (bind_eq _ _ _ c s eq_refl). fold max.
  destruct (max >=? 0) eqn:Emax.
  - rewrite Z.geb_leb in Emax. apply Z.leb_le in Emax.
    exists (let c' := if c <? - max then - max else c in
            if c' >? max then max else c').
    cbv zeta. split.
    + match goal with |- (if ?b then _ else _) _ = _ => destruct b end;
        apply call_ignored; exact Hh.
    + split; [intros _; apply clamp_range; exact Emax | lia].
  - rewrite Z.geb_leb in Emax. apply Z.leb_gt in Emax.
    exists c. split.
    + match goal with |- (if ?b then _ else _) _ = _ => destruct b end;
        apply call_ignored; exact Hh.
    + split; [lia | reflexivity].
Qed.

Lemma to_short_spec c :
  -32768 <= Num.to_short c <= 32767 /\
  Num.to_short c mod 2 ^ 16 = c mod 2 ^ 16 /\
  (-32768 <= c <= 32767 -> Num.to_short c = c).
Proof.
  unfold Num.to_short, Num.wrap_signed.
  change (2 ^ (16 - 1)) with 32768. change (2 ^ 16) with 65536.
  pose proof (Z.mod_pos_bound (c + 32768) 65536 ltac:(lia)) as Hb.
  split; [lia|]. split.
  - rewrite Zminus_mod, Zmod_mod, <- Zminus_mod. f_equal. lia.
  - intros Hc. rewrite Z.mod_small by lia. lia.
Qed.

(** C9: [write] in the current mode with physical units computes the
    setpoint [c = (int)(torque_cmd / torque_constant * 1000)] and passes it
    for the [short] parameter of [SetCurrentMust]. The device receives
    [sent], the 16-bit value congruent to [c] modulo 2^16: [c] itself when
    [c] is within -32768 .. 32767 mA. *)
Theorem write_current_milliamps (s : St) (c : Z) :
  operational s ->
  operation_mode_ (obj s) = Some CURRENT_MODE ->
  rw_ros_units_ (obj s) = true ->
  Num.isnan (torque_cmd_ (obj s)) = false ->
  Num.to_int (torque_cmd_ (obj s) / torque_constant_ (obj s) * 1000)%float = Some c ->
  exists sent,
    write vcs s = (Ret tt, after_call vcs (SetCurrentMust sent) s) /\
    -32768 <= sent <= 32767 /\
    sent mod 2 ^ 16 = c mod 2 ^ 16 /\
    (-32768 <= c <= 32767 -> sent = c).
Proof.
  intros [Hi Hh] Hm Hu Hn Hc. exists (Num.to_short c).
  split; [|apply to_short_spec].
  unfold write. rewrite bind_get_obj, Hi, Hm, Hn, Hu. cbn [negb].
  unfold torqueToCurrent. rewrite Hc. unfold defined.
  rewrite (bind_eq _ _ _ c s eq_refl). apply call_ignored. exact Hh.
Qed.

End WriteFacts.

(** ** Controller switch, constructor and cyclic read *)

Section CycleFacts.
Context {D : Type}.
Variable vcs : Call -> D -> Reply * D.
Variable SerialNumberFromHex : string -> option Z.
Variable GetErrorInfo : Z -> option string.
Local Abbreviation St := (Sys D).

(** [doSwitch] leaves [operation_mode_] as it is. *)
Lemma doSwitch_same_operation_mode start_list stop_list :
  steps (same operation_mode_) (doSwitch vcs start_list stop_list).
Proof. induction start_list as [|c l IH]; simpl; steps_go. Qed.

(** With a node handle, [doSwitch] issues one mode-set command per starting
    controller that the mode map knows, with the mapped mode, in order. *)
Lemma doSwitch_calls start_list stop_list : forall (s : St),
  is_Some (node_handle_ (obj s)) ->
  exists s',
    doSwitch vcs start_list stop_list s = (Ret tt, s') /\
    obj s' = obj s /\
    issued (drop (length (calls s)) (calls s')) =
      omap (fun c => SetOperationMode <$> (operation_mode_map_ (obj s) !! ci_name c))
           start_list.
Proof.
  induction start_list as [|c l IH]; intros s Hh; simpl.
  - exists s. rewrite drop_all. repeat split; reflexivity.
  - rewrite bind_get_obj.
    destruct (operation_mode_map_ (obj s) !! ci_name c) as [m|] eqn:Em; simpl.
    + rewrite !bind_assoc, bind_call by exact Hh. cbv beta.
      unfold bind at 1. unfold ret at 1.
      match goal with |- context [doSwitch vcs l stop_list ?s1] =>
        destruct (IH s1 Hh) as (s' & Hrun & Hobj & Hcalls) end.
      exists s'. split; [exact Hrun|]. split; [exact Hobj|].
      simpl in Hcalls. rewrite length_app in Hcalls. simpl in Hcalls.
      assert (Hpre : exists t, calls s' = (calls s ++ [(SetOperationMode m,
                 typed (SetOperationMode m) (vcs (SetOperationMode m) (dev s)).1)]) ++ t).
      { assert (Hs : steps (emits (fun _ => true)) (doSwitch vcs l stop_list)).
        { clear. induction l as [|c l IH]; simpl; steps_go. }
        destruct (steps_run _ _ _ _ _ Hs Hrun) as (t & Ht & _). exists t. exact Ht. }
      destruct Hpre as (t & Ht). rewrite Ht in Hcalls |- *.
      rewrite <- app_assoc. rewrite drop_app_length.
      rewrite drop_app_length' in Hcalls by (rewrite length_app; simpl; lia).
      simpl. unfold issued in *. simpl. f_equal. exact Hcalls.
    + unfold bind at 1. unfold ret at 1. apply IH. exact Hh.
Qed.

(** *** The constructor and the first writes *)

Lemma Epos_ctor_fields name nh mem e :
  Epos_ctor SerialNumberFromHex name nh mem = Some e ->
  position_cmd_ e = 0%float /\ velocity_cmd_ e = 0%float /\
  torque_cmd_ e = torque_cmd_ mem /\ operation_mode_ e = operation_mode_ mem /\
  has_init_ e = false.
Proof.
  unfold Epos_ctor.
  destruct (match getParam getParam_string nh "serial_number" with
            | Some str => SerialNumberFromHex str
            | None => Some (serial_number_ mem)
            end); [|discriminate].
  intros H. inversion H; subst. simpl. repeat split; reflexivity.
Qed.

Lemma clamp_zero max :
  (if max >=? 0
   then let cmd := if 0 <? - max then - max else 0 in
        if cmd >? max then max else cmd
   else 0) = 0.
Proof.
  destruct (max >=? 0) eqn:E; [|reflexivity].
  rewrite Z.geb_leb in E. apply Z.leb_le in E. cbv zeta.
  destruct (0 <? - max) eqn:E1; [apply Z.ltb_lt in E1; lia|].
  destruct (0 >? max) eqn:E2; [apply Z.gtb_lt in E2; lia | reflexivity].
Qed.

(** C2, amended: the constructor sets [position_cmd_] and [velocity_cmd_] to
    0, which is not NaN. [write] skips the motion command when the command of
    the active mode is NaN; with the constructed value an initialized driver
    sends velocity 0 (a halt when [halt_velocity_] is set) in the profile
    velocity mode, and position 0 in the profile position mode with raw
    units. *)
Theorem constructed_commands_are_zero name nh mem e (s : St) :
  Epos_ctor SerialNumberFromHex name nh mem = Some e ->
  position_cmd_ e = 0%float /\ velocity_cmd_ e = 0%float /\
  Num.isnan (position_cmd_ e) = false /\ Num.isnan (velocity_cmd_ e) = false /\
  (operational s -> velocity_cmd_ (obj s) = velocity_cmd_ e ->
   operation_mode_ (obj s) = Some PROFILE_VELOCITY_MODE ->
   write vcs s =
     (Ret tt, after_call vcs (if halt_velocity_ (obj s) then HaltVelocityMovement
                              else MoveWithVelocity 0) s)) /\
  (operational s -> position_cmd_ (obj s) = position_cmd_ e ->
   operation_mode_ (obj s) = Some PROFILE_POSITION_MODE ->
   rw_ros_units_ (obj s) = false ->
   write vcs s = (Ret tt, after_call vcs (MoveToPosition 0 true true) s)) /\
  (operational s ->
   match operation_mode_ (obj s) with
   | Some PROFILE_VELOCITY_MODE => Num.isnan (velocity_cmd_ (obj s)) = true
   | Some PROFILE_POSITION_MODE => Num.isnan (position_cmd_ (obj s)) = true
   | Some CURRENT_MODE => Num.isnan (torque_cmd_ (obj s)) = true
   | None => True
   end ->
   write vcs s = (Ret tt, s)).
Proof.
  intros Hc. apply Epos_ctor_fields in Hc. destruct Hc as (Hp & Hv & _).
  rewrite Hp, Hv. do 4 (split; [reflexivity|]). split; [|split].
  - intros [Hi Hh] Hcmd Hm. unfold write.
    rewrite bind_get_obj, Hi, Hm, Hcmd. cbn [negb].
    change (Num.isnan 0) with false. cbv iota.
    assert (Hz : (if rw_ros_units_ (obj s)
                  then Num.to_int (0 * 30 / Num.M_PI)%float
                  else Num.to_int 0%float) = Some 0)
      by (destruct (rw_ros_units_ (obj s)); vm_compute; reflexivity).
    rewrite Hz. unfold defined. rewrite (bind_eq _ _ _ 0 s eq_refl).
    rewrite clamp_zero. change (0 =? 0) with true. cbn [andb].
    destruct (halt_velocity_ (obj s)); apply call_ignored; exact Hh.
  - intros [Hi Hh] Hcmd Hm Hu. unfold write.
    rewrite bind_get_obj, Hi, Hm, Hcmd, Hu. cbn [negb].
    change (Num.isnan 0) with false. cbv iota.
    change (Num.to_int 0%float) with (Some 0). unfold defined.
    rewrite (bind_eq _ _ _ 0 s eq_refl). apply call_ignored. exact Hh.
  - intros [Hi Hh] Hnan. unfold write. rewrite bind_get_obj, Hi. cbn [negb].
    destruct (operation_mode_ (obj s)) as [[| |]|]; try rewrite Hnan; reflexivity.
Qed.

(** *** read *)

Lemma node_handle_set_statusword_ v e :
  node_handle_ (set_statusword_ v e) = node_handle_ e.
Proof. destruct e; reflexivity. Qed.

Lemma statusword_set_statusword_ v e : statusword_ (set_statusword_ v e) = v.
Proof. destruct e; reflexivity. Qed.

Lemma read_runs fr (s : St) :
  operational s ->
  exists s' t,
    read vcs fr s = (Ret tt, s') /\
    calls s' = calls s ++ t /\
    issued t = read_calls (obj s) /\
    statusword_ (obj s') =
      stored (typed (GetObject 0x6041 0x00 2) (vcs (GetObject 0x6041 0x00 2) (dev s)).1)
             (statusword_ (obj s)).
Proof.
  intros [Hi Hh]. unfold read, read_calls. rewrite bind_get_obj, Hi. cbn [negb].
  rewrite bind_call by exact Hh. cbv beta. rewrite bind_modify_obj. cbn [obj dev calls log].
  set (r0 := typed (GetObject 24641 0 2) (vcs (GetObject 24641 0 2) (dev s)).1).
  assert (Hh1 : is_Some (node_handle_ (set_statusword_ (stored r0 (statusword_ (obj s))) (obj s))))
    by (rewrite node_handle_set_statusword_; exact Hh).
  rewrite bind_call by exact Hh1. cbv beta. cbn [obj dev calls log].
  rewrite bind_call by exact Hh1. cbv beta. cbn [obj dev calls log].
  rewrite bind_call by exact Hh1. cbv beta. cbn [obj dev calls log].
  set (m := if rw_ros_units_ (obj s) then _ else _).
  assert (Hm : steps (same node_handle_) m /\ steps (same statusword_) m
               /\ steps (emits (fun _ => false)) m).
  { subst m. split; [|split]; steps_go. }
  destruct Hm as (Hm1 & Hm2 & Hm3).
  match goal with |- context [bind m ?k ?s1] =>
    assert (Hret : exists s2, m s1 = (Ret tt, s2));
      [|destruct Hret as (s2 & Hret);
        pose proof (steps_run _ _ _ _ _ Hm1 Hret) as Hn;
        pose proof (steps_run _ _ _ _ _ Hm2 Hret) as Hw;
        pose proof (steps_run _ _ _ _ _ Hm3 Hret) as (t3 & Ht3 & HF3);
        rewrite (bind_eq _ _ _ _ _ Hret)]
  end.
  { subst m. destruct (rw_ros_units_ (obj s)); eexists; reflexivity. }
  unfold same in Hn, Hw. cbn [obj calls] in Hn, Hw, Ht3.
  assert (t3 = []) as ->.
  { destruct t3 as [|x t3]; [reflexivity|]. inversion HF3; discriminate. }
  rewrite app_nil_r in Ht3.
  destruct (bool_decide (power_supply_name_ (obj s) = "")); cbn [negb].
  - eexists s2, _. split; [reflexivity|]. split; [rewrite Ht3, <- !app_assoc; reflexivity|].
    split; [reflexivity|]. rewrite Hw. apply statusword_set_statusword_.
  - rewrite bind_call by (rewrite Hn; exact Hh1). cbv beta.
    eexists _, _. split; [reflexivity|]. cbn [obj dev calls log].
    split; [rewrite Ht3, <- !app_assoc; reflexivity|].
    split; [reflexivity|].
    destruct (obj s2) eqn:Es2. simpl. simpl in Hw. rewrite Hw.
    apply statusword_set_statusword_.
Qed.

End CycleFacts.

Section ReadRule.
Context {D : Type}.
Variable vcs : Call -> D -> Reply * D.
Local Abbreviation St := (Sys D).

(** C6, amended: on an initialized driver [read] returns normally whatever
    the device answers, after issuing all of its calls; the statusword keeps
    its previous value when the failed query left its buffer untouched. *)
Theorem read_survives_failed_calls fr (s : St) :
  operational s ->
  exists s' t,
    read vcs fr s = (Ret tt, s') /\
    calls s' = calls s ++ t /\
    issued t = read_calls (obj s) /\
    (forall e,
       typed (GetObject 0x6041 0x00 2) (vcs (GetObject 0x6041 0x00 2) (dev s)).1
         = Failure None e ->
       statusword_ (obj s') = statusword_ (obj s)).
Proof.
  intros Hop. destruct (read_runs vcs fr s Hop) as (s' & t & Hrun & Hcalls & Hiss & Hsw).
  exists s', t. repeat split; try assumption.
  intros e He. rewrite Hsw, He. reflexivity.
Qed.

End ReadRule.

(** ** The motor status report *)

Module StatusFacts.
Import DiagnosticStatus.


Lemma add_level k v stat : level (add k v stat) = level stat.
Proof. reflexivity. Qed.



End StatusFacts.

Section StatusReport.
Context {D : Type}.
Variable vcs : Call -> D -> Reply * D.
Variable GetErrorInfo : Z -> option string.
Local Abbreviation St := (Sys D).
Import DiagnosticStatus StatusFacts.




End StatusReport.

(** * Further properties *)

(** ** Bring-up stops at the first failed call *)

Section FailFast.
Context {D : Type}.
Variable vcs : Call -> D -> Reply * D.
Local Abbreviation St := (Sys D).

Lemma all_succeeded_removelast t : all_succeeded t -> all_succeeded (removelast t).
Proof.
  unfold all_succeeded. induction 1 as [|x [|y l] Hx Hl IH]; simpl; constructor; auto.
Qed.

Lemma all_succeeded_app_removelast t1 t2 :
  all_succeeded t1 -> all_succeeded (removelast t2) -> all_succeeded (removelast (t1 ++ t2)).
Proof.
  intros H1 H2. destruct t2 as [|x t2].
  - rewrite app_nil_r. apply all_succeeded_removelast, H1.
  - rewrite removelast_app by discriminate. apply Forall_app. split; assumption.
Qed.

Lemma fail_fast_quiet {A} (m : @M St A) :
  (forall s, calls (snd (m s)) = calls s) -> fail_fast m.
Proof.
  intros H s r s' E. exists []. rewrite app_nil_r. specialize (H s). rewrite E in H.
  split; [exact H|]. destruct (is_ret r); constructor.
Qed.

Lemma fail_fast_bind {A B} (m : @M St A) (k : A -> M B) :
  fail_fast m -> (forall a, fail_fast (k a)) -> fail_fast (bind m k).
Proof.
  intros Hm Hk s r s' E. apply bind_cases in E.
  destruct E as [(a & s1 & E1 & E2) | [E1 Hr]].
  - destruct (Hm _ _ _ E1) as (t1 & C1 & F1). destruct (Hk a _ _ _ E2) as (t2 & C2 & F2).
    exists (t1 ++ t2). rewrite C2, C1, app_assoc. split; [reflexivity|].
    simpl in F1. destruct (is_ret r).
    + apply Forall_app. split; assumption.
    + apply all_succeeded_app_removelast; assumption.
  - destruct (Hm _ _ _ E1) as (t1 & C1 & F1). exists t1. split; [exact C1|].
    destruct r as [b| | |]; [destruct (Hr b eq_refl) | exact F1..].
Qed.

(** A call whose failure ends the run at once. *)
Lemma fail_fast_factory_call {B} c (k : Reply -> @M St B) :
  (forall r, succeeded r = true -> fail_fast (k r)) ->
  (forall r s, succeeded r = false ->
     is_ret (fst (k r s)) = false /\ calls (snd (k r s)) = calls s) ->
  fail_fast (bind (factory_call vcs c) k).
Proof.
  intros Hok Hko s r s' E. rewrite bind_factory_call in E.
  set (r0 := typed c (vcs c (dev s)).1) in *.
  destruct (succeeded r0) eqn:Er.
  - destruct (Hok r0 Er _ _ _ E) as (t & C & F). cbn [calls] in C.
    exists ((c, r0) :: t). rewrite C, <- app_assoc. split; [reflexivity|].
    destruct (is_ret r).
    + constructor; [exact Er | exact F].
    + apply (all_succeeded_app_removelast [(c, r0)] t); [|exact F].
      constructor; [exact Er | constructor].
  - match type of E with k r0 ?s1 = _ => destruct (Hko r0 s1 Er) as [Hr Hc] end.
    rewrite E in Hr, Hc. cbn [fst snd calls] in Hr, Hc.
    exists [(c, r0)]. split; [exact Hc|]. rewrite Hr. constructor.
Qed.

Lemma fail_fast_call {B} c (k : Reply -> @M St B) :
  (forall r, succeeded r = true -> fail_fast (k r)) ->
  (forall r s, succeeded r = false ->
     is_ret (fst (k r s)) = false /\ calls (snd (k r s)) = calls s) ->
  fail_fast (bind (call vcs c) k).
Proof.
  intros Hok Hko s r s' E.
  destruct (node_handle_ (obj s)) as [h|] eqn:Eh.
  - apply (fail_fast_factory_call c k Hok Hko s r s').
    unfold bind, call in E |- *. rewrite Eh in E. exact E.
  - unfold bind, call in E. rewrite Eh in E. inversion E; subst.
    exists []. rewrite app_nil_r. split; [reflexivity | constructor].
Qed.

Lemma fail_fast_VCS_SET_OBJECT fuel i si d len msg :
  fail_fast (VCS_SET_OBJECT vcs fuel i si d len msg).
Proof.
  induction fuel as [|n IH]; simpl.
  - apply fail_fast_quiet. reflexivity.
  - apply fail_fast_call.
    + intros r Hr. rewrite Hr. exact IH.
    + intros r s Hr. rewrite Hr. split; reflexivity.
Qed.

Lemma fail_fast_init_error_codes n : forall i, fail_fast (init_error_codes vcs n i).
Proof.
  induction n as [|n IH]; intros i; simpl.
  - apply fail_fast_quiet. reflexivity.
  - apply fail_fast_call.
    + intros [v|o e] Hr; [|discriminate]. apply fail_fast_bind; [|intros ?; apply IH].
      apply fail_fast_quiet. reflexivity.
    + intros [v|o e] s Hr; [discriminate|]. split; reflexivity.
Qed.

End FailFast.

Ltac fail_fast_leaf :=
  first
    [ apply fail_fast_VCS_SET_OBJECT
    | apply fail_fast_init_error_codes
    | apply fail_fast_quiet; intros ?; reflexivity
    | apply fail_fast_quiet; intros ?;
      match goal with |- context [defined ?o] => destruct o; reflexivity end ].

Ltac fail_fast_go :=
  repeat first
    [ fail_fast_leaf
    | (apply fail_fast_call || apply fail_fast_factory_call);
      [ intros [?|? ?] ?; [|discriminate]; cbn [succeeded negb]
      | intros [?|? ?] ? ?; [discriminate|]; split; reflexivity ]
    | apply fail_fast_bind; [|intros ?]
    | match goal with
      | |- fail_fast (match ?x with _ => _ end) => destruct x
      | |- fail_fast (let '(_, _) := ?x in _) => destruct x
      end
    | assumption ].

Section FailFastInit.
Context {D : Type}.
Variable vcs : Call -> D -> Reply * D.
Local Abbreviation St := (Sys D).

Lemma fail_fast_init fuel : fail_fast (init vcs fuel).
Proof. unfold_init. fail_fast_go. Qed.

(** X1: every run of [init], however it ends, stops at the first device call
    that fails: all calls but the last one succeeded. When [init] returns
    true, every call it issued succeeded. *)
Theorem init_stops_at_first_failure fuel (s s' : St) r :
  init vcs fuel s = (r, s') ->
  exists t,
    calls s' = calls s ++ t /\
    all_succeeded (removelast t) /\
    (r = Ret tt -> all_succeeded t).
Proof.
  intros H. destruct (fail_fast_init fuel _ _ _ H) as (t & C & F).
  exists t. split; [exact C|]. split.
  - destruct (is_ret r); [apply all_succeeded_removelast|]; exact F.
  - intros ->. exact F.
Qed.

End FailFastInit.

(** ** The fault policy of a bring-up *)

Section FaultPolicyRuns.
Context {D : Type}.
Variable vcs : Call -> D -> Reply * D.
Local Abbreviation St := (Sys D).

Lemma cleared_pos n k : 0 < n -> cleared n k -> exists y, k = [(ClearFault, Success y)].
Proof.
  unfold cleared. intros Hn. apply Z.gtb_lt in Hn. rewrite Hn. trivial.
Qed.

Lemma all_succeeded_middle (a b c : list (Call * Reply)) :
  c <> [] -> all_succeeded (removelast (a ++ b ++ c)) -> all_succeeded b.
Proof.
  intros Hc H. rewrite app_assoc, removelast_app in H by exact Hc.
  unfold all_succeeded in *. apply Forall_app in H. destruct H as [H _].
  apply Forall_app in H. destruct H as [_ H]. exact H.
Qed.

(** C5: a bring-up that reaches the fault query ([s1]) with the device
    reporting [n > 0] errors. After the calls of the configuration ([pre])
    and the enumeration that reported [n], [init] issues queries of error
    codes ([codes]) and then the calls [t].

    Without [clear_faults], [init] returns false and [t] holds nothing but
    queries of error codes: neither a clear nor an enable command is issued.

    With [clear_faults], the queries [codes] all succeeded, and [t] is one
    of six. A query of an error code failed: [init] returns false with no
    clear attempt. Otherwise there is exactly one clear attempt. When it
    fails, [init] returns false and the faults are not enumerated again.
    When it succeeds, the next call enumerates the faults again; [init]
    returns false when this call fails or reports a positive number, and the
    enable command is issued only after it reported zero. [init] returns
    true exactly when that enable command succeeds. *)
Theorem init_fault_policy fuel (s s1 s' : St) r n :
  init_configure vcs fuel s = (Ret tt, s1) ->
  typed GetNbOfDeviceError (vcs GetNbOfDeviceError (dev s1)).1 = Success n ->
  0 < n ->
  init vcs fuel s = (r, s') ->
  let clear_faults := param_or getParam_bool (config_nh_ (obj s)) "clear_faults" false in
  exists pre codes t,
    calls s1 = calls s ++ pre /\
    calls s' = calls s ++ pre ++ (GetNbOfDeviceError, Success n) :: codes ++ t /\
    ~ In SetEnableState (issued pre) /\
    Forall is_code_query codes /\
    (clear_faults = false ->
       r = Fail /\ Forall is_code_query t /\
       ~ In ClearFault (issued (codes ++ t)) /\
       ~ In SetEnableState (issued (codes ++ t))) /\
    (clear_faults = true ->
       all_succeeded codes /\
       ((r = Fail /\ exists i o e, t = [(GetDeviceErrorCode i, Failure o e)]) \/
        (r = Fail /\ exists o e, t = [(ClearFault, Failure o e)]) \/
        (r = Fail /\ exists y o e,
           t = [(ClearFault, Success y); (GetNbOfDeviceError, Failure o e)]) \/
        (r = Fail /\ exists y m,
           0 < m /\ t = [(ClearFault, Success y); (GetNbOfDeviceError, Success m)]) \/
        (r = Fail /\ exists y o e,
           t = [(ClearFault, Success y); (GetNbOfDeviceError, Success 0);
                (SetEnableState, Failure o e)]) \/
        (r = Ret tt /\ exists y x,
           t = [(ClearFault, Success y); (GetNbOfDeviceError, Success 0);
                (SetEnableState, Success x)]))).
Proof.
  intros Hcfg Hn0 Hn H cf.
  pose proof (init_configure_Ret vcs fuel s s1 Hcfg) as Hh.
  pose proof (steps_run _ _ _ _ _ (init_configure_emits vcs fuel) Hcfg) as (pre & Hpre & HF).
  assert (Hnh : config_nh_ (obj s1) = config_nh_ (obj s)).
  { assert (Hs : steps (same config_nh_) (init_configure vcs fuel))
      by (unfold_init; steps_go_full).
    exact (steps_run _ _ _ _ _ Hs Hcfg). }
  destruct (fail_fast_init vcs fuel _ _ _ H) as (T & HT & Hok).
  assert (Hok' : all_succeeded (removelast T))
    by (destruct (is_ret r); [apply all_succeeded_removelast|]; exact Hok).
  clear Hok.
  unfold init in H. rewrite (bind_eq _ _ _ _ _ Hcfg) in H.
  apply init_faults_and_enable_runs in H; [|exact Hh].
  destruct H as (t & Ht & Hrun & Hhd & _). rewrite Hnh in Hrun. fold cf in Hrun.
  rewrite Hn0 in Hhd.
  assert (HTt : T = pre ++ t).
  { rewrite Ht, Hpre, <- app_assoc in HT. apply app_inv_head in HT. symmetry. exact HT. }
  subst T.
  assert (Hcodes : forall codes rest,
            t = (GetNbOfDeviceError, Success n) :: codes ++ rest -> rest <> [] ->
            all_succeeded codes).
  { intros codes rest -> Hne.
    apply (all_succeeded_middle (pre ++ [(GetNbOfDeviceError, Success n)]) codes rest Hne).
    rewrite <- app_assoc. exact Hok'. }
  assert (Hpre' : ~ In SetEnableState (issued pre))
    by (apply config_calls_not_in; [exact HF | reflexivity]).
  assert (Hno : forall c codes i o e,
            Forall is_code_query codes -> (forall j, c <> GetDeviceErrorCode j) ->
            ~ In c (issued (codes ++ [(GetDeviceErrorCode i, Failure o e)]))).
  { intros c codes i o e Hc Hne. apply code_queries_not_in; [|exact Hne].
    apply Forall_app. split; [exact Hc|]. constructor; [exists i; reflexivity | constructor]. }
  inversion Hrun; subst; simpl in Hhd; inversion Hhd; subst;
    repeat match goal with
    | Hk : cleared n ?k |- _ =>
        destruct (cleared_pos n k Hn Hk) as [y ->]; clear Hk
    end.
  - (* an error code query failed *)
    exists pre, codes, [(GetDeviceErrorCode i, Failure o e)].
    split; [exact Hpre|]. split; [rewrite Ht, Hpre, <- app_assoc; reflexivity|].
    split; [exact Hpre'|]. split; [assumption|]. split.
    + intros _. split; [reflexivity|].
      split; [constructor; [exists i; reflexivity | constructor]|].
      split; apply Hno; (assumption || discriminate).
    + intros _. split; [eapply Hcodes; [reflexivity | discriminate]|].
      left. split; [reflexivity|]. exists i, o, e. reflexivity.
  - (* faults exist and are not cleared *)
    exists pre, codes, [].
    split; [exact Hpre|].
    split; [rewrite Ht, Hpre, <- app_assoc, app_nil_r; reflexivity|].
    split; [exact Hpre'|]. split; [assumption|]. split.
    + intros _. split; [reflexivity|]. split; [constructor|]. rewrite app_nil_r.
      split; apply code_queries_not_in; (assumption || discriminate).
    + congruence.
  - (* the clear attempt failed *)
    exists pre, codes, [(ClearFault, Failure o e)].
    split; [exact Hpre|]. split; [rewrite Ht, Hpre, <- app_assoc; reflexivity|].
    split; [exact Hpre'|]. split; [assumption|]. split; [congruence|].
    intros _. split; [eapply Hcodes; [reflexivity | discriminate]|].
    right. left. split; [reflexivity|]. exists o, e. reflexivity.
  - (* the second enumeration failed *)
    exists pre, codes, [(ClearFault, Success y); (GetNbOfDeviceError, Failure o e)].
    split; [exact Hpre|]. split; [rewrite Ht, Hpre, <- app_assoc; reflexivity|].
    split; [exact Hpre'|]. split; [assumption|]. split.
    + intros Hcf.
      match goal with Himp : 0 < n -> _ = true |- _ => specialize (Himp Hn); congruence end.
    + intros _. split; [eapply Hcodes; [reflexivity | discriminate]|].
      right. right. left. split; [reflexivity|]. exists y, o, e. reflexivity.
  - (* faults remain *)
    exists pre, codes, [(ClearFault, Success y); (GetNbOfDeviceError, Success m)].
    split; [exact Hpre|]. split; [rewrite Ht, Hpre, <- app_assoc; reflexivity|].
    split; [exact Hpre'|]. split; [assumption|]. split.
    + intros Hcf.
      match goal with Himp : 0 < n -> _ = true |- _ => specialize (Himp Hn); congruence end.
    + intros _. split; [eapply Hcodes; [reflexivity | discriminate]|].
      do 3 right. left. split; [reflexivity|]. exists y, m. split; [assumption | reflexivity].
  - (* the enable call failed *)
    exists pre, codes,
      [(ClearFault, Success y); (GetNbOfDeviceError, Success 0); (SetEnableState, Failure o e)].
    split; [exact Hpre|]. split; [rewrite Ht, Hpre, <- app_assoc; reflexivity|].
    split; [exact Hpre'|]. split; [assumption|]. split.
    + intros Hcf.
      match goal with Himp : 0 < n -> _ = true |- _ => specialize (Himp Hn); congruence end.
    + intros _. split; [eapply Hcodes; [reflexivity | discriminate]|].
      do 4 right. left. split; [reflexivity|]. exists y, o, e. reflexivity.
  - (* the drive is enabled *)
    exists pre, codes,
      [(ClearFault, Success y); (GetNbOfDeviceError, Success 0); (SetEnableState, Success x)].
    split; [exact Hpre|]. split; [rewrite Ht, Hpre, <- app_assoc; reflexivity|].
    split; [exact Hpre'|]. split; [assumption|]. split.
    + intros Hcf.
      match goal with Himp : 0 < n -> _ = true |- _ => specialize (Himp Hn); congruence end.
    + intros _. split; [eapply Hcodes; [reflexivity | discriminate]|].
      do 5 right. split; [reflexivity|]. exists y, x. reflexivity.
Qed.

End FaultPolicyRuns.

(** ** The connection block and the calls of a bring-up *)

Section MoreSteps.
Context {D : Type}.
Variable vcs : Call -> D -> Reply * D.
Local Abbreviation St := (Sys D).

Lemma emits_VCS_SET_OBJECT_any P fuel i si d len msg :
  P (SetObject i si d len) = true ->
  steps (emits P) (VCS_SET_OBJECT vcs fuel i si d len msg).
Proof.
  intros HP. induction fuel as [|n IH]; simpl; steps_go. apply emits_call, HP.
Qed.

End MoreSteps.

Ltac emits_go :=
  repeat first
    [ steps_leaf
    | apply same_VCS_SET_OBJECT
    | apply emits_VCS_SET_OBJECT_any; reflexivity
    | apply same_init_error_codes
    | apply emits_init_error_codes; reflexivity
    | apply steps_bind; [typeclasses eauto | | intros ?]
    | match goal with
      | |- steps _ (match ?x with _ => _ end) => destruct x
      end
    | assumption ].

Ltac run_prim :=
  repeat (first [ rewrite bind_assoc | rewrite bind_log | rewrite bind_get_obj
                | rewrite bind_modify_obj | rewrite bind_factory_call ];
          cbv beta; cbn [obj dev calls log]).

Ltac run_prim_in H :=
  repeat (first [ rewrite bind_assoc in H | rewrite bind_log in H | rewrite bind_get_obj in H
                | rewrite bind_modify_obj in H | rewrite bind_factory_call in H ];
          cbv beta in H; cbn [obj dev calls log] in H).

Ltac emits_of P E :=
  let Hs := fresh "Hs" in
  match type of E with
  | ?m ?s0 = _ =>
      assert (Hs : steps (emits P) m) by (unfold_init; emits_go);
      apply (steps_run _ _ _ _ _ Hs) in E; clear Hs
  end.

Section Connection.
Context {D : Type}.
Variable vcs : Call -> D -> Reply * D.
Local Abbreviation St := (Sys D).

(** [init] on a driver whose construction failed returns false at once. *)
Lemma init_invalid_driver fuel (s : St) :
  valid_ (obj s) = false ->
  init vcs fuel s =
    (Fail,
     {| obj := obj s; dev := dev s; calls := calls s;
        log := log s ++ [(ERROR, "Not Initializing: " +:+ HexString.of_Z (serial_number_ (obj s))
                                 +:+ ", initial construction failed")] |}).
Proof.
  intros Hv. unfold init, init_configure, init_connect.
  run_prim. rewrite Hv. cbn [negb]. run_prim. reflexivity.
Qed.

(** X3: when the factory finds no motor for the serial number, [init]
    returns false after that one call; the node handle is null and
    [has_init_] is what it was. *)
Theorem init_motor_not_found fuel (s : St) o e :
  valid_ (obj s) = true ->
  let c := CreateNodeHandle "EPOS4" "MAXON SERIAL V2" "USB" (serial_number_ (obj s)) in
  typed c (vcs c (dev s)).1 = Failure o e ->
  exists s',
    init vcs fuel s = (Fail, s') /\
    calls s' = calls s ++ [(c, Failure o e)] /\
    node_handle_ (obj s') = None /\
    has_init_ (obj s') = has_init_ (obj s).
Proof.
  intros Hv c Hc. unfold init, init_configure, init_connect.
  run_prim. rewrite Hv. cbn [negb]. run_prim. fold c. rewrite Hc.
  cbn [succeeded negb]. run_prim.
  eexists. split; [reflexivity|]. cbn [obj calls].
  split; [reflexivity|]. destruct (obj s); split; reflexivity.
Qed.

(** The connection block of a completed run. *)
Lemma init_connect_Ret_calls (s s1 : St) :
  init_connect vcs s = (Ret tt, s1) ->
  valid_ (obj s) = true /\
  exists h a b,
    typed (CreateNodeHandle "EPOS4" "MAXON SERIAL V2" "USB" (serial_number_ (obj s)))
      (vcs (CreateNodeHandle "EPOS4" "MAXON SERIAL V2" "USB" (serial_number_ (obj s)))
         (dev s)).1 = Success h /\
    calls s1 = calls s
      ++ [(CreateNodeHandle "EPOS4" "MAXON SERIAL V2" "USB" (serial_number_ (obj s)), Success h);
          (SetProtocolStackSettings 1000000 500, Success a);
          (SetDisableState, Success b)] /\
    obj s1 = set_node_handle_ (Some h) (obj s).
Proof.
  unfold init_connect. rewrite bind_get_obj.
  destruct (valid_ (obj s)); cbn [negb]; [|rewrite bind_log; discriminate].
  rewrite bind_log, bind_factory_call, bind_modify_obj. cbn [obj dev calls log].
  destruct (typed _ _) as [h|o e]; cbn [succeeded negb]; [|rewrite bind_log; discriminate].
  rewrite bind_log. cbn [obj dev calls log]. unfold VCS.
  assert (Hh : is_Some (node_handle_ (set_node_handle_ (Some h) (obj s))))
    by (destruct (obj s); eexists; reflexivity).
  rewrite bind_assoc, bind_call by exact Hh. cbv beta. cbn [obj dev calls log].
  destruct (typed (SetProtocolStackSettings _ _) _) as [a|o e]; cbn [succeeded];
    [|rewrite bind_assoc, bind_log; discriminate].
  unfold ret at 1. unfold bind at 1. rewrite bind_call by exact Hh. cbv beta.
  cbn [obj dev calls log].
  destruct (typed SetDisableState _) as [b|o e]; cbn [succeeded];
    [|rewrite bind_log; discriminate].
  intros H. inversion H; subst; clear H. cbn [obj calls].
  split; [reflexivity|]. exists h, a, b. rewrite <- !app_assoc.
  split; [reflexivity|]. split; reflexivity.
Qed.

Lemma init_initial_mode_Ret_calls (s s1 : St) :
  init_initial_mode vcs s = (Ret tt, s1) ->
  obj s1 = obj s /\
  match operation_mode_map_ (obj s) !! "" with
  | Some m => exists x, calls s1 = calls s ++ [(SetOperationMode m, Success x)]
  | None => calls s1 = calls s
  end.
Proof.
  unfold init_initial_mode. rewrite bind_get_obj.
  destruct (operation_mode_map_ (obj s) !! "") as [m|].
  - unfold VCS. intros H.
    destruct (node_handle_ (obj s)) as [h|] eqn:Eh.
    2:{ unfold bind, call in H. rewrite Eh in H. discriminate. }
    rewrite bind_call in H by (rewrite Eh; eexists; reflexivity).
    destruct (typed _ _) as [x|o e]; cbn [succeeded] in H;
      [|rewrite bind_log in H; discriminate].
    inversion H; subst; clear H. split; [reflexivity|]. exists x. reflexivity.
  - intros H. inversion H; subst; clear H. split; reflexivity.
Qed.

(** X4: a bring-up that returns true began by creating the node handle,
    setting the protocol stack to 1 Mbit/s with a timeout of 500 ms and
    disabling the drive, all with success; the initial operation mode
    follows when the mode map has an entry for the empty name; every later
    call sets a parameter or belongs to the fault block. The node handle of
    the driver is the one the factory returned. *)
Theorem init_begins_with_connection fuel (s s' : St) :
  init vcs fuel s = (Ret tt, s') ->
  exists h a b mode rest,
    calls s' = calls s
      ++ [(CreateNodeHandle "EPOS4" "MAXON SERIAL V2" "USB" (serial_number_ (obj s)), Success h);
          (SetProtocolStackSettings 1000000 500, Success a);
          (SetDisableState, Success b)]
      ++ mode ++ rest /\
    match operation_mode_map_ (obj s) !! "" with
    | Some m => exists x, mode = [(SetOperationMode m, Success x)]
    | None => mode = []
    end /\
    Forall (fun cr => is_parameter_call (fst cr) || is_fault_block_call (fst cr) = true) rest /\
    node_handle_ (obj s') = Some h.
Proof.
  unfold init, init_configure. intros H.
  rewrite bind_assoc in H. apply bind_Ret in H. destruct H as ([] & s1 & E1 & H).
  rewrite bind_assoc in H. apply bind_Ret in H. destruct H as ([] & s2 & E2 & H).
  apply init_connect_Ret_calls in E1. destruct E1 as (_ & h & a & b & _ & C1 & O1).
  apply init_initial_mode_Ret_calls in E2. destruct E2 as (O2 & C2).
  assert (Hn : node_handle_ (obj s') = node_handle_ (obj s2)).
  { same_of node_handle_ H. exact H. }
  emits_of (fun c => is_parameter_call c || is_fault_block_call c) H.
  destruct H as (rest & C3 & F3).
  assert (Hm : operation_mode_map_ (obj s1) = operation_mode_map_ (obj s))
    by (rewrite O1; destruct (obj s); reflexivity).
  rewrite Hm in C2.
  exists h, a, b.
  exists (match operation_mode_map_ (obj s) !! "" with
          | Some m => drop (length (calls s1)) (calls s2)
          | None => []
          end), rest.
  split; [|split; [|split]].
  - rewrite C3. destruct (operation_mode_map_ (obj s) !! "") as [m|].
    + destruct C2 as (x & C2). rewrite C2, drop_app_length, C1, <- !app_assoc. reflexivity.
    + rewrite C2, C1, <- !app_assoc. reflexivity.
  - destruct (operation_mode_map_ (obj s) !! "") as [m|]; [|reflexivity].
    destruct C2 as (x & C2). exists x. rewrite C2, drop_app_length. reflexivity.
  - exact F3.
  - rewrite Hn, O2, O1. destruct (obj s); reflexivity.
Qed.

(** X5: whatever the configuration and however the run ends, [init] issues
    only calls of the connection, of the configuration blocks and of the
    fault block: it never moves the motor and never reads its state. *)
Theorem init_issues_no_motion_command fuel (s : St) :
  exists t,
    calls (snd (init vcs fuel s)) = calls s ++ t /\
    Forall (fun cr => is_config_call (fst cr) || is_fault_block_call (fst cr) = true) t /\
    Forall (fun cr => is_motion_call (fst cr) = false /\ is_telemetry_call (fst cr) = false) t.
Proof.
  assert (Hs : steps (emits (fun c => is_config_call c || is_fault_block_call c))
                 (init vcs fuel)) by (unfold_init; emits_go).
  destruct (Hs s) as (t & C & F). exists t. split; [exact C|]. split; [exact F|].
  eapply Forall_impl; [exact F|]. intros [c r]. cbn [fst]. destruct c; simpl; auto; discriminate.
Qed.

(** The node handle after a run of [init]. *)
Lemma init_node_handle fuel (s s' : St) r :
  init vcs fuel s = (r, s') ->
  node_handle_ (obj s') =
    if valid_ (obj s)
    then handle_of
           (typed (CreateNodeHandle "EPOS4" "MAXON SERIAL V2" "USB" (serial_number_ (obj s)))
              (vcs (CreateNodeHandle "EPOS4" "MAXON SERIAL V2" "USB" (serial_number_ (obj s)))
                 (dev s)).1)
    else node_handle_ (obj s).
Proof.
  unfold init, init_configure, init_connect. run_prim.
  destruct (valid_ (obj s)); cbn [negb].
  2:{ run_prim. intros H. inversion H; subst. reflexivity. }
  run_prim. intros H. same_of node_handle_ H. rewrite H. cbn [obj].
  destruct (obj s); reflexivity.
Qed.

(** X6: the destructor after a bring-up, however the bring-up ended. When
    the factory had found the motor, destruction issues one disable command
    and ignores its answer; when it had not, destruction issues nothing. *)
Theorem dtor_disables_found_motor fuel (s s' : St) r :
  valid_ (obj s) = true ->
  init vcs fuel s = (r, s') ->
  let c := CreateNodeHandle "EPOS4" "MAXON SERIAL V2" "USB" (serial_number_ (obj s)) in
  Epos_dtor vcs s' =
    (Ret tt,
     if succeeded (typed c (vcs c (dev s)).1) then after_call vcs SetDisableState s' else s').
Proof.
  intros Hv H c. apply init_node_handle in H. rewrite Hv in H. fold c in H.
  unfold Epos_dtor. rewrite bind_get_obj.
  destruct (typed c (vcs c (dev s)).1) as [h|o e]; cbn [handle_of succeeded] in *.
  - rewrite H. apply call_ignored. rewrite H. eexists; reflexivity.
  - rewrite H. reflexivity.
Qed.

(** X7: [init] never clears [has_init_]: a driver that was initialized is
    still marked initialized after a later bring-up that failed. *)
Theorem init_never_clears_has_init fuel (s s' : St) r :
  has_init_ (obj s) = true ->
  init vcs fuel s = (r, s') ->
  has_init_ (obj s') = true.
Proof.
  intros Hi H. destruct r as [[]| | |].
  - apply init_Ret_operational in H. apply H.
  - rewrite (init_not_true_keeps_has_init vcs fuel s s' Fail H); [exact Hi | discriminate].
  - rewrite (init_not_true_keeps_has_init vcs fuel s s' Stuck H); [exact Hi | discriminate].
  - rewrite (init_not_true_keeps_has_init vcs fuel s s' Timeout H); [exact Hi | discriminate].
Qed.

End Connection.

(** ** What a completed bring-up has stored *)

Section MoreBinds.
Context {D : Type}.
Local Abbreviation St := (Sys D).

Lemma bind_ret {A B} (a : A) (k : A -> @M St B) s : bind (ret a) k s = k a s.
Proof. reflexivity. Qed.

Lemma bind_fail {A B} (k : A -> @M St B) s : bind fail k s = (Fail, s).
Proof. reflexivity. Qed.

Lemma bind_defined {A B} (o : option A) (k : A -> @M St B) s :
  bind (defined o) k s = match o with Some a => k a s | None => (Stuck, s) end.
Proof. destruct o; reflexivity. Qed.

Lemma bind_log_lines {B} (s : St) lines (k : unit -> M B) :
  bind (ROS_LOG_lines lines) k s =
    k tt {| obj := obj s; dev := dev s; calls := calls s; log := log s ++ lines |}.
Proof. reflexivity. Qed.

End MoreBinds.

Ltac run_block_in H :=
  repeat (first [ rewrite bind_assoc in H | rewrite bind_ret in H | rewrite bind_log in H
                | rewrite bind_log_lines in H | rewrite bind_modify_obj in H
                | rewrite bind_get_obj in H | rewrite bind_fail in H
                | rewrite bind_defined in H
                | match type of H with
                  | match ?o with Some _ => _ | None => _ end = _ =>
                      destruct o; [|discriminate H]
                  end ];
          cbv beta iota in H; cbn [obj dev calls log] in H).

Ltac open_loader :=
  unfold make_child, make, param; cbn [nh_ found_ not_found_];
  repeat (match goal with
          | |- context [match (match getParam ?g ?nh ?n with _ => _ end) with _ => _ end] =>
              let x := fresh "p" in destruct (getParam g nh n) as [x|]
          end; cbn [nh_ found_ not_found_]);
  unfold all_or_none_or_return, all_or_none;
  cbn [nh_ found_ not_found_ app length Nat.eqb];
  let H := fresh "H" in
  intros H; run_block_in H; try discriminate H.

Section Stored.
Context {D : Type}.
Variable vcs : Call -> D -> Reply * D.
Local Abbreviation St := (Sys D).

Lemma VCS_Ret c (s s' : St) :
  VCS vcs c s = (Ret tt, s') ->
  obj s' = obj s /\ exists x, calls s' = calls s ++ [(c, Success x)].
Proof.
  unfold VCS. intros H.
  destruct (node_handle_ (obj s)) as [h|] eqn:Eh.
  2:{ unfold bind, call in H. rewrite Eh in H. discriminate. }
  rewrite bind_call in H by (rewrite Eh; eexists; reflexivity).
  destruct (typed _ _) as [x|o e]; cbn [succeeded] in H;
    [|rewrite bind_log in H; discriminate].
  inversion H; subst; clear H. split; [reflexivity|]. exists x. reflexivity.
Qed.

Lemma required_param_Ret nh name func (s s' : St) v :
  VCS_FROM_SINGLE_PARAM_REQUIRED vcs nh name func s = (Ret v, s') ->
  getParam getParam_int nh name = Some v /\ obj s' = obj s /\
  exists x, calls s' = calls s ++ [(func v, Success x)].
Proof.
  unfold VCS_FROM_SINGLE_PARAM_REQUIRED. destruct (getParam getParam_int nh name) as [z|].
  - intros H. apply bind_Ret in H. destruct H as ([] & s1 & E & H).
    inversion H; subst. apply VCS_Ret in E. destruct E as [Ho Hc].
    split; [reflexivity|]. split; assumption.
  - rewrite bind_log. discriminate.
Qed.

(** *** The loop of [VCS_SET_OBJECT] *)



(** *** The motor block *)

Lemma init_dc_motor_currents nh (s s' : St) :
  init_dc_motor vcs nh s = (Ret tt, s') ->
  config_nh_ (obj s') = config_nh_ (obj s) /\
  match getParam getParam_double (child nh "dc_motor") "nominal_current",
        getParam getParam_double (child nh "dc_motor") "max_output_current" with
  | Some n, Some m => nominal_current_ (obj s') = n /\ max_current_ (obj s') = m
  | None, None => obj s' = obj s
  | _, _ => False
  end.
Proof.
  intros H. split; [same_of config_nh_ H; exact H|]. revert H.
  unfold init_dc_motor. open_loader.
  - apply VCS_Ret in H. destruct H as [-> _]. cbn [obj].
    destruct (obj s); split; reflexivity.
  - inversion H; subst. reflexivity.
Qed.

Lemma init_ec_motor_currents nh (s s' : St) :
  init_ec_motor vcs nh s = (Ret tt, s') ->
  config_nh_ (obj s') = config_nh_ (obj s) /\
  match getParam getParam_double (child nh "ec_motor") "nominal_current",
        getParam getParam_double (child nh "ec_motor") "max_output_current" with
  | Some n, Some m => nominal_current_ (obj s') = n /\ max_current_ (obj s') = m
  | None, None => obj s' = obj s
  | _, _ => False
  end.
Proof.
  intros H. split; [same_of config_nh_ H; exact H|]. revert H.
  unfold init_ec_motor. open_loader.
  - apply VCS_Ret in H. destruct H as [-> _]. cbn [obj].
    destruct (obj s); split; reflexivity.
  - inversion H; subst. reflexivity.
Qed.

Lemma init_motor_stores fuel (s s' : St) :
  init_motor vcs fuel s = (Ret tt, s') ->
  (nominal_current_ (obj s'), max_current_ (obj s')) = configured_currents (config_nh_ (obj s)) /\
  getParam getParam_double (child (config_nh_ (obj s)) "motor") "max_speed" = None /\
  torque_constant_ (obj s') = torque_constant_ (obj s) /\
  exists v x t1 t2,
    getParam getParam_int (child (config_nh_ (obj s)) "motor") "type" = Some v /\
    calls s' = calls s ++ t1 ++ (SetMotorType (Num.to_ushort v), Success x) :: t2.
Proof.
  intros H.
  assert (Ht : torque_constant_ (obj s') = torque_constant_ (obj s))
    by (same_of torque_constant_ H; exact H).
  revert H. unfold init_motor. intros H. run_block_in H.
  rewrite config_nh_set_max_current_, config_nh_set_nominal_current_ in H.
  set (nh := child (config_nh_ (obj s)) "motor") in *.
  apply bind_Ret in H. destruct H as (v & sA & EA & H).
  apply required_param_Ret in EA. destruct EA as (Hv & OA & x & CA). cbn [obj calls] in OA, CA.
  apply bind_Ret in H. destruct H as ([] & sB & EB & H).
  apply bind_Ret in H. destruct H as ([] & sC & EC & H).
  assert (Hmax : getParam getParam_double nh "max_speed" = None /\ sC = s').
  { destruct (getParam getParam_double nh "max_speed") as [ms|].
    - exfalso. run_block_in H.
      apply (f_equal fst) in H. simpl in H.
      exact (VCS_SET_OBJECT_never_completes vcs fuel _ _ _ _ _ _ H).
    - inversion H; subst. split; reflexivity. }
  destruct Hmax as [Hmax ->]. clear H.
  assert (CB : exists t, calls sB = calls sA ++ t).
  { emits_of (fun _ : Call => true) EB. destruct EB as (t & ? & _). eauto. }
  assert (CC : exists t, calls s' = calls sB ++ t).
  { emits_of (fun _ : Call => true) EC. destruct EC as (t & ? & _). eauto. }
  destruct CB as (tB & CB). destruct CC as (tC & CC).
  apply init_dc_motor_currents in EB. destruct EB as [NB EB].
  apply init_ec_motor_currents in EC. destruct EC as [NC EC].
  split; [|split; [exact Hmax|split; [exact Ht|]]].
  - unfold configured_currents. fold nh.
    destruct (getParam getParam_double (child nh "ec_motor") "nominal_current") as [n2|],
             (getParam getParam_double (child nh "ec_motor") "max_output_current") as [m2|];
      try contradiction.
    + destruct EC as [-> ->]. reflexivity.
    + rewrite EC.
      destruct (getParam getParam_double (child nh "dc_motor") "nominal_current") as [n1|],
               (getParam getParam_double (child nh "dc_motor") "max_output_current") as [m1|];
        try contradiction.
      * destruct EB as [-> ->]. reflexivity.
      * rewrite EB, OA. destruct (obj s); reflexivity.
  - exists v, x, [], (tB ++ tC). split; [exact Hv|].
    rewrite CC, CB, CA, <- !app_assoc. reflexivity.
Qed.

(** *** The sensor block *)

Lemma init_incremental_encoder_resolution nh (s s' : St) :
  init_incremental_encoder vcs nh s = (Ret tt, s') ->
  match getParam getParam_int (child nh "incremental_encoder") "resolution",
        getParam getParam_bool (child nh "incremental_encoder") "inverted_polarity" with
  | Some res, Some inv =>
      (if inv : bool then Num.neg_int res else Some res) = Some (encoder_resolution_ (obj s'))
  | None, None => obj s' = obj s
  | _, _ => False
  end.
Proof.
  unfold init_incremental_encoder. open_loader.
  - apply bind_Ret in H. destruct H as ([] & s1 & E & H).
    apply VCS_Ret in E. destruct E as [O1 _].
    destruct p0.
    + run_block_in H. inversion H; subst. cbn [obj]. rewrite O1.
      destruct (obj s); reflexivity.
    + inversion H; subst. cbn [obj]. rewrite O1. destruct (obj s); reflexivity.
  - inversion H; subst. reflexivity.
Qed.

Lemma init_ssi_absolute_encoder_resolution nh (s s' : St) :
  init_ssi_absolute_encoder vcs nh s = (Ret tt, s') ->
  match getParam getParam_int (child nh "ssi_absolute_encoder") "number_of_singleturn_bits",
        getParam getParam_bool (child nh "ssi_absolute_encoder") "inverted_polarity" with
  | Some bits, Some inv =>
      exists r, Num.shl1 bits = Some r /\
                encoder_resolution_ (obj s') = if inv : bool then - r else r
  | None, None => obj s' = obj s
  | _, _ => False
  end.
Proof.
  unfold init_ssi_absolute_encoder. open_loader.
  - apply bind_Ret in H. destruct H as ([] & s1 & E & H).
    apply VCS_Ret in E. destruct E as [O1 _].
    run_block_in H. eexists. split; [reflexivity|].
    destruct p2; inversion H; subst; cbn [obj]; rewrite O1; destruct (obj s); reflexivity.
  - inversion H; subst. reflexivity.
Qed.

Lemma init_sensor_stores (s s' : St) :
  init_sensor vcs s = (Ret tt, s') ->
  configured_resolution (config_nh_ (obj s)) = Some (encoder_resolution_ (obj s')) /\
  encoder_resolution_ (obj s') <> 0 /\
  exists v x t1 t2,
    getParam getParam_int (child (config_nh_ (obj s)) "sensor") "type" = Some v /\
    calls s' = calls s ++ t1 ++ (SetSensorType (Num.to_ushort v), Success x) :: t2.
Proof.
  unfold init_sensor. intros H. run_block_in H.
  rewrite config_nh_set_encoder_resolution_ in H.
  set (nh := child (config_nh_ (obj s)) "sensor") in *.
  apply bind_Ret in H. destruct H as (v & sA & EA & H).
  apply required_param_Ret in EA. destruct EA as (Hv & OA & x & CA). cbn [obj calls] in OA, CA.
  apply bind_Ret in H. destruct H as ([] & sB & EB & H).
  apply bind_Ret in H. destruct H as ([] & sC & EC & H).
  apply bind_Ret in H. destruct H as ([] & sD & ED & H).
  run_block_in H.
  destruct (encoder_resolution_ (obj sD) =? 0) eqn:Ez; [rewrite bind_log in H; discriminate|].
  inversion H; subst sD; clear H. apply Z.eqb_neq in Ez.
  assert (CB : exists t, calls sB = calls sA ++ t).
  { emits_of (fun _ : Call => true) EB. destruct EB as (t & ? & _). eauto. }
  assert (CC : exists t, calls sC = calls sB ++ t).
  { emits_of (fun _ : Call => true) EC. destruct EC as (t & ? & _). eauto. }
  assert (CD : exists t, calls s' = calls sC ++ t).
  { emits_of (fun _ : Call => true) ED. destruct ED as (t & ? & _). eauto. }
  destruct CB as (tB & CB). destruct CC as (tC & CC). destruct CD as (tD & CD).
  apply init_incremental_encoder_resolution in EB.
  same_of encoder_resolution_ EC.
  apply init_ssi_absolute_encoder_resolution in ED.
  split; [|split; [exact Ez|]].
  - unfold configured_resolution. fold nh.
    destruct (getParam getParam_int (child nh "ssi_absolute_encoder")
                "number_of_singleturn_bits") as [bits|],
             (getParam getParam_bool (child nh "ssi_absolute_encoder")
                "inverted_polarity") as [inv|]; try contradiction.
    + destruct ED as (r & -> & ->). reflexivity.
    + rewrite ED in *.
      destruct (getParam getParam_int (child nh "incremental_encoder") "resolution")
        as [res|],
        (getParam getParam_bool (child nh "incremental_encoder") "inverted_polarity")
        as [inv|]; try contradiction.
      * rewrite EC. exact EB.
      * exfalso. apply Ez. rewrite EC, EB, OA. destruct (obj s); reflexivity.
  - exists v, x, [], (tB ++ tC ++ tD). split; [exact Hv|].
    rewrite CD, CC, CB, CA, <- !app_assoc. reflexivity.
Qed.

End Stored.

Ltac obj_of E :=
  let Hs := fresh "Hs" in
  match type of E with
  | ?m ?s0 = _ =>
      assert (Hs : steps (same (fun e : Epos => e)) m) by (unfold_init; steps_go_full);
      apply (steps_run _ _ _ _ _ Hs) in E; unfold same in E; clear Hs
  end.

Section StoredByInit.
Context {D : Type}.
Variable vcs : Call -> D -> Reply * D.
Local Abbreviation St := (Sys D).

Lemma init_torque_constant_stores (s s' : St) r :
  @init_torque_constant D s = (r, s') ->
  r = Ret tt /\ calls s' = calls s /\
  torque_constant_ (obj s') =
    default 1%float (getParam getParam_double (config_nh_ (obj s)) "torque_constant").
Proof.
  unfold init_torque_constant. rewrite bind_get_obj.
  destruct (getParam getParam_double (config_nh_ (obj s)) "torque_constant") as [k|].
  - intros H. inversion H; subst. cbn [obj calls]. destruct (obj s); repeat split; reflexivity.
  - rewrite bind_log. intros H. inversion H; subst. cbn [obj calls].
    destruct (obj s); repeat split; reflexivity.
Qed.

Lemma init_faults_and_enable_stores (s s' : St) :
  init_faults_and_enable vcs s = (Ret tt, s') ->
  obj s' =
    set_has_init_ true
      (set_halt_velocity_ (param_or getParam_bool (config_nh_ (obj s)) "halt_velocity" false)
         (obj s)).
Proof.
  unfold init_faults_and_enable. intros H. run_block_in H.
  apply bind_Ret in H. destruct H as (r0 & sA & EA & H). obj_of EA. cbn [obj] in EA.
  destruct r0 as [n|o e]; [|discriminate].
  apply bind_Ret in H. destruct H as ([] & sB & EB & H). obj_of EB.
  run_block_in H.
  apply bind_Ret in H. destruct H as ([] & sC & EC & H). obj_of EC.
  apply bind_Ret in H. destruct H as (r1 & sD & ED & H). obj_of ED.
  destruct r1 as [m|o e]; [|discriminate].
  destruct (m >? 0); [rewrite bind_log in H; discriminate|].
  run_block_in H.
  apply bind_Ret in H. destruct H as (r2 & sE & EE & H). obj_of EE. cbn [obj] in EE.
  destruct (succeeded r2); cbn [negb] in H; [|discriminate].
  inversion H; subst; clear H. cbn [obj]. rewrite EE, ED, EC, EB, EA. reflexivity.
Qed.

(** The configuration blocks of a completed run, with the node handle of
    the configuration each of them reads. *)
Lemma init_configure_blocks_nh fuel (s s' : St) :
  init_configure vcs fuel s = (Ret tt, s') ->
  exists s1 s2 s3 s4 s5 s6 s7 s8 s9 s10 s11,
    (init_connect vcs s = (Ret tt, s1) /\
     init_initial_mode vcs s1 = (Ret tt, s2) /\
     init_fault_reaction vcs fuel s2 = (Ret tt, s3) /\
     init_torque_constant s3 = (Ret tt, s4) /\
     init_motor vcs fuel s4 = (Ret tt, s5) /\
     init_sensor vcs s5 = (Ret tt, s6) /\
     init_safety vcs s6 = (Ret tt, s7) /\
     init_position_regulator vcs s7 = (Ret tt, s8) /\
     init_velocity_regulator vcs s8 = (Ret tt, s9) /\
     init_current_regulator vcs s9 = (Ret tt, s10) /\
     init_position_profile vcs s10 = (Ret tt, s11) /\
     init_velocity_profile vcs s11 = (Ret tt, s')) /\
    Forall (fun s0 : St => config_nh_ (obj s0) = config_nh_ (obj s))
      [s1; s2; s3; s4; s5; s6; s7; s8; s9; s10; s11; s'].
Proof.
  intros H. apply init_configure_blocks in H.
  destruct H as (s1 & s2 & s3 & s4 & s5 & s6 & s7 & s8 & s9 & s10 & s11 &
                 E1 & E2 & E3 & E4 & E5 & E6 & E7 & E8 & E9 & E10 & E11 & E12).
  exists s1, s2, s3, s4, s5, s6, s7, s8, s9, s10, s11.
  split; [repeat split; assumption|].
  same_of config_nh_ E1. same_of config_nh_ E2. same_of config_nh_ E3. same_of config_nh_ E4.
  same_of config_nh_ E5. same_of config_nh_ E6. same_of config_nh_ E7. same_of config_nh_ E8.
  same_of config_nh_ E9. same_of config_nh_ E10. same_of config_nh_ E11.
  same_of config_nh_ E12.
  repeat constructor; congruence.
Qed.

Ltac init_blocks H :=
  let F := fresh "F" in
  unfold init in H; apply bind_Ret in H; destruct H as ([] & ?s12 & H & F);
  apply init_configure_blocks_nh in H;
  destruct H as (?s1 & ?s2 & ?s3 & ?s4 & ?s5 & ?s6 & ?s7 & ?s8 & ?s9 & ?s10 & ?s11 &
                 (?E1 & ?E2 & ?E3 & ?E4 & ?E5 & ?E6 & ?E7 & ?E8 & ?E9 & ?E10 & ?E11 & ?E12)
                 & ?N);
  repeat match goal with
         | N : Forall _ (_ :: _) |- _ =>
             let N1 := fresh "N" in
             apply Forall_cons in N; destruct N as [N1 N]
         | N : Forall _ [] |- _ => clear N
         end;
  rename F into EF.

(** X9: the loops of [VCS_SET_OBJECT] keep [init] from returning true.
    Whatever the budget of iterations, a run that returns true had neither a
    fault reaction option nor a maximal motor speed configured. *)
Theorem init_true_without_set_object fuel (s s' : St) :
  init vcs fuel s = (Ret tt, s') ->
  getParam getParam_string (config_nh_ (obj s)) "fault_reaction_option" = None /\
  getParam getParam_double (child (config_nh_ (obj s)) "motor") "max_speed" = None.
Proof.
  intros H. init_blocks H.
  apply init_fault_reaction_Ret in E3.
  apply init_motor_stores in E5. destruct E5 as (_ & E5 & _).
  split; congruence.
Qed.

(** X10: after a bring-up that returned true, [encoder_resolution_] is the
    resolution the sensor configuration yields: two to the number of
    single-turn bits when the SSI absolute encoder is configured, else the
    resolution of the incremental encoder, negated for an inverted polarity.
    It is not zero; a configuration with neither encoder, a hall sensor
    alone included, cannot bring the driver up. *)
Theorem init_true_encoder_resolution fuel (s s' : St) :
  init vcs fuel s = (Ret tt, s') ->
  configured_resolution (config_nh_ (obj s)) = Some (encoder_resolution_ (obj s')) /\
  encoder_resolution_ (obj s') <> 0.
Proof.
  intros H. init_blocks H.
  apply init_sensor_stores in E6. destruct E6 as (R & Z & _).
  same_of encoder_resolution_ E7. same_of encoder_resolution_ E8.
  same_of encoder_resolution_ E9. same_of encoder_resolution_ E10.
  same_of encoder_resolution_ E11. same_of encoder_resolution_ E12.
  same_of encoder_resolution_ EF.
  assert (Hr : encoder_resolution_ (obj s') = encoder_resolution_ (obj s6)) by congruence.
  rewrite Hr. split; [congruence | exact Z].
Qed.

(** X11: after a bring-up that returned true the driver holds the
    configuration: the torque constant is the configured one, or 1.0 without
    one; the nominal and maximal currents are those of the EC motor group,
    else of the DC motor group, else zero; [halt_velocity_] is the configured
    flag, or false without one; [has_init_] is true. *)
Theorem init_true_stores_configuration fuel (s s' : St) :
  init vcs fuel s = (Ret tt, s') ->
  torque_constant_ (obj s') =
    default 1%float (getParam getParam_double (config_nh_ (obj s)) "torque_constant") /\
  (nominal_current_ (obj s'), max_current_ (obj s')) =
    configured_currents (config_nh_ (obj s)) /\
  halt_velocity_ (obj s') =
    param_or getParam_bool (config_nh_ (obj s)) "halt_velocity" false /\
  has_init_ (obj s') = true.
Proof.
  intros H. init_blocks H.
  apply init_torque_constant_stores in E4. destruct E4 as (_ & _ & T4).
  apply init_motor_stores in E5. destruct E5 as (C5 & _ & T5 & _).
  apply init_faults_and_enable_stores in EF.
  assert (Hobj : forall (proj : Epos -> float),
            (forall v e, proj (set_halt_velocity_ v e) = proj e) ->
            (forall v e, proj (set_has_init_ v e) = proj e) ->
            proj (obj s') = proj (obj s12)).
  { intros proj P1 P2. rewrite EF, P2, P1. reflexivity. }
  assert (Ht : torque_constant_ (obj s') = torque_constant_ (obj s5)).
  { rewrite (Hobj torque_constant_) by (intros ? []; reflexivity).
    same_of torque_constant_ E6. same_of torque_constant_ E7. same_of torque_constant_ E8.
    same_of torque_constant_ E9. same_of torque_constant_ E10.
    same_of torque_constant_ E11. same_of torque_constant_ E12. congruence. }
  assert (Hn : nominal_current_ (obj s') = nominal_current_ (obj s5)).
  { rewrite (Hobj nominal_current_) by (intros ? []; reflexivity).
    same_of nominal_current_ E6. same_of nominal_current_ E7. same_of nominal_current_ E8.
    same_of nominal_current_ E9. same_of nominal_current_ E10.
    same_of nominal_current_ E11. same_of nominal_current_ E12. congruence. }
  assert (Hm : max_current_ (obj s') = max_current_ (obj s5)).
  { rewrite (Hobj max_current_) by (intros ? []; reflexivity).
    same_of max_current_ E6. same_of max_current_ E7. same_of max_current_ E8.
    same_of max_current_ E9. same_of max_current_ E10.
    same_of max_current_ E11. same_of max_current_ E12. congruence. }
  split; [rewrite Ht, T5, T4; congruence|].
  split; [rewrite Hn, Hm, C5; congruence|].
  rewrite EF. split.
  - replace (config_nh_ (obj s12)) with (config_nh_ (obj s)) by congruence.
    destruct (obj s12); reflexivity.
  - destruct (obj s12); reflexivity.
Qed.

End StoredByInit.

(** ** The cyclic functions and the controller switch *)

Section Cyclic.
Context {D : Type}.
Variable vcs : Call -> D -> Reply * D.
Local Abbreviation St := (Sys D).

(** A call whose answer is ignored: one call, or undefined behaviour on the
    null handle before any call. *)
Lemma call_ignored_runs (P : Call -> Prop) c (s : St) :
  P c ->
  let p := (call vcs c ;; ret tt) s in
  (fst p = Ret tt \/ fst p = Stuck) /\
  obj (snd p) = obj s /\ log (snd p) = log s /\
  exists t, calls (snd p) = calls s ++ t /\ (length t <= 1)%nat /\
            Forall (fun cr => P (fst cr)) t.
Proof.
  intros HP p. subst p. destruct (node_handle_ (obj s)) as [h|] eqn:Eh.
  - rewrite call_ignored by (rewrite Eh; eexists; reflexivity). cbn [fst snd].
    split; [left; reflexivity|]. split; [reflexivity|]. split; [reflexivity|].
    eexists. split; [reflexivity|]. split; [simpl; lia|].
    constructor; [exact HP | constructor].
  - unfold bind, call. rewrite Eh. cbn [fst snd].
    split; [right; reflexivity|]. split; [reflexivity|]. split; [reflexivity|].
    exists []. rewrite app_nil_r. split; [reflexivity|]. split; [simpl; lia | constructor].
Qed.

Lemma quiet_runs (P : Call -> Prop) (r : Res unit) (s : St) :
  r = Ret tt \/ r = Stuck ->
  let p := (r, s) in
  (fst p = Ret tt \/ fst p = Stuck) /\
  obj (snd p) = obj s /\ log (snd p) = log s /\
  exists t, calls (snd p) = calls s ++ t /\ (length t <= 1)%nat /\
            Forall (fun cr => P (fst cr)) t.
Proof.
  intros Hr p. subst p. cbn [fst snd]. split; [exact Hr|].
  split; [reflexivity|]. split; [reflexivity|].
  exists []. rewrite app_nil_r. split; [reflexivity|]. split; [simpl; lia | constructor].
Qed.

(** X13: [write] never modifies the driver object or the log, and issues at
    most one call, which is a motion command. It returns normally, or has
    undefined behaviour (a conversion out of the range of [int], or a null
    node handle). With [halt_velocity_] set it never sends a velocity of
    zero, and without it never a halt. *)
Theorem write_issues_one_motion_command (s : St) :
  let p := write vcs s in
  (fst p = Ret tt \/ fst p = Stuck) /\
  obj (snd p) = obj s /\ log (snd p) = log s /\
  exists t,
    calls (snd p) = calls s ++ t /\ (length t <= 1)%nat /\
    Forall (fun cr =>
              is_motion_call (fst cr) = true /\
              fst cr <> (if halt_velocity_ (obj s) then MoveWithVelocity 0
                         else HaltVelocityMovement)) t.
Proof.
  set (P := fun c => is_motion_call c = true /\
                     c <> (if halt_velocity_ (obj s) then MoveWithVelocity 0
                           else HaltVelocityMovement)).
  enough (H : let p := write vcs s in
              (fst p = Ret tt \/ fst p = Stuck) /\
              obj (snd p) = obj s /\ log (snd p) = log s /\
              exists t, calls (snd p) = calls s ++ t /\ (length t <= 1)%nat /\
                        Forall (fun cr => P (fst cr)) t) by exact H.
  unfold write. rewrite bind_get_obj.
  destruct (has_init_ (obj s)); cbn [negb]; [|apply quiet_runs; left; reflexivity].
  destruct (operation_mode_ (obj s)) as [[| |]|]; [| | |apply quiet_runs; left; reflexivity].
  - destruct (Num.isnan _); [apply quiet_runs; left; reflexivity|].
    rewrite bind_defined.
    destruct (if rw_ros_units_ (obj s) then _ else _) as [c|];
      [|apply quiet_runs; right; reflexivity].
    apply call_ignored_runs. split; [reflexivity|]. destruct (halt_velocity_ (obj s)); discriminate.
  - destruct (Num.isnan _); [apply quiet_runs; left; reflexivity|].
    rewrite bind_defined.
    destruct (if rw_ros_units_ (obj s) then _ else _) as [c|];
      [|apply quiet_runs; right; reflexivity].
    match goal with |- context [(?cmd =? 0) && _] => set (sent := cmd) end.
    destruct (sent =? 0) eqn:Ez; cbn [andb].
    + destruct (halt_velocity_ (obj s)) eqn:Eh; apply call_ignored_runs; subst P; cbv beta;
        rewrite ?Eh; (split; [reflexivity | discriminate]).
    + apply call_ignored_runs. split; [reflexivity|]. apply Z.eqb_neq in Ez.
      destruct (halt_velocity_ (obj s)); [|discriminate]. intros H. inversion H. contradiction.
  - destruct (Num.isnan _); [apply quiet_runs; left; reflexivity|].
    rewrite bind_defined.
    destruct (if rw_ros_units_ (obj s) then _ else _) as [c|];
      [|apply quiet_runs; right; reflexivity].
    apply call_ignored_runs. split; [reflexivity|]. destruct (halt_velocity_ (obj s)); discriminate.
Qed.

(** X14: [write] in the profile position mode sends the position command as
    an absolute target that takes effect immediately: the register truncated
    to an integer in raw units, and [(int)(cmd * 2 * encoder_resolution /
    pi)] in physical units. *)
Theorem write_profile_position (s : St) (c : Z) :
  operational s ->
  operation_mode_ (obj s) = Some PROFILE_POSITION_MODE ->
  Num.isnan (position_cmd_ (obj s)) = false ->
  (if rw_ros_units_ (obj s)
   then Num.to_int (position_cmd_ (obj s) * 2 * Num.of_int (encoder_resolution_ (obj s))
                    / Num.M_PI)%float
   else Num.to_int (position_cmd_ (obj s))) = Some c ->
  write vcs s = (Ret tt, after_call vcs (MoveToPosition c true true) s).
Proof.
  intros [Hi Hh] Hm Hn Hc. unfold write. rewrite bind_get_obj, Hi, Hm, Hn. cbn [negb].
  rewrite bind_defined, Hc. apply call_ignored. exact Hh.
Qed.

(** X29: [write] in the profile velocity mode with raw units sends the
    velocity register truncated towards zero ([c]), clamped to [[-max, max]]
    when the limit [max] is not negative and as it is when the limit is
    negative; a zero is sent as a halt when [halt_velocity_] is set. *)
Theorem write_profile_velocity_raw_units (s : St) (c : Z) :
  operational s ->
  operation_mode_ (obj s) = Some PROFILE_VELOCITY_MODE ->
  rw_ros_units_ (obj s) = false ->
  Num.isnan (velocity_cmd_ (obj s)) = false ->
  Num.to_int (velocity_cmd_ (obj s)) = Some c ->
  let max := max_profile_velocity_ (obj s) in
  exists sent,
    write vcs s =
      (Ret tt,
       after_call vcs (if (sent =? 0) && halt_velocity_ (obj s)
                       then HaltVelocityMovement else MoveWithVelocity sent) s) /\
    (0 <= max ->
       - max <= sent <= max /\ (- max <= c <= max -> sent = c) /\
       (c < - max -> sent = - max) /\ (max < c -> sent = max)) /\
    (max < 0 -> sent = c).
Proof.
  intros [Hi Hh] Hm Hu Hn Hc max.
  unfold write. rewrite bind_get_obj, Hi, Hm, Hn, Hu, Hc. cbn [negb].
  unfold defined. rewrite (bind_eq _ _ _ c s eq_refl). fold max.
  destruct (max >=? 0) eqn:Emax.
  - rewrite Z.geb_leb in Emax. apply Z.leb_le in Emax.
    exists (let c' := if c <? - max then - max else c in
            if c' >? max then max else c').
    cbv zeta. split.
    + match goal with |- (if ?b then _ else _) _ = _ => destruct b end;
        apply call_ignored; exact Hh.
    + split; [intros _; apply clamp_range; exact Emax | lia].
  - rewrite Z.geb_leb in Emax. apply Z.leb_gt in Emax.
    exists c. split.
    + match goal with |- (if ?b then _ else _) _ = _ => destruct b end;
        apply call_ignored; exact Hh.
    + split; [lia | reflexivity].
Qed.

(** The calls of [read] on an initialized driver, with the state after
    them. *)
Lemma read_values_run fr (s : St) :
  operational s ->
  exists r0 r1 r2 r3 d4 s',
    let e := obj s in
    let position_raw := stored r1 (position_raw0 fr) in
    let velocity_raw := stored r2 (velocity_raw0 fr) in
    let current := (Num.of_int (stored r3 (current_raw0 fr)) / 1000)%float in
    let s4 : St :=
      {| obj :=
           set_effort_ (if rw_ros_units_ e then (current * torque_constant_ e / 1000)%float
                        else (current * torque_constant_ e)%float)
             (set_current_ current
                (set_velocity_ (if rw_ros_units_ e
                                then (Num.of_int velocity_raw * Num.M_PI / 30)%float
                                else Num.of_int velocity_raw)
                   (set_position_ (if rw_ros_units_ e
                                   then (Num.of_int position_raw * Num.M_PI
                                         / (2 * Num.of_int (encoder_resolution_ e)))%float
                                   else Num.of_int position_raw)
                      (set_statusword_ (stored r0 (statusword_ e)) e))));
         dev := d4;
         calls := calls s ++ [(GetObject 0x6041 0x00 2, r0); (GetPositionIs, r1);
                              (GetVelocityIs, r2); (GetCurrentIs, r3)];
         log := log s |} in
    read vcs fr s = (Ret tt, s') /\
    if bool_decide (power_supply_name_ e = "") then s' = s4
    else
      exists b',
        let r4 := typed (GetObject 0x2200 0x01 2) (vcs (GetObject 0x2200 0x01 2) d4).1 in
        s' = {| obj := set_power_supply_state_ b' (obj s4);
                dev := (vcs (GetObject 0x2200 0x01 2) d4).2;
                calls := calls s4 ++ [(GetObject 0x2200 0x01 2, r4)];
                log := log s |} /\
        measured_fields b' =
          (Num.to_float (Num.of_int (stored r4 0) / 10)%float, stored r4 0 >? 0) /\
        constant_fields b' = constant_fields (power_supply_state_ e).
Proof.
  intros [Hi Hh]. unfold read. rewrite bind_get_obj, Hi. cbn [negb].
  rewrite bind_call by exact Hh. cbv beta. rewrite bind_modify_obj. cbn [obj dev calls log].
  set (r0 := typed (GetObject 24641 0 2) (vcs (GetObject 24641 0 2) (dev s)).1).
  assert (Hh1 : is_Some (node_handle_ (set_statusword_ (stored r0 (statusword_ (obj s))) (obj s))))
    by (rewrite node_handle_set_statusword_; exact Hh).
  rewrite bind_call by exact Hh1. cbv beta. cbn [obj dev calls log].
  rewrite bind_call by exact Hh1. cbv beta. cbn [obj dev calls log].
  rewrite bind_call by exact Hh1. cbv beta. cbn [obj dev calls log].
  rewrite <- !app_assoc. cbn [app].
  match goal with
  | |- context [(GetPositionIs, ?r1) :: (GetVelocityIs, ?r2) :: (GetCurrentIs, ?r3) :: nil] =>
      match goal with
      | |- context [{| obj := _; dev := ?d4; calls := _ ++ _ :: _ :: _ :: _ :: nil; log := _ |}] =>
          exists r0, r1, r2, r3, d4
      end
  end.
  unfold currentToTorque.
  destruct (rw_ros_units_ (obj s)).
  - run_prim.
    destruct (bool_decide (power_supply_name_ (obj s) = "")); cbn [negb].
    + eexists. split; reflexivity.
    + rewrite bind_call by (cbn [obj]; destruct (obj s); exact Hh). cbv beta.
      cbn [obj dev calls log]. eexists. split; [reflexivity|].
      eexists. split; [reflexivity|]. destruct (obj s); split; reflexivity.
  - run_prim.
    destruct (bool_decide (power_supply_name_ (obj s) = "")); cbn [negb].
    + eexists. split; reflexivity.
    + rewrite bind_call by (cbn [obj]; destruct (obj s); exact Hh). cbv beta.
      cbn [obj dev calls log]. eexists. split; [reflexivity|].
      eexists. split; [reflexivity|]. destruct (obj s); split; reflexivity.
Qed.

Lemma read_log fr (s : St) : log (snd (read vcs fr s)) = log s.
Proof.
  destruct (has_init_ (obj s)) eqn:Hi.
  2:{ unfold read. rewrite bind_get_obj, Hi. reflexivity. }
  destruct (node_handle_ (obj s)) as [h|] eqn:Hh.
  - destruct (read_values_run fr s) as (r0 & r1 & r2 & r3 & d4 & s' & Hrun & Hs').
    { split; [exact Hi | rewrite Hh; eexists; reflexivity]. }
    rewrite Hrun. cbv zeta in Hs'. cbn [snd].
    destruct (bool_decide (power_supply_name_ (obj s) = "")).
    + rewrite Hs'. reflexivity.
    + destruct Hs' as (b' & -> & _). reflexivity.
  - unfold read. rewrite bind_get_obj, Hi. cbn [negb]. unfold bind, call.
    rewrite Hh. reflexivity.
Qed.

(** X15: [read] changes nothing but the cached state ([statusword_],
    [position_], [velocity_], [current_], [effort_], and the voltage and
    presence of the battery state). The command registers,
    [operation_mode_], [has_init_], [valid_], the node handle, every member
    set by the constructor and by [init], and the other fields of the
    battery state keep their values; nothing is logged; and every call reads
    the state of the drive. *)
Theorem read_changes_cached_state_only fr (s : St) :
  let s' := snd (read vcs fr s) in
  (position_cmd_ (obj s'), velocity_cmd_ (obj s'), torque_cmd_ (obj s'))
    = (position_cmd_ (obj s), velocity_cmd_ (obj s), torque_cmd_ (obj s)) /\
  (operation_mode_ (obj s'), has_init_ (obj s'), node_handle_ (obj s'), valid_ (obj s'))
    = (operation_mode_ (obj s), has_init_ (obj s), node_handle_ (obj s), valid_ (obj s)) /\
  (torque_constant_ (obj s'), encoder_resolution_ (obj s'), max_profile_velocity_ (obj s'),
   halt_velocity_ (obj s'), rw_ros_units_ (obj s'), operation_mode_map_ (obj s'))
    = (torque_constant_ (obj s), encoder_resolution_ (obj s), max_profile_velocity_ (obj s),
       halt_velocity_ (obj s), rw_ros_units_ (obj s), operation_mode_map_ (obj s)) /\
  (name_ (obj s'), config_nh_ (obj s'), actuator_name_ (obj s'), serial_number_ (obj s'),
   nominal_current_ (obj s'), max_current_ (obj s'), power_supply_name_ (obj s'))
    = (name_ (obj s), config_nh_ (obj s), actuator_name_ (obj s), serial_number_ (obj s),
       nominal_current_ (obj s), max_current_ (obj s), power_supply_name_ (obj s)) /\
  constant_fields (power_supply_state_ (obj s'))
    = constant_fields (power_supply_state_ (obj s)) /\
  log s' = log s /\
  exists t, calls s' = calls s ++ t /\
            Forall (fun cr => is_telemetry_call (fst cr) = true) t.
Proof.
  intros s'. subst s'.
  assert (H1 : steps (same (fun e => (position_cmd_ e, velocity_cmd_ e, torque_cmd_ e)))
                 (read vcs fr)) by (unfold read; steps_go).
  assert (H2 : steps (same (fun e => (operation_mode_ e, has_init_ e, node_handle_ e,
                                      valid_ e))) (read vcs fr)) by (unfold read; steps_go).
  assert (H3 : steps (same (fun e => (torque_constant_ e, encoder_resolution_ e,
                                      max_profile_velocity_ e, halt_velocity_ e,
                                      rw_ros_units_ e, operation_mode_map_ e)))
                 (read vcs fr)) by (unfold read; steps_go).
  assert (H4 : steps (emits is_telemetry_call) (read vcs fr)) by (unfold read; steps_go).
  assert (H5 : steps (same (fun e => (name_ e, config_nh_ e, actuator_name_ e,
                                      serial_number_ e, nominal_current_ e, max_current_ e,
                                      power_supply_name_ e))) (read vcs fr))
    by (unfold read; steps_go).
  assert (H6 : steps (same (fun e => constant_fields (power_supply_state_ e)))
                 (read vcs fr)) by (unfold read; steps_go).
  split; [exact (H1 s)|]. split; [exact (H2 s)|]. split; [exact (H3 s)|].
  split; [exact (H5 s)|]. split; [exact (H6 s)|]. split; [apply read_log|]. exact (H4 s).
Qed.

End Cyclic.

Section CyclicValues.
Context {D : Type}.
Variable vcs : Call -> D -> Reply * D.
Local Abbreviation St := (Sys D).

Lemma power_supply_state_set b e :
  power_supply_state_ (set_power_supply_state_ b e) = b.
Proof. destruct e; reflexivity. Qed.

(** X16: the values [read] caches on an initialized driver, from the
    answers to its four queries. A value the device did not store is the
    content of the uninitialized local, for the statusword its previous
    value. In raw units position and velocity are the integers of the
    device; in physical units they are scaled to radians and radians per
    second. The current is in amperes in both; the effort is the current
    times the torque constant, divided by 1000 in physical units. *)
Theorem read_converts_units fr (s : St) :
  operational s ->
  exists r0 r1 r2 r3 rest s',
    read vcs fr s = (Ret tt, s') /\
    calls s' = calls s ++ [(GetObject 0x6041 0x00 2, r0); (GetPositionIs, r1);
                           (GetVelocityIs, r2); (GetCurrentIs, r3)] ++ rest /\
    let e := obj s in
    let position_raw := stored r1 (position_raw0 fr) in
    let velocity_raw := stored r2 (velocity_raw0 fr) in
    let current := (Num.of_int (stored r3 (current_raw0 fr)) / 1000)%float in
    statusword_ (obj s') = stored r0 (statusword_ e) /\
    position_ (obj s') =
      (if rw_ros_units_ e
       then (Num.of_int position_raw * Num.M_PI / (2 * Num.of_int (encoder_resolution_ e)))%float
       else Num.of_int position_raw) /\
    velocity_ (obj s') =
      (if rw_ros_units_ e then (Num.of_int velocity_raw * Num.M_PI / 30)%float
       else Num.of_int velocity_raw) /\
    current_ (obj s') = current /\
    effort_ (obj s') =
      (if rw_ros_units_ e then (current * torque_constant_ e / 1000)%float
       else (current * torque_constant_ e)%float).
Proof.
  intros Hop. destruct (read_values_run vcs fr s Hop) as (r0 & r1 & r2 & r3 & d4 & s' & Hrun & Hs').
  cbv zeta in Hs'.
  destruct (bool_decide (power_supply_name_ (obj s) = "")).
  - exists r0, r1, r2, r3, [], s'. split; [exact Hrun|]. rewrite Hs'. cbn [obj calls].
    rewrite app_nil_r. split; [reflexivity|]. cbv zeta.
    destruct (obj s); repeat split; reflexivity.
  - destruct Hs' as (b' & Hs' & _). eexists r0, r1, r2, r3, [_], s'.
    split; [exact Hrun|]. rewrite Hs'. cbn [obj calls]. rewrite <- app_assoc.
    split; [reflexivity|]. cbv zeta. destruct (obj s); repeat split; reflexivity.
Qed.

(** X17: the battery state. Without a power supply name [read] leaves it as
    it is. With one, [read] queries object 0x2200, sub-index 1, as its last
    call: the voltage is the answer divided by 10 and rounded to the [float]
    of the message, the supply is present when the answer is positive, and
    the other fields keep their values. The buffer of this query is
    initialized: a failed query that stores nothing gives 0 V and an absent
    supply. *)
Theorem read_measures_supply_voltage fr (s : St) :
  operational s ->
  exists s',
    read vcs fr s = (Ret tt, s') /\
    if bool_decide (power_supply_name_ (obj s) = "")
    then power_supply_state_ (obj s') = power_supply_state_ (obj s)
    else
      exists pre r4,
        calls s' = calls s ++ pre ++ [(GetObject 0x2200 0x01 2, r4)] /\
        measured_fields (power_supply_state_ (obj s')) =
          (Num.to_float (Num.of_int (stored r4 0) / 10)%float, stored r4 0 >? 0) /\
        constant_fields (power_supply_state_ (obj s')) =
          constant_fields (power_supply_state_ (obj s)) /\
        (forall e, r4 = Failure None e ->
           measured_fields (power_supply_state_ (obj s')) = (0%float, false)).
Proof.
  intros Hop. destruct (read_values_run vcs fr s Hop) as (r0 & r1 & r2 & r3 & d4 & s' & Hrun & Hs').
  cbv zeta in Hs'. exists s'. split; [exact Hrun|].
  destruct (bool_decide (power_supply_name_ (obj s) = "")).
  - rewrite Hs'. cbn [obj]. destruct (obj s); reflexivity.
  - destruct Hs' as (b' & Hs' & Hm & Hc). eexists _, _. rewrite Hs'. cbn [obj calls].
    split; [rewrite <- app_assoc; reflexivity|].
    rewrite power_supply_state_set. split; [exact Hm|]. split; [exact Hc|].
    intros e He. rewrite Hm, He. cbn [stored]. f_equal.
Qed.

(** *** doSwitch *)

Lemma doSwitch_stop_list start_list stop_list stop_list' : forall (s : St),
  doSwitch vcs start_list stop_list s = doSwitch vcs start_list stop_list' s.
Proof.
  induction start_list as [|c l IH]; intros s; simpl; [reflexivity|].
  rewrite !bind_get_obj.
  set (m := match operation_mode_map_ (obj s) !! ci_name c with
            | Some mode_to_switch => _
            | None => _
            end).
  unfold bind. destruct (m s) as [[[]| | |] s1]; [apply IH | reflexivity..].
Qed.

(** X18: [doSwitch] on a driver with a node handle issues one mode-set
    command per starting controller that the mode map knows, with the mapped
    mode and in the order of the list, and nothing for the others; it
    ignores the answers and the list of stopping controllers, and changes
    neither the driver object nor the log. *)
Theorem doSwitch_sets_mapped_modes start_list stop_list : forall (s : St),
  is_Some (node_handle_ (obj s)) ->
  exists s' t,
    doSwitch vcs start_list stop_list s = (Ret tt, s') /\
    obj s' = obj s /\ log s' = log s /\
    calls s' = calls s ++ t /\
    issued t =
      omap (fun c => SetOperationMode <$> (operation_mode_map_ (obj s) !! ci_name c))
           start_list /\
    forall stop_list', doSwitch vcs start_list stop_list' s = (Ret tt, s').
Proof.
  induction start_list as [|c l IH]; intros s Hh.
  - exists s, []. rewrite app_nil_r. repeat split; reflexivity.
  - assert (Hstop : forall s', doSwitch vcs (c :: l) stop_list s = (Ret tt, s') ->
                      forall stop_list', doSwitch vcs (c :: l) stop_list' s = (Ret tt, s')).
    { intros s' H stop_list'. rewrite <- H. apply doSwitch_stop_list. }
    simpl. simpl in Hstop. rewrite bind_get_obj. rewrite bind_get_obj in Hstop.
    destruct (operation_mode_map_ (obj s) !! ci_name c) as [m|] eqn:Em; simpl.
    + rewrite !bind_assoc, bind_call by exact Hh. cbv beta.
      rewrite !bind_assoc, bind_call in Hstop by exact Hh. cbv beta in Hstop.
      unfold bind at 1. unfold ret at 1. unfold bind at 1 in Hstop. unfold ret at 1 in Hstop.
      match goal with |- context [doSwitch vcs l stop_list ?s1] =>
        destruct (IH s1 Hh) as (s' & t & Hrun & Hobj & Hlog & Hcalls & Hiss & _) end.
      cbn [obj calls log] in *.
      eexists s', (_ :: t). split; [exact Hrun|]. split; [exact Hobj|]. split; [exact Hlog|].
      split; [rewrite Hcalls, <- app_assoc; reflexivity|].
      split; [unfold issued in *; simpl; f_equal; exact Hiss|].
      apply Hstop. exact Hrun.
    + unfold bind at 1. unfold ret at 1. unfold bind at 1 in Hstop. unfold ret at 1 in Hstop.
      destruct (IH s Hh) as (s' & t & Hrun & Hobj & Hlog & Hcalls & Hiss & _).
      exists s', t. repeat split; try assumption. apply Hstop. exact Hrun.
Qed.

(** X19: [doSwitch] on a driver without a node handle. It does nothing when
    no starting controller is in the mode map; otherwise it dereferences the
    null handle at the first one that is, before any call. *)
Theorem doSwitch_null_handle start_list stop_list (s : St) :
  node_handle_ (obj s) = None ->
  doSwitch vcs start_list stop_list s =
    (if forallb (fun c => bool_decide (operation_mode_map_ (obj s) !! ci_name c = None))
          start_list
     then Ret tt else Stuck, s).
Proof.
  intros Hh. induction start_list as [|c l IH]; simpl; [reflexivity|].
  rewrite bind_get_obj.
  destruct (operation_mode_map_ (obj s) !! ci_name c) as [m|] eqn:Em.
  - rewrite bool_decide_false by discriminate. cbn [andb].
    unfold bind, call. rewrite Hh. reflexivity.
  - rewrite bool_decide_true by reflexivity. cbn [andb].
    unfold bind at 1. unfold ret at 1. exact IH.
Qed.

End CyclicValues.

(** ** The bits of the statusword *)

(** X25: [STATUSWORD(b, v)] is bit [b] of [v]: it is 0 or 1, and it is
    non-zero exactly when the bit is set. *)
Theorem STATUSWORD_is_bit (b v : Z) :
  0 <= b ->
  STATUSWORD b v = Z.b2z (Z.testbit v b) /\ truthy (STATUSWORD b v) = Z.testbit v b.
Proof.
  intros Hb. unfold STATUSWORD, truthy.
  assert (H : Z.land (Z.shiftr v b) 1 = Z.b2z (Z.testbit v b)).
  { change 1 with (Z.ones 1). rewrite Z.land_ones by lia.
    change (2 ^ 1) with 2. rewrite <- Z.bit0_mod, Z.shiftr_spec by lia. reflexivity. }
  rewrite H. split; [reflexivity|]. destruct (Z.testbit v b); reflexivity.
Qed.

Lemma truthy_STATUSWORD b v : 0 <= b -> truthy (STATUSWORD b v) = Z.testbit v b.
Proof.
  intros Hb. unfold STATUSWORD, truthy.
  change 1 with (Z.ones 1). rewrite Z.land_ones by lia.
  change (2 ^ 1) with 2. rewrite <- Z.bit0_mod, Z.shiftr_spec by lia.
  destruct (Z.testbit v (0 + b)) eqn:E; simpl in *; rewrite <- E; reflexivity.
Qed.

(** ** The status reports *)

Section Reports.
Context {D : Type}.
Variable vcs : Call -> D -> Reply * D.
Variable GetErrorInfo : Z -> option string.
Variable lexical_cast : float -> string.
Variable format_f : float -> string.
Local Abbreviation St := (Sys D).
Import DiagnosticStatus StatusFacts.

(** X20: the motor status after a bring-up that did not return true, on a
    driver that was not initialized before: the report gains the actuator
    name, its summary is ERROR, "EPOS not initialized", and neither the
    statusword nor the device is consulted. *)
Theorem motor_status_after_failed_init fuel (s s' : St) r (stat : DiagnosticStatus.t) :
  has_init_ (obj s) = false ->
  init vcs fuel s = (r, s') ->
  r <> Ret tt ->
  buildMotorStatus vcs GetErrorInfo stat s' =
    (Ret {| level := ERROR; message := "EPOS not initialized";
            values := values stat ++ [("Actuator Name", actuator_name_ (obj s))] |}, s').
Proof.
  intros Hi H Hr.
  assert (Hi' : has_init_ (obj s') = false)
    by (rewrite (init_not_true_keeps_has_init vcs fuel s s' r H Hr); exact Hi).
  same_of actuator_name_ H.
  unfold buildMotorStatus. rewrite bind_get_obj, Hi', H. reflexivity.
Qed.

Lemma read_error_failed_values what e stat :
  values (read_error_failed GetErrorInfo what e stat) = values stat.
Proof. unfold read_error_failed. destruct (GetErrorInfo e); reflexivity. Qed.

Lemma status_error_codes_calls n : forall i stat (s : St),
  is_Some (node_handle_ (obj s)) ->
  exists stat' s' t,
    status_error_codes vcs GetErrorInfo n i stat s = (Ret stat', s') /\
    obj s' = obj s /\ log s' = log s /\ values stat' = values stat /\
    calls s' = calls s ++ t /\
    issued t = map (fun k => GetDeviceErrorCode (Z.of_nat k + i)) (seq 0 n).
Proof.
  induction n as [|n IH]; intros i stat s Hh; simpl.
  - exists stat, s, []. rewrite app_nil_r. repeat split; reflexivity.
  - rewrite bind_call by exact Hh. cbv beta.
    match goal with |- context [status_error_codes vcs GetErrorInfo n (i + 1) ?st ?s1] =>
      destruct (IH (i + 1) st s1 Hh) as (stat' & s' & t & Hrun & Ho & Hl & Hv & Hc & Hi) end.
    cbn [obj calls log] in *.
    eexists stat', s', (_ :: t). split; [exact Hrun|]. split; [exact Ho|]. split; [exact Hl|].
    split.
    { rewrite Hv. destruct (typed _ _); [reflexivity | apply read_error_failed_values]. }
    split; [rewrite Hc, <- app_assoc; reflexivity|].
    unfold issued in *. simpl. f_equal. rewrite Hi, <- seq_shift, map_map.
    apply map_ext. intros k. f_equal. lia.
Qed.

(** X21: the motor status of an initialized driver never modifies the
    driver object or the log. It asks the device for the number of errors
    and then for every error code from 1 to that number, in order, also
    after a code that could not be read; when the number cannot be read it
    asks for no code. The report gains the actuator name and the five flags
    of the statusword. *)
Theorem motor_status_enumerates_errors (s : St) (stat : DiagnosticStatus.t) :
  operational s ->
  exists stat' s' t,
    buildMotorStatus vcs GetErrorInfo stat s = (Ret stat', s') /\
    obj s' = obj s /\ log s' = log s /\
    calls s' = calls s ++ t /\
    issued t =
      GetNbOfDeviceError ::
      match typed GetNbOfDeviceError (vcs GetNbOfDeviceError (dev s)).1 with
      | Success num_errors => GetDeviceErrorCode <$> seqZ 1 num_errors
      | Failure _ _ => []
      end /\
    let sw := statusword_ (obj s) in
    values stat' =
      values stat
      ++ [("Actuator Name", actuator_name_ (obj s));
          ("Enabled", if Z.testbit sw 2 then "True" else "False");
          ("Fault", if Z.testbit sw 3 then "True" else "False");
          ("Voltage Enabled", if Z.testbit sw 4 then "True" else "False");
          ("Quickstop", if Z.testbit sw 5 then "True" else "False");
          ("Warning", if Z.testbit sw 7 then "True" else "False")].
Proof.
  intros [Hi Hh]. unfold buildMotorStatus. rewrite bind_get_obj, Hi.
  cbv zeta. set (sw := statusword_ (obj s)).
  match goal with |- context [bind (call vcs GetNbOfDeviceError) (fun r => @?k r) s] =>
    match k with context [status_error_codes vcs GetErrorInfo _ 1 ?st] =>
      remember st as bits eqn:Hbits end end.
  assert (Hv : values bits =
               values stat
               ++ [("Actuator Name", actuator_name_ (obj s));
                   ("Enabled", if Z.testbit sw 2 then "True" else "False");
                   ("Fault", if Z.testbit sw 3 then "True" else "False");
                   ("Voltage Enabled", if Z.testbit sw 4 then "True" else "False");
                   ("Quickstop", if Z.testbit sw 5 then "True" else "False");
                   ("Warning", if Z.testbit sw 7 then "True" else "False")]).
  { rewrite Hbits. unfold ENABLE, FAULT, VOLTAGE_ENABLED, QUICKSTOP, WARNING,
      READY_TO_SWITCH_ON, SWITCHED_ON.
    rewrite !truthy_STATUSWORD by lia.
    destruct (Z.testbit sw 0), (Z.testbit sw 1), (Z.testbit sw 2), (Z.testbit sw 3),
      (Z.testbit sw 5), (Z.testbit sw 7); cbn; rewrite <- ?app_assoc; reflexivity. }
  clear Hbits.
  rewrite bind_call by exact Hh. cbv beta.
  destruct (typed GetNbOfDeviceError (vcs GetNbOfDeviceError (dev s)).1) as [n|o e] eqn:En.
  - match goal with |- context [status_error_codes vcs GetErrorInfo ?k 1 bits ?s1] =>
      destruct (status_error_codes_calls k 1 bits s1 Hh)
        as (stat' & s' & t & Hrun & Ho & Hl & Hvs & Hc & Hiss) end.
    cbn [obj calls log] in *.
    eexists stat', s', (_ :: t). split; [exact Hrun|]. split; [exact Ho|]. split; [exact Hl|].
    split; [rewrite Hc, <- app_assoc; reflexivity|].
    split; [|rewrite Hvs; exact Hv].
    unfold issued in *. simpl. f_equal. rewrite Hiss. unfold seqZ.
    rewrite <- list_fmap_compose. reflexivity.
  - eexists _, _, [_]. split; [reflexivity|]. cbn [obj calls log].
    split; [reflexivity|]. split; [reflexivity|]. split; [reflexivity|].
    split; [reflexivity|]. rewrite read_error_failed_values. exact Hv.
Qed.

(** X22: the motor output status never consults the device and changes
    nothing. For a driver that is not initialized the summary is ERROR,
    "EPOS not initialized". For an initialized driver the summary replaces
    whatever level the report had: it is WARN when the current-limit bit of
    the statusword is set or when a positive nominal current is exceeded by
    the magnitude of the measured current, and OK otherwise; the fault bit
    plays no part, and the level is never ERROR. *)
Theorem motor_output_status_level (s : St) (stat : DiagnosticStatus.t) :
  exists stat',
    buildMotorOutputStatus lexical_cast format_f stat s = (Ret stat', s) /\
    level stat' =
      (if has_init_ (obj s) then
         if Z.testbit (statusword_ (obj s)) 11
            || PrimFloat.ltb 0 (nominal_current_ (obj s))
               && PrimFloat.ltb (nominal_current_ (obj s)) (PrimFloat.abs (current_ (obj s)))
         then WARN else OK
       else ERROR) /\
    (has_init_ (obj s) = false -> message stat' = "EPOS not initialized").
Proof.
  unfold buildMotorOutputStatus. rewrite bind_get_obj.
  unfold CURRENT_LIMIT_ACTIVE, TARGET_REACHED. rewrite !truthy_STATUSWORD by lia.
  destruct (operation_mode_ (obj s)) as [[| |]|]; cbv zeta beta iota;
    destruct (has_init_ (obj s));
    (eexists; split; [reflexivity|]; split; [|first [discriminate | reflexivity]]);
    try reflexivity;
    destruct (Z.testbit (statusword_ (obj s)) 11),
      (PrimFloat.ltb 0 (nominal_current_ (obj s))
       && PrimFloat.ltb (nominal_current_ (obj s)) (PrimFloat.abs (current_ (obj s))));
    reflexivity.
Qed.

End Reports.

(** ** The constructor and the parameter set loader *)

Section Construction.
Context {D : Type}.
Variable vcs : Call -> D -> Reply * D.
Variable SerialNumberFromHex : string -> option Z.

Lemma Epos_ctor_valid name nh mem e :
  Epos_ctor SerialNumberFromHex name nh mem = Some e ->
  valid_ e = true <->
    is_Some (getParam getParam_string nh "actuator_name") /\
    is_Some (getParam getParam_string nh "serial_number") /\
    forall k v, default ∅ (getParam getParam_map nh "operation_mode_map") !! k = Some v ->
                is_Some (mode_of_string v).
Proof.
  unfold Epos_ctor.
  destruct (match getParam getParam_string nh "serial_number" with
            | Some str => SerialNumberFromHex str
            | None => Some (serial_number_ mem)
            end); [|discriminate].
  intros H. inversion H; subst; clear H. cbn.
  rewrite !andb_true_iff, !bool_decide_eq_true. unfold map_Forall. tauto.
Qed.

(** X23: the constructor. The driver is valid exactly when the actuator
    name and the serial number are configured and every text of the mode map
    names one of the three modes. The map of the driver has the entries with
    a known mode, the others are left out. The driver starts without a node
    handle and not initialized. *)
Theorem ctor_validity name nh mem e :
  Epos_ctor SerialNumberFromHex name nh mem = Some e ->
  let str_map := default ∅ (getParam getParam_map nh "operation_mode_map") in
  (valid_ e = true <->
     is_Some (getParam getParam_string nh "actuator_name") /\
     is_Some (getParam getParam_string nh "serial_number") /\
     forall k v, str_map !! k = Some v -> is_Some (mode_of_string v)) /\
  (forall k, operation_mode_map_ e !! k = str_map !! k ≫= mode_of_string) /\
  node_handle_ e = None /\ has_init_ e = false /\ config_nh_ e = nh.
Proof.
  intros H. split; [exact (Epos_ctor_valid _ _ _ _ H)|]. revert H.
  unfold Epos_ctor.
  destruct (match getParam getParam_string nh "serial_number" with
            | Some str => SerialNumberFromHex str
            | None => Some (serial_number_ mem)
            end); [|discriminate].
  intros H. inversion H; subst; clear H. cbn.
  split; [|repeat split]. intros k. apply lookup_omap.
Qed.

(** X2: a driver constructed from a configuration without an actuator name,
    without a serial number, or with a text in the mode map that names no
    mode, is never brought up: [init] returns false at once, issues no
    device call, leaves the device and the driver object untouched, and logs
    one error line. *)
Theorem init_refuses_invalid_configuration name nh mem fuel (s : Sys D) :
  Epos_ctor SerialNumberFromHex name nh mem = Some (obj s) ->
  (getParam getParam_string nh "actuator_name" = None \/
   getParam getParam_string nh "serial_number" = None \/
   exists k v, default ∅ (getParam getParam_map nh "operation_mode_map") !! k = Some v /\
               mode_of_string v = None) ->
  init vcs fuel s =
    (Fail,
     {| obj := obj s; dev := dev s; calls := calls s;
        log := log s ++ [(ERROR, "Not Initializing: " +:+ HexString.of_Z (serial_number_ (obj s))
                                 +:+ ", initial construction failed")] |}).
Proof.
  intros Hc Hbad. apply init_invalid_driver.
  destruct (valid_ (obj s)) eqn:Hv; [|reflexivity]. exfalso.
  apply (Epos_ctor_valid _ _ _ _ Hc) in Hv. destruct Hv as ([a Ha] & [n Hn] & Hm).
  destruct Hbad as [Hb | [Hb | (k & v & Hk & Hb)]].
  - rewrite Hb in Ha. discriminate.
  - rewrite Hb in Hn. discriminate.
  - destruct (Hm k v Hk) as [m Hmode]. rewrite Hb in Hmode. discriminate.
Qed.

End Construction.

Lemma filter_partition_perm {A} (f : A -> bool) (l : list A) :
  List.filter f l ++ List.filter (fun a => negb (f a)) l ≡ₚ l.
Proof.
  induction l as [|a l IH]; simpl; [reflexivity|].
  destruct (f a); simpl.
  - constructor. exact IH.
  - rewrite <- Permutation_middle. constructor. exact IH.
Qed.

(** X24: the bookkeeping of a parameter set loader after the [param] calls
    of a group: the names found, in the order of the calls, and the names
    not found. Every attribute is in exactly one of the two lists, so the
    report of a partial group has one line for the group and one for every
    attribute. *)
Theorem loader_lists_every_attribute (nh : NodeHandle) (attrs : list Attr) :
  let l := load attrs (make nh) in
  found_ l = names_where (present nh) attrs /\
  not_found_ l = names_where (absent nh) attrs /\
  found_ l ++ not_found_ l ≡ₚ map fst attrs /\
  length (report l) = S (length attrs).
Proof.
  intros l. destruct (load_lists attrs (make nh)) as [Hf Hn]. fold l in Hf, Hn.
  cbn [make found_ not_found_ nh_ app] in Hf, Hn.
  assert (Hp : found_ l ++ not_found_ l ≡ₚ map fst attrs).
  { rewrite Hf, Hn. unfold names_where, absent. rewrite <- map_app.
    apply Permutation_map, filter_partition_perm. }
  split; [exact Hf|]. split; [exact Hn|]. split; [exact Hp|].
  unfold report. cbn [length]. rewrite length_app, !length_map, <- length_app.
  f_equal. rewrite (Permutation_length Hp). apply length_map.
Qed.

(** ** What a failed bring-up logs *)

Section Loud.
Context {D : Type}.
Variable vcs : Call -> D -> Reply * D.
Local Abbreviation St := (Sys D).

Lemma loud_never {A} (m : @M St A) : (forall s, fst (m s) <> Fail) -> loud m.
Proof. intros H s s' E. specialize (H s). rewrite E in H. contradiction. Qed.

Lemma loud_bind {A B} (m : @M St A) (k : A -> M B) :
  loud m -> (forall a, loud (k a)) -> loud (bind m k).
Proof.
  intros Hm Hk s s' E. apply bind_cases in E.
  destruct E as [(a & s1 & _ & E) | [E _]]; [exact (Hk a _ _ E) | exact (Hm _ _ E)].
Qed.

Lemma loud_log_fail {A} msg : loud (ROS_LOG ERROR msg ;; @fail St A).
Proof.
  intros s s' E. rewrite bind_log in E. inversion E; subst.
  exists (log s), msg. reflexivity.
Qed.

Lemma loud_call c : loud (call vcs c).
Proof.
  apply loud_never. intros s. unfold call, factory_call.
  destruct (node_handle_ (obj s)); [destruct (vcs c (dev s))|]; discriminate.
Qed.

Lemma loud_factory_call c : loud (factory_call vcs c).
Proof.
  apply loud_never. intros s. unfold factory_call. destruct (vcs c (dev s)). discriminate.
Qed.

Lemma loud_defined {A} (o : option A) : loud (@defined St A o).
Proof. apply loud_never. intros s. destruct o; discriminate. Qed.

Lemma report_ends_with_error l :
  not_found_ l <> [] -> exists pre msg, report l = pre ++ [(ERROR, msg)].
Proof.
  intros Hn. destruct (exists_last Hn) as (names & name & E). unfold report. rewrite E.
  rewrite map_app. cbn [map].
  eexists (_ :: _ ++ _), _. rewrite app_comm_cons, app_assoc, <- app_comm_cons. reflexivity.
Qed.

Lemma loud_all_or_none_or_return l : loud (@all_or_none_or_return D l).
Proof.
  unfold all_or_none_or_return, all_or_none.
  destruct (length (not_found_ l) =? 0)%nat eqn:E1.
  { apply loud_never. intros s. discriminate. }
  destruct (length (found_ l) =? 0)%nat eqn:E2.
  { apply loud_never. intros s. discriminate. }
  intros s s' E. rewrite bind_log_lines in E. inversion E; subst; clear E.
  destruct (report_ends_with_error l) as (pre & msg & Hr).
  { intros Hn. rewrite Hn in E1. discriminate. }
  exists (log s ++ pre), msg. cbn [log]. rewrite Hr, app_assoc. reflexivity.
Qed.

Lemma loud_VCS_SET_OBJECT fuel i si d len msg :
  loud (VCS_SET_OBJECT vcs fuel i si d len msg).
Proof.
  induction fuel as [|n IH]; simpl.
  - apply loud_never. intros s. discriminate.
  - apply loud_bind; [apply loud_call|]. intros r.
    destruct (succeeded r); [exact IH | apply loud_log_fail].
Qed.

End Loud.

Ltac loud_go :=
  repeat first
    [ apply loud_log_fail
    | apply loud_all_or_none_or_return
    | apply loud_VCS_SET_OBJECT
    | apply loud_call | apply loud_factory_call | apply loud_defined
    | apply loud_never; intros ?; discriminate
    | apply loud_bind; [|intros ?]
    | match goal with
      | |- loud (match ?x with _ => _ end) => destruct x
      | |- loud (let '(_, _) := ?x in _) => destruct x
      end
    | assumption ].

Section Logged.
Context {D : Type}.
Variable vcs : Call -> D -> Reply * D.
Local Abbreviation St := (Sys D).

Lemma loud_init_configure fuel : loud (init_configure vcs fuel).
Proof.
  unfold init_configure, init_connect, init_initial_mode, init_fault_reaction,
    SET_FAULT_REACTION_OPTION, init_torque_constant, init_motor, init_dc_motor,
    init_ec_motor, init_sensor, init_incremental_encoder, init_hall_sensor,
    init_ssi_absolute_encoder, init_safety, init_position_regulator,
    init_position_regulator_gain, init_position_regulator_feed_forward,
    init_velocity_regulator, init_velocity_regulator_gain,
    init_velocity_regulator_feed_forward, init_current_regulator,
    init_current_regulator_gain, init_position_profile, init_position_profile_values,
    init_position_profile_window, init_velocity_profile, init_velocity_profile_values,
    init_velocity_profile_window, VCS_FROM_SINGLE_PARAM_REQUIRED,
    VCS_FROM_SINGLE_PARAM_OPTIONAL, VCS.
  loud_go.
Qed.

(** X26: every [return false] of the configuration blocks of [init]
    (lines 187-540) comes right after an error line: when [init] returns
    false before the fault query, the last line of the log is an error. *)
Theorem init_configuration_failure_is_logged fuel (s s' : St) :
  init vcs fuel s = (Fail, s') ->
  fst (init_configure vcs fuel s) <> Ret tt ->
  error_logged s'.
Proof.
  unfold init. intros H Hc. apply bind_cases in H.
  destruct H as [(a & s1 & E & _) | [E _]].
  - rewrite E in Hc. destruct a. contradiction.
  - exact (loud_init_configure fuel _ _ E).
Qed.

(** X27: the fault block can return false without an error line. When the
    query of the error count fails after the configuration blocks completed,
    [init] returns false after that one call, and the last line of the log
    is the information "Querying Faults". *)
Theorem init_fault_query_fails_silently fuel (s s1 : St) o e :
  init_configure vcs fuel s = (Ret tt, s1) ->
  typed GetNbOfDeviceError (vcs GetNbOfDeviceError (dev s1)).1 = Failure o e ->
  exists s',
    init vcs fuel s = (Fail, s') /\
    calls s' = calls s1 ++ [(GetNbOfDeviceError, Failure o e)] /\
    log s' = log s1 ++ [(INFO, "Querying Faults")] /\
    obj s' = obj s1 /\
    ~ error_logged s'.
Proof.
  intros Hc Hq. unfold init. rewrite (bind_eq _ _ _ _ _ Hc).
  unfold init_faults_and_enable. rewrite bind_log.
  rewrite bind_call by (cbn [obj]; exact (init_configure_Ret vcs fuel s s1 Hc)).
  cbn [obj dev calls log]. rewrite Hq.
  eexists. split; [reflexivity|]. cbn [obj calls log]. repeat split.
  intros (pre & msg & Hl). apply app_inj_tail in Hl. destruct Hl as [_ Hl]. discriminate.
Qed.

(** X28: the cyclic functions, the controller switch and the motor status
    keep a driver operational: none of them changes [has_init_] or the node
    handle, whatever the device answers and however many cycles run. *)
Theorem cycles_keep_operational (GetErrorInfo : Z -> option string) (s : St) :
  operational s ->
  (forall ops, operational (snd (run_cycles vcs ops s))) /\
  (forall start_list stop_list, operational (snd (doSwitch vcs start_list stop_list s))) /\
  (forall stat, operational (snd (buildMotorStatus vcs GetErrorInfo stat s))).
Proof.
  intros [Hi Hh].
  assert (Hkeep : forall A (m : @M St A),
            steps (same (fun e => (has_init_ e, node_handle_ e))) m ->
            operational (snd (m s))).
  { intros A m Hm. specialize (Hm s). unfold same in Hm. inversion Hm as [[H1 H2]].
    split; congruence. }
  split; [|split].
  - intros ops. apply Hkeep. induction ops as [|[fr|] ops IH]; simpl.
    + steps_go.
    + apply steps_bind; [typeclasses eauto | unfold read; steps_go | intros ?; exact IH].
    + apply steps_bind; [typeclasses eauto | unfold write; steps_go | intros ?; exact IH].
  - intros start_list stop_list. apply Hkeep.
    induction start_list as [|c l IH]; simpl; steps_go.
  - intros stat. apply Hkeep. unfold buildMotorStatus.
    assert (Hloop : forall n i st,
              steps (same (fun e => (has_init_ e, node_handle_ e)))
                (status_error_codes vcs GetErrorInfo n i st)).
    { induction n as [|n IHn]; intros i st; simpl; steps_go. apply IHn. }
    steps_go. apply Hloop.
Qed.

End Logged.

(** ** The calls of a completed bring-up *)

(** The calls [t] a run added to the history are [l]. *)
Ltac block_calls_done H :=
  first
    [ apply VCS_Ret in H; destruct H as (_ & ? & H); cbn [calls] in H;
      eexists _, _; split; [reflexivity|]; split; [exact H | reflexivity]
    | inversion H; subst; exists [], []; split; [reflexivity|];
      split; [cbn [calls]; rewrite app_nil_r; reflexivity | reflexivity] ].

Section ConfiguredCalls.
Context {D : Type}.
Variable vcs : Call -> D -> Reply * D.
Local Abbreviation St := (Sys D).

Lemma issues_trans (s1 s2 s3 : St) b1 bs :
  issues s1 s2 b1 -> issues s2 s3 (sequence_calls bs) ->
  issues s1 s3 (sequence_calls (b1 :: bs)).
Proof.
  intros (l1 & t1 & B1 & C1 & I1) (l2 & t2 & B2 & C2 & I2).
  exists (l1 ++ l2), (t1 ++ t2). cbn [sequence_calls foldr].
  change (foldr _ (Some []) bs) with (sequence_calls bs). rewrite B1, B2.
  split; [reflexivity|]. split; [rewrite C2, C1, app_assoc; reflexivity|].
  rewrite issued_app, I1, I2. reflexivity.
Qed.

Lemma issues_nil (s s' : St) : calls s' = calls s -> issues s s' (sequence_calls []).
Proof.
  intros H. exists [], []. split; [reflexivity|]. rewrite app_nil_r. split; [exact H | reflexivity].
Qed.

Lemma issues_one (s s' : St) b : issues s s' b -> issues s s' (sequence_calls [b]).
Proof. intros H. eapply issues_trans; [exact H | apply issues_nil; reflexivity]. Qed.

Lemma issues_calls (s s0 s' : St) b : calls s0 = calls s -> issues s0 s' b -> issues s s' b.
Proof. intros E (l & t & B & C & I). exists l, t. rewrite <- E. auto. Qed.

Lemma required_param_issues nh name func (s s' : St) v :
  VCS_FROM_SINGLE_PARAM_REQUIRED vcs nh name func s = (Ret v, s') ->
  issues s s' (x ← getParam getParam_int nh name; Some [func x]).
Proof.
  intros H. apply required_param_Ret in H. destruct H as (-> & _ & x & C).
  eexists _, _. split; [reflexivity|]. split; [exact C | reflexivity].
Qed.

Lemma optional_param_issues nh name func (s s' : St) v :
  VCS_FROM_SINGLE_PARAM_OPTIONAL vcs nh name func s = (Ret v, s') ->
  issues s s' (Some (optional_call nh name func)).
Proof.
  unfold VCS_FROM_SINGLE_PARAM_OPTIONAL, optional_call.
  destruct (getParam getParam_int nh name) as [x|].
  - intros H. apply bind_Ret in H. destruct H as ([] & s1 & E & H). inversion H; subst.
    apply VCS_Ret in E. destruct E as (_ & y & C).
    eexists _, _. split; [reflexivity|]. split; [exact C | reflexivity].
  - intros H. inversion H; subst. exists [], []. split; [reflexivity|].
    rewrite app_nil_r. split; reflexivity.
Qed.

Lemma init_dc_motor_issues nh (s s' : St) :
  init_dc_motor vcs (child nh "motor") s = (Ret tt, s') -> issues s s' (dc_motor_calls nh).
Proof.
  unfold issues, dc_motor_calls, init_dc_motor. cbv zeta. open_loader; block_calls_done H.
Qed.

Lemma init_ec_motor_issues nh (s s' : St) :
  init_ec_motor vcs (child nh "motor") s = (Ret tt, s') -> issues s s' (ec_motor_calls nh).
Proof.
  unfold issues, ec_motor_calls, init_ec_motor. cbv zeta. open_loader; block_calls_done H.
Qed.

Lemma init_incremental_encoder_issues nh (s s' : St) :
  init_incremental_encoder vcs (child nh "sensor") s = (Ret tt, s') ->
  issues s s' (incremental_encoder_calls nh).
Proof.
  unfold issues, incremental_encoder_calls, init_incremental_encoder. cbv zeta.
  open_loader; [|block_calls_done H].
  apply bind_Ret in H. destruct H as ([] & s1 & E & H).
  apply VCS_Ret in E. destruct E as (_ & x & C). cbn [calls] in C.
  assert (Hc : calls s' = calls s1).
  { destruct p0; [run_block_in H|]; inversion H; subst; reflexivity. }
  destruct p0.
  - run_block_in H. eexists _, _. split; [reflexivity|].
    split; [rewrite Hc; exact C | reflexivity].
  - eexists _, _. split; [reflexivity|]. split; [rewrite Hc; exact C | reflexivity].
Qed.

Lemma init_hall_sensor_issues nh (s s' : St) :
  init_hall_sensor vcs (child nh "sensor") s = (Ret tt, s') ->
  issues s s' (hall_sensor_calls nh).
Proof.
  unfold issues, hall_sensor_calls, init_hall_sensor. cbv zeta. open_loader; block_calls_done H.
Qed.

Lemma init_ssi_absolute_encoder_issues nh (s s' : St) :
  init_ssi_absolute_encoder vcs (child nh "sensor") s = (Ret tt, s') ->
  issues s s' (ssi_absolute_encoder_calls nh).
Proof.
  unfold issues, ssi_absolute_encoder_calls, init_ssi_absolute_encoder. cbv zeta.
  open_loader; [|block_calls_done H].
  apply bind_Ret in H. destruct H as ([] & s1 & E & H).
  apply VCS_Ret in E. destruct E as (_ & x & C). cbn [calls] in C.
  run_block_in H.
  assert (Hc : calls s' = calls s1) by (destruct p2; inversion H; subst; reflexivity).
  eexists _, _. split; [reflexivity|]. split; [rewrite Hc; exact C | reflexivity].
Qed.

Lemma init_position_regulator_gain_issues nh (s s' : St) :
  init_position_regulator_gain vcs (child nh "position_regulator") s = (Ret tt, s') ->
  issues s s' (position_regulator_gain_calls nh).
Proof.
  unfold issues, position_regulator_gain_calls, init_position_regulator_gain. cbv zeta.
  open_loader; block_calls_done H.
Qed.

Lemma init_position_regulator_feed_forward_issues nh (s s' : St) :
  init_position_regulator_feed_forward vcs (child nh "position_regulator") s = (Ret tt, s') ->
  issues s s' (position_regulator_feed_forward_calls nh).
Proof.
  unfold issues, position_regulator_feed_forward_calls, init_position_regulator_feed_forward.
  cbv zeta. open_loader; block_calls_done H.
Qed.

Lemma init_velocity_regulator_gain_issues nh (s s' : St) :
  init_velocity_regulator_gain vcs (child nh "velocity_regulator") s = (Ret tt, s') ->
  issues s s' (velocity_regulator_gain_calls nh).
Proof.
  unfold issues, velocity_regulator_gain_calls, init_velocity_regulator_gain. cbv zeta.
  open_loader; block_calls_done H.
Qed.

Lemma init_velocity_regulator_feed_forward_issues nh (s s' : St) :
  init_velocity_regulator_feed_forward vcs (child nh "velocity_regulator") s = (Ret tt, s') ->
  issues s s' (velocity_regulator_feed_forward_calls nh).
Proof.
  unfold issues, velocity_regulator_feed_forward_calls, init_velocity_regulator_feed_forward.
  cbv zeta. open_loader; block_calls_done H.
Qed.

Lemma init_current_regulator_gain_issues nh (s s' : St) :
  init_current_regulator_gain vcs (child nh "current_regulator") s = (Ret tt, s') ->
  issues s s' (current_regulator_gain_calls nh).
Proof.
  unfold issues, current_regulator_gain_calls, init_current_regulator_gain. cbv zeta.
  open_loader; block_calls_done H.
Qed.

Lemma init_position_profile_values_issues nh (s s' : St) :
  init_position_profile_values vcs (child nh "position_profile") s = (Ret tt, s') ->
  issues s s' (position_profile_calls nh).
Proof.
  unfold issues, position_profile_calls, init_position_profile_values. cbv zeta.
  open_loader; block_calls_done H.
Qed.

Lemma init_position_profile_window_issues nh (s s' : St) :
  init_position_profile_window vcs (child nh "position_profile") s = (Ret tt, s') ->
  issues s s' (position_profile_window_calls nh).
Proof.
  unfold issues, position_profile_window_calls, init_position_profile_window. cbv zeta.
  open_loader; block_calls_done H.
Qed.

Lemma init_velocity_profile_values_issues nh (s s' : St) :
  init_velocity_profile_values vcs (child nh "velocity_profile") s = (Ret tt, s') ->
  issues s s' (velocity_profile_calls nh).
Proof.
  unfold issues, velocity_profile_calls, init_velocity_profile_values. cbv zeta.
  open_loader; block_calls_done H.
Qed.

Lemma init_velocity_profile_window_issues nh (s s' : St) :
  init_velocity_profile_window vcs (child nh "velocity_profile") s = (Ret tt, s') ->
  issues s s' (velocity_profile_window_calls nh).
Proof.
  unfold issues, velocity_profile_window_calls, init_velocity_profile_window. cbv zeta.
  open_loader; block_calls_done H.
Qed.

Lemma sequence_calls_app bs1 bs2 :
  sequence_calls (bs1 ++ bs2) =
    match sequence_calls bs1, sequence_calls bs2 with
    | Some l, Some r => Some (l ++ r)
    | _, _ => None
    end.
Proof.
  induction bs1 as [|b bs1 IH]; cbn [app sequence_calls foldr].
  - change (foldr _ (Some []) bs2) with (sequence_calls bs2).
    destruct (sequence_calls bs2); reflexivity.
  - change (foldr _ (Some []) (bs1 ++ bs2)) with (sequence_calls (bs1 ++ bs2)).
    change (foldr _ (Some []) bs1) with (sequence_calls bs1).
    rewrite IH. destruct b, (sequence_calls bs1), (sequence_calls bs2);
      try reflexivity. rewrite app_assoc. reflexivity.
Qed.

Lemma issues_app (s1 s2 s3 : St) bs1 bs2 :
  issues s1 s2 (sequence_calls bs1) -> issues s2 s3 (sequence_calls bs2) ->
  issues s1 s3 (sequence_calls (bs1 ++ bs2)).
Proof.
  intros (l1 & t1 & B1 & C1 & I1) (l2 & t2 & B2 & C2 & I2).
  exists (l1 ++ l2), (t1 ++ t2). rewrite sequence_calls_app, B1, B2.
  split; [reflexivity|]. split; [rewrite C2, C1, app_assoc; reflexivity|].
  rewrite issued_app, I1, I2. reflexivity.
Qed.

Lemma issues_Some_app (s1 s2 s3 : St) l1 l2 :
  issues s1 s2 (Some l1) -> issues s2 s3 (Some l2) -> issues s1 s3 (Some (l1 ++ l2)).
Proof.
  intros (l1' & t1 & B1 & C1 & I1) (l2' & t2 & B2 & C2 & I2).
  injection B1 as <-. injection B2 as <-.
  exists (l1 ++ l2), (t1 ++ t2).
  split; [reflexivity|]. split; [rewrite C2, C1, app_assoc; reflexivity|].
  rewrite issued_app, I1, I2. reflexivity.
Qed.

Lemma init_motor_issues fuel (s s' : St) :
  init_motor vcs fuel s = (Ret tt, s') ->
  let nh := config_nh_ (obj s) in
  issues s s' (sequence_calls [motor_type_calls nh; dc_motor_calls nh; ec_motor_calls nh]).
Proof.
  unfold init_motor. intros H. set (nh := config_nh_ (obj s)). run_block_in H.
  rewrite config_nh_set_max_current_, config_nh_set_nominal_current_ in H. fold nh in H.
  apply bind_Ret in H. destruct H as (v & sA & EA & H).
  apply bind_Ret in H. destruct H as ([] & sB & EB & H).
  apply bind_Ret in H. destruct H as ([] & sC & EC & H).
  assert (sC = s') as ->.
  { destruct (getParam getParam_double (child nh "motor") "max_speed") as [ms|].
    - exfalso. run_block_in H. apply (f_equal fst) in H. simpl in H.
      exact (VCS_SET_OBJECT_never_completes vcs fuel _ _ _ _ _ _ H).
    - inversion H; subst. reflexivity. }
  apply required_param_issues in EA.
  eapply issues_calls; [|eapply issues_trans; [exact EA|]]; [reflexivity|].
  eapply issues_trans; [exact (init_dc_motor_issues _ _ _ EB)|].
  apply issues_one. exact (init_ec_motor_issues _ _ _ EC).
Qed.

Lemma init_sensor_issues (s s' : St) :
  init_sensor vcs s = (Ret tt, s') ->
  let nh := config_nh_ (obj s) in
  issues s s'
    (sequence_calls [sensor_type_calls nh; incremental_encoder_calls nh;
                     hall_sensor_calls nh; ssi_absolute_encoder_calls nh]).
Proof.
  unfold init_sensor. intros H. set (nh := config_nh_ (obj s)). run_block_in H.
  rewrite config_nh_set_encoder_resolution_ in H. fold nh in H.
  apply bind_Ret in H. destruct H as (v & sA & EA & H).
  apply bind_Ret in H. destruct H as ([] & sB & EB & H).
  apply bind_Ret in H. destruct H as ([] & sC & EC & H).
  apply bind_Ret in H. destruct H as ([] & sD & ED & H).
  run_block_in H.
  destruct (encoder_resolution_ (obj sD) =? 0); [rewrite bind_log in H; discriminate|].
  inversion H; subst sD; clear H.
  apply required_param_issues in EA.
  eapply issues_calls; [|eapply issues_trans; [exact EA|]]; [reflexivity|].
  eapply issues_trans; [exact (init_incremental_encoder_issues _ _ _ EB)|].
  eapply issues_trans; [exact (init_hall_sensor_issues _ _ _ EC)|].
  apply issues_one. exact (init_ssi_absolute_encoder_issues _ _ _ ED).
Qed.

Lemma init_safety_issues (s s' : St) :
  init_safety vcs s = (Ret tt, s') ->
  issues s s' (sequence_calls [safety_calls (config_nh_ (obj s))]).
Proof.
  unfold init_safety. intros H. run_block_in H.
  apply bind_Ret in H. destruct H as (v1 & s1 & E1 & H).
  apply bind_Ret in H. destruct H as (v2 & s2 & E2 & H).
  apply bind_Ret in H. destruct H as (v3 & s3 & E3 & H).
  assert (Hc : calls s' = calls s3) by (destruct v2; inversion H; subst; reflexivity).
  apply optional_param_issues in E1, E2, E3.
  apply issues_one. unfold safety_calls. cbv zeta.
  eapply issues_calls; [reflexivity|].
  eapply issues_Some_app; [exact E1|]. eapply issues_Some_app; [exact E2|].
  destruct E3 as (l & t & B & C & I). exists l, t. rewrite Hc. auto.
Qed.

Lemma init_position_regulator_issues (s s' : St) :
  init_position_regulator vcs s = (Ret tt, s') ->
  let nh := config_nh_ (obj s) in
  issues s s'
    (sequence_calls [position_regulator_gain_calls nh;
                     position_regulator_feed_forward_calls nh]).
Proof.
  unfold init_position_regulator. intros H. set (nh := config_nh_ (obj s)). run_block_in H. fold nh in H.
  apply bind_Ret in H. destruct H as ([] & s1 & E1 & H).
  eapply issues_calls; [|eapply issues_trans;
    [exact (init_position_regulator_gain_issues _ _ _ E1)|]]; [reflexivity|].
  apply issues_one. exact (init_position_regulator_feed_forward_issues _ _ _ H).
Qed.

Lemma init_velocity_regulator_issues (s s' : St) :
  init_velocity_regulator vcs s = (Ret tt, s') ->
  let nh := config_nh_ (obj s) in
  issues s s'
    (sequence_calls [velocity_regulator_gain_calls nh;
                     velocity_regulator_feed_forward_calls nh]).
Proof.
  unfold init_velocity_regulator. intros H. set (nh := config_nh_ (obj s)). run_block_in H. fold nh in H.
  apply bind_Ret in H. destruct H as ([] & s1 & E1 & H).
  eapply issues_calls; [|eapply issues_trans;
    [exact (init_velocity_regulator_gain_issues _ _ _ E1)|]]; [reflexivity|].
  apply issues_one. exact (init_velocity_regulator_feed_forward_issues _ _ _ H).
Qed.

Lemma init_current_regulator_issues (s s' : St) :
  init_current_regulator vcs s = (Ret tt, s') ->
  issues s s' (sequence_calls [current_regulator_gain_calls (config_nh_ (obj s))]).
Proof.
  unfold init_current_regulator. intros H. run_block_in H.
  eapply issues_calls; [|apply issues_one;
    exact (init_current_regulator_gain_issues _ _ _ H)]. reflexivity.
Qed.

Lemma init_position_profile_issues (s s' : St) :
  init_position_profile vcs s = (Ret tt, s') ->
  let nh := config_nh_ (obj s) in
  issues s s'
    (sequence_calls [position_profile_calls nh; position_profile_window_calls nh]).
Proof.
  unfold init_position_profile. intros H. set (nh := config_nh_ (obj s)). run_block_in H. fold nh in H.
  apply bind_Ret in H. destruct H as ([] & s1 & E1 & H).
  eapply issues_calls; [|eapply issues_trans;
    [exact (init_position_profile_values_issues _ _ _ E1)|]]; [reflexivity|].
  apply issues_one. exact (init_position_profile_window_issues _ _ _ H).
Qed.

Lemma init_velocity_profile_issues (s s' : St) :
  init_velocity_profile vcs s = (Ret tt, s') ->
  let nh := config_nh_ (obj s) in
  issues s s'
    (sequence_calls [velocity_profile_calls nh; velocity_profile_window_calls nh]).
Proof.
  unfold init_velocity_profile. intros H. set (nh := config_nh_ (obj s)). run_block_in H. fold nh in H.
  apply bind_Ret in H. destruct H as ([] & s1 & E1 & H).
  eapply issues_calls; [|eapply issues_trans;
    [exact (init_velocity_profile_values_issues _ _ _ E1)|]]; [reflexivity|].
  apply issues_one. exact (init_velocity_profile_window_issues _ _ _ H).
Qed.

(** X12: the calls of a bring-up that returned true are a function of the
    configuration, up to the enumeration of the faults: the three calls of
    the connection, the initial operation mode when the mode map has one,
    then for every configured block its call, in the order of the source,
    and last the calls of the fault block. The arguments are those of
    [configured_calls]: the configured values (currents in mA, the thermal
    time constant in units of 100 ms, window times in ms) converted to the
    types of the library's parameters, that is reduced modulo 2^16 for an
    [unsigned short], modulo 2^32 for an [unsigned int] and modulo 2^8 for
    the number of pole pairs. A group that is not configured contributes no
    call. *)
Theorem init_true_pushes_configuration fuel (s s' : St) :
  init vcs fuel s = (Ret tt, s') ->
  exists l t tf,
    configured_calls (config_nh_ (obj s)) = Some l /\
    calls s' = calls s ++ t ++ tf /\
    issued t = connect_calls (serial_number_ (obj s)) ++ initial_mode_calls (obj s) ++ l /\
    FaultRun (param_or getParam_bool (config_nh_ (obj s)) "clear_faults" false) (Ret tt) tf.
Proof.
  intros H. apply init_cases in H.
  destruct H as [[Hr _] | (s12 & pre & H & EF & Hh & _ & Hn & _)]; [congruence|].
  apply init_faults_and_enable_runs in EF; [|exact Hh].
  destruct EF as (tf & Cf & Rf & _). rewrite Hn in Rf. clear Hn Hh pre.
  apply init_configure_blocks_nh in H.
  destruct H as (s1 & s2 & s3 & s4 & s5 & s6 & s7 & s8 & s9 & s10 & s11 &
                 (E1 & E2 & E3 & E4 & E5 & E6 & E7 & E8 & E9 & E10 & E11 & E12) & N).
  repeat match goal with
         | N : Forall _ (_ :: _) |- _ =>
             let N1 := fresh "N" in apply Forall_cons in N; destruct N as [N1 N]
         | N : Forall _ [] |- _ => clear N
         end.
  apply init_connect_Ret_calls in E1. destruct E1 as (_ & h & a & b & _ & C1 & O1).
  apply init_initial_mode_Ret_calls in E2. destruct E2 as (_ & C2).
  assert (Hm : operation_mode_map_ (obj s1) = operation_mode_map_ (obj s))
    by (rewrite O1; destruct (obj s); reflexivity).
  rewrite Hm in C2.
  assert (C3 : calls s3 = calls s2).
  { pose proof (init_fault_reaction_Ret vcs fuel s2 s3 E3) as Hnone.
    unfold init_fault_reaction in E3. rewrite bind_get_obj, Hnone in E3.
    inversion E3; subst. reflexivity. }
  apply init_torque_constant_stores in E4. destruct E4 as (_ & C4 & _).
  apply init_motor_issues in E5. apply init_sensor_issues in E6.
  apply init_safety_issues in E7. apply init_position_regulator_issues in E8.
  apply init_velocity_regulator_issues in E9. apply init_current_regulator_issues in E10.
  apply init_position_profile_issues in E11. apply init_velocity_profile_issues in E12.
  cbv zeta in *.
  repeat match goal with
         | Hn : config_nh_ (obj ?x) = config_nh_ (obj s), E : context [config_nh_ (obj ?x)] |- _ =>
             rewrite Hn in E
         end.
  pose proof (issues_app _ _ _ _ _ E5
                (issues_app _ _ _ _ _ E6
                   (issues_app _ _ _ _ _ E7
                      (issues_app _ _ _ _ _ E8
                         (issues_app _ _ _ _ _ E9
                            (issues_app _ _ _ _ _ E10
                               (issues_app _ _ _ _ _ E11 E12))))))) as (l & t & B & C & I).
  cbn [app] in B.
  exists l.
  exists ([(CreateNodeHandle "EPOS4" "MAXON SERIAL V2" "USB" (serial_number_ (obj s)), Success h);
           (SetProtocolStackSettings 1000000 500, Success a);
           (SetDisableState, Success b)]
          ++ drop (length (calls s1)) (calls s2) ++ t), tf.
  split; [exact B|].
  assert (Hmode : calls s2 = calls s1 ++ drop (length (calls s1)) (calls s2) /\
                  issued (drop (length (calls s1)) (calls s2)) = initial_mode_calls (obj s)).
  { unfold initial_mode_calls. destruct (operation_mode_map_ (obj s) !! "") as [m|].
    - destruct C2 as (x & C2). rewrite C2, drop_app_length. split; reflexivity.
    - rewrite C2, drop_all, app_nil_r. split; reflexivity. }
  destruct Hmode as [Hm1 Hm2].
  remember (drop (length (calls s1)) (calls s2)) as tm eqn:Etm. clear Etm.
  split; [|split; [|exact Rf]].
  - rewrite Cf, C, C4, C3, Hm1, C1, <- !app_assoc. reflexivity.
  - rewrite !issued_app, Hm2, I. reflexivity.
Qed.

End ConfiguredCalls.

(** * The properties on the stub transport *)

Import Stub Scenario.

Lemma all_or_none_rule_witness :
  let nh := g_nh dc_motor_group (nh_of partial_dc_motor) in
  let attrs := g_attrs dc_motor_group in
  (0 < count_present nh attrs < length attrs)%nat /\
  all_or_none (load attrs (make nh)) None
    = (false, None, report (load attrs (make nh))) /\
  fst (init vcs 0 (boot None partial_dc_motor healthy)) <> Ret tt.
Proof.
  intros nh attrs.
  assert (Hk : (0 < count_present nh attrs < length attrs)%nat) by (vm_compute; lia).
  destruct (all_or_none_rule vcs nh attrs None) as (_ & _ & H3 & H4).
  split; [exact Hk|]. split; [apply (H3 Hk)|].
  apply (H4 0%nat (boot None partial_dc_motor healthy) _
            (snd (init vcs 0 (boot None partial_dc_motor healthy))) dc_motor_group).
  - left. reflexivity.
  - reflexivity.
  - reflexivity.
  - exact Hk.
  - apply surjective_pairing.
Defined.

Lemma init_true_verified_fault_free_witness :
  let s := boot None clearing_faults (faulty true) in
  fst (init vcs 0 s) = Ret tt /\
  exists pre n codes k x,
    calls (snd (init vcs 0 s)) =
      calls s ++ pre ++ (GetNbOfDeviceError, Success n) :: codes ++ k
      ++ [(GetNbOfDeviceError, Success 0); (SetEnableState, Success x)].
Proof.
  intros s.
  assert (Hr : fst (init vcs 0 s) = Ret tt) by (vm_compute; reflexivity).
  split; [exact Hr|].
  destruct (init_true_verified_fault_free vcs 0%nat s _ (run_eq _ _ Hr))
    as (_ & pre & n & codes & k & x & H & _).
  exists pre, n, codes, k, x. exact H.
Defined.

(** C5: with [clear_faults] and two faults reported. When the clear command
    fails there is one clear attempt and no second enumeration; when the
    query of an error code fails there is no clear attempt. *)
Lemma init_fault_policy_counterexample :
  param_or getParam_bool (config_nh_ (obj clear_refused)) "clear_faults" false = true /\
  fst (init vcs 0 clear_refused) = Fail /\
  fault_block_calls (new_calls clear_refused (snd (init vcs 0 clear_refused)))
    = [(GetNbOfDeviceError, Success 2); (GetDeviceErrorCode 1, Success 0x7320);
       (GetDeviceErrorCode 2, Success 0x8611); (ClearFault, Failure None 0x1000)] /\
  param_or getParam_bool (config_nh_ (obj codes_unreadable)) "clear_faults" false = true /\
  fst (init vcs 0 codes_unreadable) = Fail /\
  fault_block_calls (new_calls codes_unreadable (snd (init vcs 0 codes_unreadable)))
    = [(GetNbOfDeviceError, Success 2); (GetDeviceErrorCode 1, Failure None 0x1000)].
Proof.
  split; [vm_compute; reflexivity|]. split; [vm_compute; reflexivity|].
  split; [vm_compute; reflexivity|]. split; [vm_compute; reflexivity|].
  split; vm_compute; reflexivity.
Qed.

Lemma init_fault_policy_witness :
  let s := boot None clearing_faults (faulty true) in
  exists pre codes y x,
    calls (snd (init vcs 0 s)) =
      calls s ++ pre
      ++ (GetNbOfDeviceError, Success 2) :: codes
      ++ [(ClearFault, Success y); (GetNbOfDeviceError, Success 0);
          (SetEnableState, Success x)].
Proof.
  intros s.
  assert (Hc : fst (init_configure vcs 0 s) = Ret tt) by (vm_compute; reflexivity).
  assert (Hr : fst (init vcs 0 s) = Ret tt) by (vm_compute; reflexivity).
  destruct (init_fault_policy vcs 0%nat s (snd (init_configure vcs 0 s))
              (snd (init vcs 0 s)) (Ret tt) 2 (run_eq _ _ Hc)
              ltac:(vm_compute; reflexivity) ltac:(lia) (run_eq _ _ Hr))
    as (pre & codes & t & _ & Hcalls & _ & _ & _ & Hclear).
  destruct (Hclear ltac:(vm_compute; reflexivity))
    as (_ & [[E _] | [[E _] | [[E _] | [[E _] | [[E _] | [_ (y & x & ->)]]]]]]);
    try discriminate E.
  exists pre, codes, y, x. exact Hcalls.
Defined.

Lemma failed_init_makes_cycles_noops_witness :
  let s := boot None base_params (faulty false) in
  let s' := snd (init vcs 0 s) in
  fst (init vcs 0 s) = Fail /\
  run_cycles vcs [DoRead fr0; DoWrite; DoRead fr0; DoWrite] s' = (Ret tt, s').
Proof.
  intros s s'.
  assert (Hr : fst (init vcs 0 s) = Fail) by (vm_compute; reflexivity).
  split; [exact Hr|].
  destruct (failed_init_makes_cycles_noops vcs 0%nat s s' eq_refl (run_eq _ _ Hr))
    as (_ & Hnoop & _).
  apply Hnoop.
Defined.

Lemma write_profile_velocity_clamps_witness :
  max_profile_velocity_ (obj fast_command) = 10 /\
  Num.to_int (1000 * 30 / Num.M_PI)%float = Some 9549 /\
  write vcs fast_command = (Ret tt, after_call vcs (MoveWithVelocity 10) fast_command).
Proof.
  split; [vm_compute; reflexivity|]. split; [vm_compute; reflexivity|].
  destruct (write_profile_velocity_clamps vcs fast_command 9549)
    as (_ & sent & Hw & Hrange & _).
  - split; [vm_compute; reflexivity | vm_compute; eexists; reflexivity].
  - vm_compute; reflexivity.
  - vm_compute; reflexivity.
  - vm_compute; reflexivity.
  - vm_compute; reflexivity.
  - change (max_profile_velocity_ (obj fast_command)) with 10 in Hrange.
    destruct (Hrange ltac:(lia)) as (_ & _ & _ & Hmax).
    rewrite (Hmax ltac:(lia)) in Hw. exact Hw.
Defined.

(** C9: torque constant 2 and a command of 80 Nm. The setpoint is 40000 mA;
    the device receives -25536. *)
Lemma write_current_counterexample :
  torque_constant_ (obj strong_torque_command) = 2%float /\
  torque_cmd_ (obj strong_torque_command) = 80%float /\
  Num.to_int (80 / 2 * 1000)%float = Some 40000 /\
  new_calls strong_torque_command (snd (write Stub.vcs strong_torque_command))
    = [(SetCurrentMust (-25536), Success 0)].
Proof.
  split; [vm_compute; reflexivity|]. split; [vm_compute; reflexivity|].
  split; vm_compute; reflexivity.
Qed.

Lemma write_current_milliamps_witness :
  torque_constant_ (obj torque_command) = 2%float /\
  torque_cmd_ (obj torque_command) = 4%float /\
  write vcs torque_command = (Ret tt, after_call vcs (SetCurrentMust 2000) torque_command).
Proof.
  split; [vm_compute; reflexivity|]. split; [vm_compute; reflexivity|].
  destruct (write_current_milliamps vcs torque_command 2000)
    as (sent & Hw & _ & _ & Hsent).
  - split; [vm_compute; reflexivity | vm_compute; eexists; reflexivity].
  - vm_compute; reflexivity.
  - vm_compute; reflexivity.
  - vm_compute; reflexivity.
  - vm_compute; reflexivity.
  - rewrite (Hsent ltac:(lia)) in Hw. exact Hw.
Defined.

Lemma read_survives_failed_calls_witness :
  fst (read Stub.vcs fr0 link_lost) = Ret tt /\
  statusword_ (obj link_lost) = 0x0237 /\
  statusword_ (obj (snd (read Stub.vcs fr0 link_lost))) = 0x0237.
Proof.
  destruct (read_survives_failed_calls Stub.vcs fr0 link_lost)
    as (s' & t & Hrun & _ & _ & Hsw).
  - split; [vm_compute; reflexivity | vm_compute; eexists; reflexivity].
  - rewrite Hrun. cbn [fst snd]. split; [reflexivity|]. split; [vm_compute; reflexivity|].
    rewrite (Hsw 0x1000); vm_compute; reflexivity.
Defined.

(** C6: the position query fails and leaves its output untouched; the cached
    position does not keep its previous value. *)
Lemma read_failure_counterexample :
  new_calls running (snd (read Stub.vcs fr0 position_lost))
    = [(GetObject 0x6041 0x00 2, Success 0x0237); (GetPositionIs, Failure None 0x1000);
       (GetVelocityIs, Success 60); (GetCurrentIs, Success 500)] /\
  position_ (obj position_lost) = 4000%float /\
  position_ (obj (snd (read Stub.vcs fr0 position_lost))) = 0%float /\
  position_ (obj (snd (read Stub.vcs fr0 position_lost))) <> position_ (obj position_lost).
Proof.
  split; [vm_compute; reflexivity|]. split; [vm_compute; reflexivity|].
  split; [vm_compute; reflexivity|].
  intros H. apply (f_equal Num.to_int) in H. vm_compute in H. discriminate H.
Qed.

(** C1: a driver whose [operation_mode_] holds the velocity mode is switched
    to the effort controller, which the mode map sends to the current mode.
    [doSwitch] sets the device to the current mode and leaves
    [operation_mode_] as it is; the next [write], with a torque command of
    4 Nm, still takes the velocity branch. *)
Lemma doSwitch_leaves_write_dispatch :
  operation_mode_map_ (obj before_switch) !! "effort_controller" = Some CURRENT_MODE /\
  new_calls before_switch after_switch = [(SetOperationMode CURRENT_MODE, Success 0)] /\
  operation_mode_ (obj after_switch) = Some PROFILE_VELOCITY_MODE /\
  new_calls effort_command (snd (write Stub.vcs effort_command))
    = [(MoveWithVelocity 0, Success 0)].
Proof.
  split; [vm_compute; reflexivity|]. split; [vm_compute; reflexivity|].
  split; vm_compute; reflexivity.
Qed.

(** C2: the registers of a constructed driver are not NaN, and the first
    write of a brought-up driver sends a velocity command. *)
Lemma constructed_commands_counterexample :
  Num.isnan (position_cmd_ (driver None base_params)) = false /\
  Num.isnan (velocity_cmd_ (driver None base_params)) = false /\
  velocity_cmd_ (obj before_switch) = velocity_cmd_ (driver None base_params) /\
  new_calls before_switch (snd (write Stub.vcs before_switch))
    = [(MoveWithVelocity 0, Success 0)].
Proof.
  split; [vm_compute; reflexivity|]. split; [vm_compute; reflexivity|].
  split; vm_compute; reflexivity.
Qed.

Lemma constructed_commands_are_zero_witness :
  write Stub.vcs before_switch
    = (Ret tt, after_call Stub.vcs (MoveWithVelocity 0) before_switch).
Proof.
  destruct (constructed_commands_are_zero Stub.vcs Stub.SerialNumberFromHex "epos"
              (nh_of base_params) (raw_memory None) (driver None base_params)
              before_switch ltac:(vm_compute; reflexivity))
    as (_ & _ & _ & _ & Hv & _).
  apply Hv.
  - split; [vm_compute; reflexivity | vm_compute; eexists; reflexivity].
  - vm_compute; reflexivity.
  - vm_compute; reflexivity.
Defined.



(** * The further properties on the stub transport *)

Import Cases.

Lemma init_stops_at_first_failure_witness :
  let s := boot None base_params (breaking ["SetSensorType"] true healthy) in
  fst (init vcs 0 s) = Fail /\
  exists t, calls (snd (init vcs 0 s)) = calls s ++ t /\ all_succeeded (removelast t).
Proof.
  intros s.
  assert (Hr : fst (init vcs 0 s) = Fail) by (vm_compute; reflexivity).
  split; [exact Hr|].
  destruct (init_stops_at_first_failure vcs 0%nat s _ _ (run_eq _ _ Hr)) as (t & C & F & _).
  exists t. split; [exact C | exact F].
Defined.

Lemma init_refuses_invalid_configuration_witness :
  let s := boot None unknown_mode healthy in
  fst (init vcs 0 s) = Fail /\ calls (snd (init vcs 0 s)) = calls s /\
  dev (snd (init vcs 0 s)) = dev s.
Proof.
  intros s.
  rewrite (init_refuses_invalid_configuration vcs SerialNumberFromHex "epos"
             (nh_of unknown_mode) (raw_memory None) 0%nat s).
  - cbn [fst snd calls dev]. split; [reflexivity|]. split; reflexivity.
  - vm_compute; reflexivity.
  - right. right. exists "arm_controller", "torque".
    split; vm_compute; reflexivity.
Defined.

Lemma init_motor_not_found_witness :
  let s := boot None base_params (breaking ["CreateNodeHandle"] true healthy) in
  exists s',
    init vcs 0 s = (Fail, s') /\
    calls s' = calls s
      ++ [(CreateNodeHandle "EPOS4" "MAXON SERIAL V2" "USB" (serial_number_ (obj s)),
           Failure None 0x1000)] /\
    node_handle_ (obj s') = None.
Proof.
  intros s.
  destruct (init_motor_not_found vcs 0%nat s None 0x1000
              ltac:(vm_compute; reflexivity) ltac:(vm_compute; reflexivity))
    as (s' & Hrun & Hcalls & Hn & _).
  exists s'. split; [exact Hrun|]. split; [exact Hcalls | exact Hn].
Defined.

Lemma init_begins_with_connection_witness :
  let s := boot None base_params healthy in
  exists h a b x rest,
    calls (snd (init vcs 0 s)) =
      calls s
      ++ [(CreateNodeHandle "EPOS4" "MAXON SERIAL V2" "USB" (serial_number_ (obj s)), Success h);
          (SetProtocolStackSettings 1000000 500, Success a);
          (SetDisableState, Success b)]
      ++ [(SetOperationMode PROFILE_POSITION_MODE, Success x)] ++ rest /\
    node_handle_ (obj (snd (init vcs 0 s))) = Some h.
Proof.
  intros s.
  assert (Hr : fst (init vcs 0 s) = Ret tt) by (vm_compute; reflexivity).
  destruct (init_begins_with_connection vcs 0%nat s _ (run_eq _ _ Hr))
    as (h & a & b & mode & rest & C & M & _ & N).
  assert (Hm : operation_mode_map_ (obj s) !! "" = Some PROFILE_POSITION_MODE)
    by (vm_compute; reflexivity).
  rewrite Hm in M. destruct M as (x & M). rewrite M in C.
  exists h, a, b, x, rest. split; [exact C | exact N].
Defined.

Lemma dtor_disables_found_motor_witness :
  let s := boot None base_params (faulty false) in
  let s' := snd (init vcs 0 s) in
  fst (init vcs 0 s) = Fail /\
  Epos_dtor vcs s' = (Ret tt, after_call vcs SetDisableState s').
Proof.
  intros s s'.
  assert (Hr : fst (init vcs 0 s) = Fail) by (vm_compute; reflexivity).
  split; [exact Hr|].
  pose proof (dtor_disables_found_motor vcs 0%nat s s' Fail
                ltac:(vm_compute; reflexivity) (run_eq _ _ Hr)) as H.
  cbv zeta in H.
  assert (Hs : succeeded
                 (typed (CreateNodeHandle "EPOS4" "MAXON SERIAL V2" "USB" (serial_number_ (obj s)))
                    (vcs (CreateNodeHandle "EPOS4" "MAXON SERIAL V2" "USB"
                            (serial_number_ (obj s))) (dev s)).1) = true)
    by (vm_compute; reflexivity).
  rewrite Hs in H. exact H.
Defined.

Lemma init_never_clears_has_init_witness :
  fst (init vcs 0 faulted) = Fail /\
  has_init_ (obj (snd (init vcs 0 faulted))) = true.
Proof.
  assert (Hr : fst (init vcs 0 faulted) = Fail) by (vm_compute; reflexivity).
  split; [exact Hr|].
  apply (init_never_clears_has_init vcs 0%nat faulted _ Fail).
  - vm_compute; reflexivity.
  - exact (run_eq _ _ Hr).
Defined.


Lemma init_true_without_set_object_witness :
  let s := boot None base_params healthy in
  fst (init vcs 0 s) = Ret tt /\
  getParam getParam_string (config_nh_ (obj s)) "fault_reaction_option" = None /\
  getParam getParam_double (child (config_nh_ (obj s)) "motor") "max_speed" = None.
Proof.
  intros s.
  assert (Hr : fst (init vcs 0 s) = Ret tt) by (vm_compute; reflexivity).
  split; [exact Hr|].
  exact (init_true_without_set_object vcs 0%nat s _ (run_eq _ _ Hr)).
Defined.

Lemma init_true_encoder_resolution_witness :
  let s := boot None ssi_sensor healthy in
  configured_resolution (config_nh_ (obj s)) = Some (- 4096) /\
  Some (encoder_resolution_ (obj (snd (init vcs 0 s)))) = Some (- 4096).
Proof.
  intros s.
  assert (Hr : fst (init vcs 0 s) = Ret tt) by (vm_compute; reflexivity).
  assert (Hc : configured_resolution (config_nh_ (obj s)) = Some (- 4096))
    by (vm_compute; reflexivity).
  split; [exact Hc|].
  destruct (init_true_encoder_resolution vcs 0%nat s _ (run_eq _ _ Hr)) as (H & _).
  rewrite <- H. exact Hc.
Defined.

Lemma init_true_stores_configuration_witness :
  let s := boot None dc_motor healthy in
  let e := obj (snd (init vcs 0 s)) in
  torque_constant_ e = 2%float /\
  (nominal_current_ e, max_current_ e) = (1.5%float, 3%float) /\
  halt_velocity_ e = true /\ has_init_ e = true.
Proof.
  intros s e.
  assert (Hr : fst (init vcs 0 s) = Ret tt) by (vm_compute; reflexivity).
  destruct (init_true_stores_configuration vcs 0%nat s _ (run_eq _ _ Hr))
    as (T & C & H & I).
  subst e. rewrite T, C, H, I.
  split; [vm_compute; reflexivity|]. split; [vm_compute; reflexivity|].
  split; [vm_compute; reflexivity | reflexivity].
Defined.

Lemma init_true_pushes_configuration_witness :
  let s := boot None strong_dc_motor healthy in
  Num.to_int (1000 * 70)%float = Some 70000 /\
  Num.to_int (1000 * 80)%float = Some 80000 /\
  exists t tf,
    calls (snd (init vcs 0 s)) = calls s ++ t ++ tf /\
    issued t =
      connect_calls (serial_number_ (obj s))
      ++ [SetOperationMode PROFILE_POSITION_MODE; SetMotorType 10;
          SetDcMotorParameter 4464 14464 100; SetSensorType 1;
          SetIncEncoderParameter 1000 false].
Proof.
  intros s.
  split; [vm_compute; reflexivity|]. split; [vm_compute; reflexivity|].
  assert (Hr : fst (init vcs 0 s) = Ret tt) by (vm_compute; reflexivity).
  destruct (init_true_pushes_configuration vcs 0%nat s _ (run_eq _ _ Hr))
    as (l & t & tf & B & C & I & _).
  assert (Hl : configured_calls (config_nh_ (obj s)) =
               Some [SetMotorType 10; SetDcMotorParameter 4464 14464 100; SetSensorType 1;
                     SetIncEncoderParameter 1000 false]) by (vm_compute; reflexivity).
  rewrite Hl in B. injection B as <-.
  assert (Hm : initial_mode_calls (obj s) = [SetOperationMode PROFILE_POSITION_MODE])
    by (vm_compute; reflexivity).
  rewrite Hm in I.
  exists t, tf. split; [exact C | exact I].
Defined.

Lemma write_profile_position_witness :
  position_cmd_ (obj position_command) = 123%float /\
  write vcs position_command =
    (Ret tt, after_call vcs (MoveToPosition 123 true true) position_command).
Proof.
  split; [vm_compute; reflexivity|].
  apply (write_profile_position vcs position_command 123).
  - split; [vm_compute; reflexivity | vm_compute; eexists; reflexivity].
  - vm_compute; reflexivity.
  - vm_compute; reflexivity.
  - vm_compute; reflexivity.
Defined.

Lemma write_profile_velocity_raw_units_witness :
  max_profile_velocity_ (obj velocity_command) = -1 /\
  write vcs velocity_command =
    (Ret tt, after_call vcs (MoveWithVelocity (-42)) velocity_command).
Proof.
  assert (Hmax : max_profile_velocity_ (obj velocity_command) = -1)
    by (vm_compute; reflexivity).
  split; [exact Hmax|].
  destruct (write_profile_velocity_raw_units vcs velocity_command (-42))
    as (sent & Hw & _ & Hneg).
  - split; [vm_compute; reflexivity | vm_compute; eexists; reflexivity].
  - vm_compute; reflexivity.
  - vm_compute; reflexivity.
  - vm_compute; reflexivity.
  - vm_compute; reflexivity.
  - rewrite Hmax in Hneg. rewrite (Hneg ltac:(lia)) in Hw. exact Hw.
Defined.

Lemma read_converts_units_witness :
  let s := brought_up None physical_units healthy in
  exists r0 r1 r2 r3 rest s',
    read vcs fr0 s = (Ret tt, s') /\
    calls s' = calls s ++ [(GetObject 0x6041 0x00 2, r0); (GetPositionIs, r1);
                           (GetVelocityIs, r2); (GetCurrentIs, r3)] ++ rest /\
    position_ (obj s') =
      (Num.of_int (stored r1 0) * Num.M_PI / (2 * Num.of_int 1000))%float /\
    velocity_ (obj s') = (Num.of_int (stored r2 0) * Num.M_PI / 30)%float.
Proof.
  intros s.
  destruct (read_converts_units vcs fr0 s)
    as (r0 & r1 & r2 & r3 & rest & s' & Hrun & Hc & _ & Hp & Hv & _).
  - split; [vm_compute; reflexivity | vm_compute; eexists; reflexivity].
  - exists r0, r1, r2, r3, rest, s'. split; [exact Hrun|]. split; [exact Hc|].
    assert (Hu : rw_ros_units_ (obj s) = true) by (vm_compute; reflexivity).
    assert (He : encoder_resolution_ (obj s) = 1000) by (vm_compute; reflexivity).
    rewrite Hu, He in Hp. rewrite Hu in Hv. split; [exact Hp | exact Hv].
Defined.

Lemma read_measures_supply_voltage_witness :
  exists s' pre,
    read vcs fr0 supplied = (Ret tt, s') /\
    calls s' = calls supplied ++ pre ++ [(GetObject 0x2200 0x01 2, Success 241)] /\
    measured_fields (power_supply_state_ (obj s')) = (0x1.81999ap+4%float, true).
Proof.
  destruct (read_measures_supply_voltage vcs fr0 supplied) as (s' & Hrun & H).
  - split; [vm_compute; reflexivity | vm_compute; eexists; reflexivity].
  - assert (Hn : bool_decide (power_supply_name_ (obj supplied) = "") = false)
      by (vm_compute; reflexivity).
    rewrite Hn in H. destruct H as (pre & r4 & C & M & _).
    assert (Hl : last (calls (snd (read vcs fr0 supplied)))
                 = Some (GetObject 0x2200 0x01 2, Success 241))
      by (vm_compute; reflexivity).
    rewrite Hrun in Hl. cbn [snd] in Hl.
    rewrite C, !app_assoc, last_snoc in Hl. injection Hl as ->.
    exists s', pre. split; [exact Hrun|]. split; [exact C|].
    rewrite M. vm_compute. reflexivity.
Defined.

Lemma doSwitch_sets_mapped_modes_witness :
  exists s' t,
    doSwitch vcs starting [] before_switch = (Ret tt, s') /\
    obj s' = obj before_switch /\
    calls s' = calls before_switch ++ t /\
    issued t = [SetOperationMode CURRENT_MODE; SetOperationMode PROFILE_VELOCITY_MODE].
Proof.
  destruct (doSwitch_sets_mapped_modes vcs starting [] before_switch)
    as (s' & t & Hrun & Ho & _ & C & I & _).
  - vm_compute; eexists; reflexivity.
  - exists s', t. split; [exact Hrun|]. split; [exact Ho|]. split; [exact C|].
    rewrite I. vm_compute; reflexivity.
Defined.

Lemma doSwitch_null_handle_witness :
  let s := boot None base_params healthy in
  doSwitch vcs starting [] s = (Stuck, s) /\
  doSwitch vcs [{| ci_name := "gripper_controller" |}] [] s = (Ret tt, s).
Proof.
  intros s. split.
  - rewrite (doSwitch_null_handle vcs starting [] s ltac:(vm_compute; reflexivity)).
    f_equal.
  - rewrite (doSwitch_null_handle vcs [{| ci_name := "gripper_controller" |}] [] s
               ltac:(vm_compute; reflexivity)).
    f_equal.
Defined.

Lemma motor_status_after_failed_init_witness :
  let s := boot None base_params (faulty false) in
  let s' := snd (init vcs 0 s) in
  fst (init vcs 0 s) = Fail /\
  buildMotorStatus vcs GetErrorInfo fresh_report s' =
    (Ret {| DiagnosticStatus.level := DiagnosticStatus.ERROR;
            DiagnosticStatus.message := "EPOS not initialized";
            DiagnosticStatus.values := [("Actuator Name", "wheel")] |}, s').
Proof.
  intros s s'.
  assert (Hr : fst (init vcs 0 s) = Fail) by (vm_compute; reflexivity).
  split; [exact Hr|].
  rewrite (motor_status_after_failed_init vcs GetErrorInfo 0%nat s s' Fail fresh_report
             ltac:(vm_compute; reflexivity) (run_eq _ _ Hr) ltac:(discriminate)).
  reflexivity.
Defined.

Lemma motor_status_enumerates_errors_witness :
  exists stat' s' t,
    buildMotorStatus vcs GetErrorInfo fresh_report faulted = (Ret stat', s') /\
    obj s' = obj faulted /\
    calls s' = calls faulted ++ t /\
    issued t = [GetNbOfDeviceError; GetDeviceErrorCode 1; GetDeviceErrorCode 2].
Proof.
  destruct (motor_status_enumerates_errors vcs GetErrorInfo faulted fresh_report)
    as (stat' & s' & t & Hrun & Ho & _ & C & I & _).
  - split; [vm_compute; reflexivity | vm_compute; eexists; reflexivity].
  - exists stat', s', t. split; [exact Hrun|]. split; [exact Ho|]. split; [exact C|].
    assert (Hn : typed GetNbOfDeviceError (vcs GetNbOfDeviceError (dev faulted)).1 = Success 2)
      by (vm_compute; reflexivity).
    rewrite Hn in I. rewrite I. reflexivity.
Defined.

Lemma ctor_validity_witness :
  let nh := nh_of unknown_mode in
  let e := driver None unknown_mode in
  valid_ e = false /\
  operation_mode_map_ e !! "" = Some PROFILE_POSITION_MODE /\
  operation_mode_map_ e !! "arm_controller" = None.
Proof.
  intros nh e.
  destruct (ctor_validity SerialNumberFromHex "epos" nh (raw_memory None) e
              ltac:(vm_compute; reflexivity)) as (_ & M & _).
  split; [vm_compute; reflexivity|].
  split; rewrite M; vm_compute; reflexivity.
Defined.

Lemma STATUSWORD_is_bit_witness :
  STATUSWORD FAULT 0x0008 = 1 /\ truthy (STATUSWORD FAULT 0x0237) = false.
Proof.
  destruct (STATUSWORD_is_bit FAULT 0x0008 ltac:(unfold FAULT; lia)) as (H1 & _).
  destruct (STATUSWORD_is_bit FAULT 0x0237 ltac:(unfold FAULT; lia)) as (_ & H2).
  rewrite H1, H2. split; reflexivity.
Defined.

Lemma init_configuration_failure_is_logged_witness :
  let s := boot None partial_dc_motor healthy in
  fst (init vcs 0 s) = Fail /\ error_logged (snd (init vcs 0 s)).
Proof.
  intros s.
  assert (Hr : fst (init vcs 0 s) = Fail) by (vm_compute; reflexivity).
  split; [exact Hr|].
  apply (init_configuration_failure_is_logged vcs 0%nat s _ (run_eq _ _ Hr)).
  vm_compute. discriminate.
Defined.

Lemma init_fault_query_fails_silently_witness :
  let s := boot None base_params (breaking ["GetNbOfDeviceError"] true healthy) in
  exists s',
    init vcs 0 s = (Fail, s') /\
    issued (new_calls (snd (init_configure vcs 0 s)) s') = [GetNbOfDeviceError] /\
    ~ error_logged s'.
Proof.
  intros s.
  assert (Hc : fst (init_configure vcs 0 s) = Ret tt) by (vm_compute; reflexivity).
  destruct (init_fault_query_fails_silently vcs 0%nat s _ None 0x1000 (run_eq _ _ Hc)
              ltac:(vm_compute; reflexivity))
    as (s' & Hrun & C & _ & _ & N).
  exists s'. split; [exact Hrun|]. split; [|exact N].
  unfold new_calls. rewrite C, drop_app_length. reflexivity.
Defined.

Lemma cycles_keep_operational_witness :
  operational (snd (run_cycles vcs [DoRead fr0; DoWrite; DoRead fr0] running)) /\
  operational (snd (doSwitch vcs starting [] running)).
Proof.
  destruct (cycles_keep_operational vcs GetErrorInfo running) as (H1 & H2 & _).
  - split; [vm_compute; reflexivity | vm_compute; eexists; reflexivity].
  - split; [apply H1 | apply H2].
Defined.
